(** * A shallow embedding of the DMAP codec of pydarn ([pydarn/pydmap/io.py])

    Bytes are integers in [0, 255]; a buffer is a [list Z] read through a
    cursor, as [DmapRead] does with [self.dmap_bytearr] and [self.cursor].
    Integers are written little-endian (the native layout of [struct] on the
    machines pydarn runs on).  A float value is represented by its IEEE bit
    pattern (an unsigned integer of the float's width): [struct.pack] and
    [numpy] move those bits unchanged.  Names and string values are kept as
    their UTF-8 byte sequences. *)

From Stdlib Require Import ZArith Lia List String Bool.
From stdpp Require Import base sets gmap.
Import ListNotations.

Open Scope Z_scope.

(** ** Errors raised by the codec, by exception class *)
Inductive dmap_error : Type :=
  | CursorError            (* pydmap_exceptions.CursorError *)
  | MismatchByteError      (* pydmap_exceptions.MismatchByteError *)
  | ZeroByteError          (* pydmap_exceptions.ZeroByteError *)
  | NegativeByteError      (* pydmap_exceptions.NegativeByteError *)
  | DmapDataTypeError      (* pydmap_exceptions.DmapDataTypeError *)
  | DmapDataError          (* pydmap_exceptions.DmapDataError *)
  | EmptyFileError         (* pydmap_exceptions.EmptyFileError *)
  | DmapTypeError          (* pydmap_exceptions.DmapTypeError *)
  | SuperDARNFieldExtra (fields : gset (list Z))
  | SuperDARNFieldMissing (fields : gset (list Z))
  | SuperDARNDataFormatError
  | PyIndexError           (* IndexError of the interpreter *)
  | PyKeyError             (* KeyError of the interpreter *)
  | PyValueError           (* ValueError (numpy.frombuffer, chr) *)
  | PyStructError          (* struct.error *)
  | PyTypeError            (* TypeError of the interpreter *)
  | PyAttributeError       (* AttributeError of the interpreter *)
  | PyUnicodeDecodeError   (* UnicodeDecodeError of bytes.decode('utf-8') *)
  | OutOfFuel.             (* never raised: loops get enough fuel *)

Inductive result (A : Type) : Type :=
  | Ok (a : A)
  | Err (e : dmap_error).
Arguments Ok {A} a.
Arguments Err {A} e.

(** The decoder threads the cursor: [M A] is a state-and-error monad. *)
Definition M (A : Type) : Type := Z -> result (A * Z).

Definition ret {A} (a : A) : M A := fun c => Ok (a, c).
Definition bind {A B} (m : M A) (k : A -> M B) : M B :=
  fun c => match m c with
           | Ok (a, c') => k a c'
           | Err e => Err e
           end.
Definition raise {A} (e : dmap_error) : M A := fun _ => Err e.
Definition get_cursor : M Z := fun c => Ok (c, c).
Definition set_cursor (c' : Z) : M unit := fun _ => Ok (tt, c').

Notation "'let*' x ':=' m 'in' k" := (bind m (fun x => k))
  (at level 200, x pattern, m at level 100, k at level 200,
   right associativity).

(** ** Wire types *)
Definition DMAP := 0.
Definition CHAR := 1.
Definition SHORT := 2.
Definition INT := 3.
Definition FLOAT := 4.
Definition DOUBLE := 8.
Definition STRING := 9.
Definition LONG := 10.
Definition UCHAR := 16.
Definition USHORT := 17.
Definition UINT := 18.
Definition ULONG := 19.

Definition DMAP_DATA_TYPES : list (Z * (string * Z)) :=
  [(DMAP, (""%string, 0)); (CHAR, ("c"%string, 1)); (SHORT, ("h"%string, 2));
   (INT, ("i"%string, 4)); (FLOAT, ("f"%string, 4)); (DOUBLE, ("d"%string, 8));
   (STRING, ("s"%string, 1)); (LONG, ("q"%string, 8)); (UCHAR, ("B"%string, 1));
   (USHORT, ("H"%string, 2)); (UINT, ("I"%string, 4)); (ULONG, ("Q"%string, 8))].

Fixpoint assoc_Z {A} (k : Z) (l : list (Z * A)) : option A :=
  match l with
  | [] => None
  | (k', v) :: l' => if k =? k' then Some v else assoc_Z k l'
  end.

Definition dmap_type (t : Z) : option (string * Z) := assoc_Z t DMAP_DATA_TYPES.

(** [struct] formats: byte width and signedness of the integer formats. *)
Definition fmt_int_info (fmt : string) : option (Z * bool) :=
  if String.eqb fmt "h" then Some (2, true)
  else if String.eqb fmt "i" then Some (4, true)
  else if String.eqb fmt "q" then Some (8, true)
  else if String.eqb fmt "f" then Some (4, false)
  else if String.eqb fmt "d" then Some (8, false)
  else if String.eqb fmt "B" then Some (1, false)
  else if String.eqb fmt "H" then Some (2, false)
  else if String.eqb fmt "I" then Some (4, false)
  else if String.eqb fmt "Q" then Some (8, false)
  else None.

(** ** Little-endian bytes *)
Fixpoint le_decode (bs : list Z) : Z :=
  match bs with
  | [] => 0
  | b :: bs' => b + 256 * le_decode bs'
  end.

Fixpoint le_encode (w : nat) (v : Z) : list Z :=
  match w with
  | O => []
  | S w' => v mod 256 :: le_encode w' (v / 256)
  end.

Definition to_signed (w : Z) (u : Z) : Z :=
  if u <? 2 ^ (8 * w - 1) then u else u - 2 ^ (8 * w).

Definition num_decode (fmt : string) (bs : list Z) : Z :=
  match fmt_int_info fmt with
  | Some (w, true) => to_signed w (le_decode bs)
  | _ => le_decode bs
  end.

(** [struct.pack(fmt, v)] for one integer [v]: range-checked. *)
Definition in_fmt_range (fmt : string) (v : Z) : bool :=
  match fmt_int_info fmt with
  | Some (w, true) => (- 2 ^ (8 * w - 1) <=? v) && (v <? 2 ^ (8 * w - 1))
  | Some (w, false) => (0 <=? v) && (v <? 2 ^ (8 * w))
  | None => false
  end.

Definition struct_pack (fmt : string) (v : Z) : result (list Z) :=
  match fmt_int_info fmt with
  | Some (w, _) => if in_fmt_range fmt v then Ok (le_encode (Z.to_nat w) v)
                   else Err PyStructError
  | None => Err PyStructError
  end.

(** [chr(v).encode('utf-8')] *)
Definition utf8_chr (v : Z) : result (list Z) :=
  if (v <? 0) || (1114111 <? v) then Err PyValueError
  else if v <? 128 then Ok [v]
  else if v <? 2048 then Ok [192 + v / 64; 128 + v mod 64]
  else if (55296 <=? v) && (v <? 57344) then Err PyValueError
  else if v <? 65536 then
    Ok [224 + v / 4096; 128 + (v / 64) mod 64; 128 + v mod 64]
  else Ok [240 + v / 262144; 128 + (v / 4096) mod 64;
           128 + (v / 64) mod 64; 128 + v mod 64].

(** A continuation byte [10xxxxxx] of UTF-8. *)
Definition utf8_cont (b : Z) : bool := (128 <=? b) && (b <=? 191).

(** [bs.decode('utf-8')]: the code points, or [None] where the strict
    decoder raises (a stray continuation byte, an overlong form, a surrogate,
    a code point past U+10FFFF, a truncated sequence). *)
Fixpoint utf8_decode (bs : list Z) : option (list Z) :=
  match bs with
  | [] => Some []
  | b :: r =>
      if (0 <=? b) && (b <? 128) then option_map (cons b) (utf8_decode r)
      else if (194 <=? b) && (b <=? 223) then
        match r with
        | c1 :: r' =>
            if utf8_cont c1
            then option_map (cons ((b - 192) * 64 + (c1 - 128))) (utf8_decode r')
            else None
        | [] => None
        end
      else if (224 <=? b) && (b <=? 239) then
        match r with
        | c1 :: c2 :: r' =>
            let lo := if b =? 224 then 160 else 128 in
            let hi := if b =? 237 then 159 else 191 in
            if (lo <=? c1) && (c1 <=? hi) && utf8_cont c2
            then option_map (cons ((b - 224) * 4096 + (c1 - 128) * 64 + (c2 - 128)))
                   (utf8_decode r')
            else None
        | _ => None
        end
      else if (240 <=? b) && (b <=? 244) then
        match r with
        | c1 :: c2 :: c3 :: r' =>
            let lo := if b =? 240 then 144 else 128 in
            let hi := if b =? 244 then 143 else 191 in
            if (lo <=? c1) && (c1 <=? hi) && utf8_cont c2 && utf8_cont c3
            then option_map (cons ((b - 240) * 262144 + (c1 - 128) * 4096
                                   + (c2 - 128) * 64 + (c3 - 128)))
                   (utf8_decode r')
            else None
        | _ => None
        end
      else None
  end.

Definition slice (l : list Z) (off len : Z) : list Z :=
  firstn (Z.to_nat len) (skipn (Z.to_nat off) l).

Fixpoint chunks (w : nat) (n : nat) (l : list Z) : list (list Z) :=
  match n with
  | O => []
  | S n' => firstn w l :: chunks w n' (skipn w l)
  end.

(** Python values produced by [read_data]; a [str] by its UTF-8 bytes *)
Inductive pyval : Type :=
  | PInt (z : Z)
  | PStr (bs : list Z).

(** numpy arrays: a numeric array of cells of [itemsize] bytes, or an array of
    Python [str] (numpy dtype [<U], four bytes per code point). *)
Inductive ndarray : Type :=
  | NNum (itemsize : Z) (cells : list Z)
  | NStr (cells : list (list Z)).

Record DmapScalar : Type := mkScalar {
  s_name : list Z;
  s_value : pyval;
  s_data_type : Z;
  s_data_type_fmt : string }.

Record DmapArray : Type := mkArray {
  a_name : list Z;
  a_value : ndarray;
  a_data_type : Z;
  a_data_type_fmt : string;
  a_dimension : Z;
  a_shape : list Z }.

Inductive field : Type :=
  | FScalar (s : DmapScalar)
  | FArray (a : DmapArray).

(** A record is an [OrderedDict] from names to fields. *)
Definition record := list (list Z * field).

(** [od[k] = v]: replaces in place when [k] is present, appends otherwise. *)
Fixpoint od_set (k : list Z) (v : field) (r : record) : record :=
  match r with
  | [] => [(k, v)]
  | (k', v') :: r' =>
      if decide (k = k') then (k, v) :: r' else (k', v') :: od_set k v r'
  end.

Definition ascii_bytes (s : string) : list Z :=
  map (fun a => Z.of_nat (Ascii.nat_of_ascii a)) (list_ascii_of_string s).

Definition slist_name : list Z := ascii_bytes "slist".

(** ** [DmapRead]: the decoder over a fixed byte array *)
Section Decoder.
Variable buf : list Z.

(** [self.dmap_end_bytes] *)
Definition end_bytes : Z := Z.of_nat (length buf).

(** Python indexing of [self.dmap_bytearr]: negative indices count from the end. *)
Definition py_get (i : Z) : option Z :=
  let j := if i <? 0 then i + end_bytes else i in
  if j <? 0 then None else nth_error buf (Z.to_nat j).

(** [struct.unpack_from(fmt, self.dmap_buffer, off)] for a format of [size]
    bytes: the raw bytes it decodes. *)
Definition unpack_from (size off : Z) : result (list Z) :=
  let off' := if off <? 0 then off + end_bytes else off in
  if off' <? 0 then Err PyStructError
  else if end_bytes - off' <? size then Err PyStructError
  else Ok (slice buf off' size).

(** The loop [while self.dmap_bytearr[self.cursor + byte_counter] != 0 or ...]:
    the index of the first NUL byte from [i]; an index past the end raises
    [IndexError] before the second disjunct is evaluated. *)
Fixpoint scan_nul (fuel : nat) (i : Z) : result Z :=
  match fuel with
  | O => Err PyIndexError
  | S f =>
      match py_get i with
      | None => Err PyIndexError
      | Some b => if b =? 0 then Ok i else scan_nul f (i + 1)
      end
  end.

(** [DmapRead.read_data]; the last branch is the format [''] of the DMAP type,
    for which [struct.unpack_from] returns [()] and [data[0]] raises. *)
Definition read_data (fmt : string) (w : Z) : M pyval := fun c =>
  if end_bytes <=? c then Err CursorError
  else if end_bytes - c <? w then Err CursorError
  else if String.eqb fmt "c" then
    match py_get c with
    | Some b => Ok (PInt b, c + w)
    | None => Err PyIndexError
    end
  else if String.eqb fmt "s" then
    match scan_nul (S (Z.to_nat (end_bytes - c))) c with
    | Err e => Err e
    | Ok j =>
        let k := j - c in
        if end_bytes <? c + k then Err MismatchByteError
        else match unpack_from k c with
             | Ok bs =>
                 match utf8_decode bs with
                 | Some _ => Ok (PStr bs, c + k + 1)
                 | None => Err PyUnicodeDecodeError
                 end
             | Err e => Err e
             end
    end
  else match fmt_int_info fmt with
       | Some (sz, _) =>
           match unpack_from sz c with
           | Ok bs => Ok (PInt (num_decode fmt bs), c + w)
           | Err e => Err e
           end
       | None =>
           match unpack_from 0 c with
           | Ok _ => Err PyIndexError
           | Err e => Err e
           end
       end.

Definition read_int : M Z :=
  let* v := read_data "i" 4 in
  match v with PInt z => ret z | PStr _ => raise PyTypeError end.

Definition read_name : M (list Z) :=
  let* v := read_data "s" 1 in
  match v with PStr bs => ret bs | PInt _ => raise PyTypeError end.

Definition read_byte : M Z :=
  let* v := read_data "c" 1 in
  match v with PInt z => ret z | PStr _ => raise PyTypeError end.

(** [self.cursor += n] *)
Definition advance (n : Z) : M unit := fun c => Ok (tt, c + n).

Definition zero_negative_check (element : Z) : M unit :=
  if element =? 0 then raise ZeroByteError
  else if element <? 0 then raise NegativeByteError
  else ret tt.

Definition bytes_check (element byte_check : Z) : M unit :=
  if byte_check <? element then raise MismatchByteError else ret tt.

Definition check_data_type (data_type : Z) : M unit :=
  match dmap_type data_type with
  | Some _ => ret tt
  | None => raise DmapDataTypeError
  end.

(** The [while] loop of [test_initial_data_integrity]. *)
Fixpoint integrity_loop (fuel : nat) (total_block_size : Z) : M Z :=
  match fuel with
  | O => raise OutOfFuel
  | S f =>
      let* c := get_cursor in
      if c <? end_bytes then
        let* _ := advance 4 in
        let* block_size := read_int in
        let* _ := zero_negative_check block_size in
        let total := total_block_size + block_size in
        let* _ := bytes_check total end_bytes in
        let* c' := get_cursor in
        let* _ := set_cursor (c' + block_size - 2 * 4) in
        integrity_loop f total
      else ret total_block_size
  end.

(** [DmapRead.test_initial_data_integrity]; its final [raise] builds the
    exception from [self.data_file], an attribute [DmapRead] does not have. *)
Definition test_initial_data_integrity : M unit :=
  let* c := get_cursor in
  if negb (c =? 0) then raise CursorError
  else
    let* total := integrity_loop (S (length buf)) 0 in
    if negb (total =? end_bytes) then raise PyAttributeError
    else set_cursor 0.

(** Python's [!=] between a [str] and an [int]: always [True]. *)
Definition py_str_ne_int (s : string) (n : Z) : bool := true.

Definition read_scalar : M DmapScalar :=
  let* scalar_name := read_name in
  let* scalar_type := read_byte in
  let* _ := check_data_type scalar_type in
  match dmap_type scalar_type with
  | None => raise PyKeyError
  | Some (scalar_type_fmt, scalar_fmt_byte) =>
      if py_str_ne_int scalar_type_fmt DMAP then
        let* scalar_value := read_data scalar_type_fmt scalar_fmt_byte in
        ret (mkScalar scalar_name scalar_value scalar_type scalar_type_fmt)
      else raise DmapDataError
  end.

(** [[self.read_data('i', 4) for i in range(0, n)]] *)
Fixpoint read_ints (n : nat) : M (list Z) :=
  match n with
  | O => ret []
  | S n' => let* x := read_int in let* xs := read_ints n' in ret (x :: xs)
  end.

Fixpoint read_values (n : nat) (fmt : string) (w : Z) : M (list pyval) :=
  match n with
  | O => ret []
  | S n' =>
      let* x := read_data fmt w in
      let* xs := read_values n' fmt w in ret (x :: xs)
  end.

(** [np.array(data)]: Python ints give an [int64] array (an empty list gives
    a [float64] one, also eight bytes per cell), Python [str]s a [<U] array. *)
Definition np_array (data : list pyval) : ndarray :=
  match data with
  | PStr _ :: _ =>
      NStr (map (fun v => match v with
                          | PStr b => match utf8_decode b with Some cps => cps | None => [] end
                          | PInt _ => []
                          end) data)
  | _ => NNum 8 (map (fun v => match v with PInt z => z | PStr _ => 0 end) data)
  end.

(** [DmapRead.read_string_array]: [range(dim_size)] for every dimension, so
    the number of elements read is the sum of the dimension sizes. *)
Fixpoint read_string_elems (shape : list Z) (fmt : string) (w : Z)
  : M (list pyval) :=
  match shape with
  | [] => ret []
  | dim_size :: shape' =>
      let* xs := read_values (Z.to_nat dim_size) fmt w in
      let* ys := read_string_elems shape' fmt w in ret (xs ++ ys)
  end.

Definition read_string_array (shape : list Z) (fmt : string) (w : Z) : M ndarray :=
  let* data := read_string_elems shape fmt w in ret (np_array data).

(** [np.frombuffer(self.dmap_buffer, fmt, count, offset)]: a negative count
    reads the whole rest of the buffer. *)
Definition frombuffer (fmt : string) (count off w : Z) : result (list Z) :=
  if (off <? 0) || (end_bytes <? off) then Err PyValueError
  else
    let s := end_bytes - off in
    if count <? 0 then
      if negb (s mod w =? 0) then Err PyValueError
      else Ok (map (num_decode fmt)
                 (chunks (Z.to_nat w) (Z.to_nat (s / w)) (skipn (Z.to_nat off) buf)))
    else if s <? count * w then Err PyValueError
    else Ok (map (num_decode fmt)
               (chunks (Z.to_nat w) (Z.to_nat count) (skipn (Z.to_nat off) buf))).

Definition read_numerical_array (fmt : string) (total_number_cells w : Z)
  : M ndarray := fun c =>
  match frombuffer fmt total_number_cells c w with
  | Ok cells => Ok (NNum w cells, c + total_number_cells * w)
  | Err e => Err e
  end.

(** [for i in range(array_dimension): if array_shape[i] >= record_size: raise] *)
Fixpoint check_dims (shape : list Z) (record_size : Z) : M unit :=
  match shape with
  | [] => ret tt
  | x :: shape' =>
      if record_size <=? x then raise DmapDataError
      else check_dims shape' record_size
  end.

Definition nonpositive_dim (shape : list Z) : bool := existsb (fun x => x <=? 0) shape.

(** [DmapRead.read_array]; the message of the "dimension size <= 0" error is
    built by [str.format] with a keyword its template does not use, which
    raises [KeyError]. *)
Definition read_array (record_size : Z) : M DmapArray :=
  let* array_name := read_name in
  let* array_type := read_byte in
  let* _ := check_data_type array_type in
  match dmap_type array_type with
  | None => raise PyKeyError
  | Some (array_type_fmt, array_fmt_bytes) =>
      let* array_dimension := read_int in
      let* _ := bytes_check array_dimension record_size in
      let* _ := zero_negative_check array_dimension in
      let* shape0 := read_ints (Z.to_nat array_dimension) in
      let array_shape := rev shape0 in
      if negb (Z.of_nat (length array_shape) =? array_dimension) then raise DmapDataError
      else if nonpositive_dim array_shape && negb (bool_decide (array_name = slist_name))
      then raise PyKeyError
      else
        let* _ := check_dims array_shape record_size in
        let total_num_cells := fold_left Z.mul array_shape 1 in
        let* _ := bytes_check total_num_cells record_size in
        let* _ := bytes_check (total_num_cells * array_fmt_bytes) record_size in
        let* array_value :=
          if String.eqb array_type_fmt "s" || String.eqb array_type_fmt "c" then
            read_string_array array_shape array_type_fmt array_fmt_bytes
          else if array_type =? DMAP then raise DmapDataError
          else read_numerical_array array_type_fmt total_num_cells array_fmt_bytes in
        ret (mkArray array_name array_value array_type array_type_fmt
               array_dimension array_shape)
  end.

Fixpoint read_scalars (n : nat) (r : record) : M record :=
  match n with
  | O => ret r
  | S n' => let* s := read_scalar in read_scalars n' (od_set (s_name s) (FScalar s) r)
  end.

Fixpoint read_arrays (n : nat) (block_size : Z) (r : record) : M record :=
  match n with
  | O => ret r
  | S n' =>
      let* a := read_array block_size in
      read_arrays n' block_size (od_set (a_name a) (FArray a) r)
  end.

(** [DmapRead.read_record] *)
Definition read_record : M record :=
  let* start_cursor_value := get_cursor in
  let* _ := advance 4 in
  let* block_size := read_int in
  let* c := get_cursor in
  let remaining_bytes := end_bytes - c + 2 * 4 in
  let* _ := bytes_check block_size remaining_bytes in
  let* _ := zero_negative_check block_size in
  let* num_scalars := read_int in
  let* num_arrays := read_int in
  let* _ := zero_negative_check num_scalars in
  let* _ := zero_negative_check num_arrays in
  let* _ := bytes_check (num_scalars + num_arrays) block_size in
  let* r := read_scalars (Z.to_nat num_scalars) [] in
  let* r := read_arrays (Z.to_nat num_arrays) block_size r in
  let* c' := get_cursor in
  if negb (c' - start_cursor_value =? block_size) then raise CursorError
  else ret r.

Fixpoint read_records_loop (fuel : nat) (acc : list record) : M (list record) :=
  match fuel with
  | O => raise OutOfFuel
  | S f =>
      let* c := get_cursor in
      if c <? end_bytes then
        let* r := read_record in read_records_loop f (acc ++ [r])
      else ret acc
  end.

(** [DmapRead.read_records] *)
Definition read_records : M (list record) :=
  let* recs := read_records_loop (S (length buf)) [] in
  let* c := get_cursor in
  let* _ := bytes_check c end_bytes in
  ret recs.

End Decoder.

(** [DmapRead(stream, data_stream=True).read_records()] *)
Definition dmap_read_stream (buf : list Z) : result (list record) :=
  if (length buf =? 0)%nat then Err EmptyFileError
  else match read_records buf 0 with
       | Ok (rs, _) => Ok rs
       | Err e => Err e
       end.

(** [DmapRead(stream, data_stream=True).test_initial_data_integrity()] run
    with the cursor at [c]. *)
Definition integrity_check_at (buf : list Z) (c : Z) : result unit :=
  match test_initial_data_integrity buf c with
  | Ok (u, _) => Ok u
  | Err e => Err e
  end.

(** ** [DmapWrite]: the encoder *)

(** Decimal text of an integer, as [str.format] renders it. *)
Fixpoint digits_rev (fuel : nat) (n : Z) : list Z :=
  match fuel with
  | O => []
  | S f => (48 + n mod 10) :: (if n <? 10 then [] else digits_rev f (n / 10))
  end.

Definition decimal_bytes (z : Z) : list Z :=
  let ds := rev (digits_rev (S (Z.to_nat (Z.log2 (Z.abs z) + 1))) (Z.abs z)) in
  if z <? 0 then 45 :: ds else ds.

(** [struct.pack('c', b)]: [b] must be a single byte. *)
Definition pack_char (bs : list Z) : result (list Z) :=
  match bs with
  | [b] => Ok [b]
  | _ => Err PyStructError
  end.

Definition type_byte (data_type : Z) : result (list Z) :=
  match utf8_chr data_type with
  | Ok bs => pack_char bs
  | Err e => Err e
  end.

Definition value_text (v : pyval) : list Z :=
  match v with PStr bs => bs | PInt z => decimal_bytes z end.

(** [struct.pack('%ds' % n, b)]: [b] cut, or NUL-padded, to [n] bytes. *)
Definition pack_s (n : nat) (b : list Z) : list Z :=
  firstn n b ++ repeat 0 (n - length b).

(** [len(x)] of the [str] [x] whose UTF-8 encoding is [bs]: its number of
    code points, one for each byte that is not a continuation byte. *)
Definition py_len (bs : list Z) : nat := length (List.filter (fun b => negb (utf8_cont b)) bs).

(** [x = "{0}\0".format(v)] and
    [struct.pack('{0}s'.format(len(x)), x.encode('utf-8'))], for the [str]
    [v] of UTF-8 encoding [bs]: the format counts characters, the encoding
    bytes. *)
Definition pack_text_nul (bs : list Z) : list Z :=
  pack_s (py_len (bs ++ [0])) (bs ++ [0]).

(** [DmapWrite.dmap_scalar_to_bytes] *)
Definition dmap_scalar_to_bytes (scalar : DmapScalar) : result (list Z) :=
  let scalar_name_bytes := pack_text_nul (s_name scalar) in
  match type_byte (s_data_type scalar) with
  | Err e => Err e
  | Ok scalar_type_bytes =>
      let data :=
        if String.eqb (s_data_type_fmt scalar) "s" then
          Ok (pack_text_nul (value_text (s_value scalar)))
        else if String.eqb (s_data_type_fmt scalar) "c" then
          match s_value scalar with
          | PInt v => utf8_chr v
          | PStr _ => Err PyTypeError
          end
        else match s_value scalar with
             | PInt v => struct_pack (s_data_type_fmt scalar) v
             | PStr _ => Err PyStructError
             end in
      match data with
      | Ok scalar_data_bytes =>
          Ok (scalar_name_bytes ++ scalar_type_bytes ++ scalar_data_bytes)
      | Err e => Err e
      end
  end.

Fixpoint list_max (l : list nat) : nat :=
  match l with [] => O | x :: l' => Nat.max x (list_max l') end.

(** [ndarray.tostring()]: the raw cells, in order. *)
Definition tostring (value : ndarray) : list Z :=
  match value with
  | NNum k cells => concat (map (le_encode (Z.to_nat k)) cells)
  | NStr cells =>
      let m := list_max (map (@length Z) cells) in
      concat (map (fun s => concat (map (le_encode 4)
                                     (s ++ repeat 0 (m - length s)%nat))) cells)
  end.

Fixpoint pack_ints (l : list Z) : result (list Z) :=
  match l with
  | [] => Ok []
  | x :: l' =>
      match struct_pack "i" x, pack_ints l' with
      | Ok b, Ok bs => Ok (b ++ bs)
      | Err e, _ => Err e
      | _, Err e => Err e
      end
  end.

(** [DmapWrite.dmap_array_to_bytes] *)
Definition dmap_array_to_bytes (array : DmapArray) : result (list Z) :=
  let array_name_bytes := pack_text_nul (a_name array) in
  match type_byte (a_data_type array) with
  | Err e => Err e
  | Ok array_type_bytes =>
      match struct_pack "i" (a_dimension array), pack_ints (a_shape array) with
      | Ok array_dim_bytes, Ok array_shape_bytes =>
          Ok (array_name_bytes ++ array_type_bytes ++ array_dim_bytes
              ++ array_shape_bytes ++ tostring (a_value array))
      | Err e, _ => Err e
      | _, Err e => Err e
      end
  end.

(** The loop of [__dmap_record_to_bytes]: the payload and the two counts. *)
Fixpoint fields_to_bytes (r : record) : result (list Z * Z * Z) :=
  match r with
  | [] => Ok ([], 0, 0)
  | (_, FScalar s) :: r' =>
      match dmap_scalar_to_bytes s, fields_to_bytes r' with
      | Ok b, Ok (bs, ns, na) => Ok (b ++ bs, ns + 1, na)
      | Err e, _ => Err e
      | _, Err e => Err e
      end
  | (_, FArray a) :: r' =>
      match dmap_array_to_bytes a, fields_to_bytes r' with
      | Ok b, Ok (bs, ns, na) => Ok (b ++ bs, ns, na + 1)
      | Err e, _ => Err e
      | _, Err e => Err e
      end
  end.

Definition encoding_identifier : Z := 65537.

(** [DmapWrite.__dmap_record_to_bytes]: the bytes it appends. *)
Definition dmap_record_to_bytes (r : record) : result (list Z) :=
  match fields_to_bytes r with
  | Err e => Err e
  | Ok (data_bytearray, num_scalars, num_arrays) =>
      let block_size := Z.of_nat (length data_bytearray) + 16 in
      match pack_ints [encoding_identifier; block_size; num_scalars; num_arrays] with
      | Ok header => Ok (header ++ data_bytearray)
      | Err e => Err e
      end
  end.

Record DmapWrite : Type := mkWrite {
  dmap_records : list record;
  dmap_bytearr : list Z;
  filename : string }.

Definition set_records (st : DmapWrite) (rs : list record) : DmapWrite :=
  mkWrite rs (dmap_bytearr st) (filename st).

Definition append_bytes (st : DmapWrite) (bs : list Z) : DmapWrite :=
  mkWrite (dmap_records st) (dmap_bytearr st ++ bs) (filename st).

Definition records_to_bytes_from (st : DmapWrite) (rs : list record)
  : result DmapWrite :=
  fold_left (fun acc r =>
               match acc with
               | Err e => Err e
               | Ok st' => match dmap_record_to_bytes r with
                           | Ok bs => Ok (append_bytes st' bs)
                           | Err e => Err e
                           end
               end) rs (Ok st).

(** [DmapWrite.dmap_records_to_bytes] *)
Definition dmap_records_to_bytes (st : DmapWrite) : result DmapWrite :=
  records_to_bytes_from st (dmap_records st).

Definition empty_record_check (st : DmapWrite) : result unit :=
  match dmap_records st with
  | [] => Err DmapDataError
  | _ => Ok tt
  end.

(** [DmapWrite.write_dmap_stream(dmap_records)]: the new state and the
    returned [dmap_bytearr]. *)
Definition write_dmap_stream (st : DmapWrite) (arg : list record)
  : result (DmapWrite * list Z) :=
  let st1 := match dmap_records st with
             | [] => set_records st arg
             | _ => st
             end in
  match empty_record_check st1 with
  | Err e => Err e
  | Ok _ =>
      match dmap_records_to_bytes st1 with
      | Ok st2 => Ok (st2, dmap_bytearr st2)
      | Err e => Err e
      end
  end.

(** [DmapWrite(records)]: a fresh writer. *)
Definition new_writer (rs : list record) : DmapWrite := mkWrite rs [] "".

(** ** Field checks of the product writers *)

(** A format table ([superdarn_formats.X.types] and the like) is a dict from
    field names to [struct] formats. *)
Definition file_struct := list (list Z * string).

Definition key_set {A} (d : list (list Z * A)) : gset (list Z) :=
  list_to_set (map fst d).

(** [DmapWrite.dict_list2set]: [set.union] of all the key sets, a [TypeError] on no sets. *)
Definition dict_list2set (file_struct_list : list file_struct)
  : result (gset (list Z)) :=
  match file_struct_list with
  | [] => Err PyTypeError
  | _ => Ok (fold_right (fun g acc => key_set g ∪ acc) ∅ file_struct_list)
  end.

(** [DmapWrite.dict_key_diff] *)
Definition dict_key_diff (d1 d2 : gset (list Z)) : gset (list Z) := d1 ∖ d2.

(** The loop of [missing_field_check]: the union of the per-group differences
    whose size is neither 0 nor the size of the group. *)
Definition missing_fields (file_struct_list : list file_struct)
  (present : gset (list Z)) : gset (list Z) :=
  fold_left (fun missing g =>
               let diff_fields := dict_key_diff (key_set g) present in
               if decide (size diff_fields = 0 \/ size diff_fields = size (key_set g))%nat
               then missing else missing ∪ diff_fields)
            file_struct_list ∅.

(** [DmapWrite.missing_field_check] *)
Definition missing_field_check (file_struct_list : list file_struct) (r : record)
  : result unit :=
  match dict_list2set file_struct_list with
  | Err e => Err e
  | Ok complete_set =>
      let missing := missing_fields file_struct_list (key_set r ∩ complete_set) in
      if decide (0 < size missing)%nat then Err (SuperDARNFieldMissing missing)
      else Ok tt
  end.

(** [DmapWrite.extra_field_check] *)
Definition extra_field_check (file_struct_list : list file_struct) (r : record)
  : result unit :=
  match dict_list2set file_struct_list with
  | Err e => Err e
  | Ok file_struct_set =>
      let extra_fields := dict_key_diff (key_set r) file_struct_set in
      if decide (0 < size extra_fields)%nat then Err (SuperDARNFieldExtra extra_fields)
      else Ok tt
  end.

Fixpoint assoc_key {A} (k : list Z) (l : list (list Z * A)) : option A :=
  match l with
  | [] => None
  | (k', v) :: l' => if decide (k = k') then Some v else assoc_key k l'
  end.

(** [complete_dict.update(file_struct)] for every table: a later table wins. *)
Definition complete_dict_lookup (file_struct_list : list file_struct) (k : list Z)
  : option string :=
  fold_left (fun acc g => match assoc_key k g with
                          | Some v => Some v
                          | None => acc
                          end) file_struct_list None.

Definition field_fmt (f : field) : string :=
  match f with
  | FScalar s => s_data_type_fmt s
  | FArray a => a_data_type_fmt a
  end.

(** [DmapWrite.incorrect_types_check]; [complete_dict[param]] raises [KeyError]
    on a name of no table. *)
Definition incorrect_types_check (file_struct_list : list file_struct) (r : record)
  : result unit :=
  let check := fold_left (fun acc kv =>
                  match acc with
                  | Err e => Err e
                  | Ok bad =>
                      match complete_dict_lookup file_struct_list (fst kv) with
                      | None => Err PyKeyError
                      | Some t => Ok (bad || negb (String.eqb (field_fmt (snd kv)) t))
                      end
                  end) r (Ok false) in
  match check with
  | Err e => Err e
  | Ok true => Err SuperDARNDataFormatError
  | Ok false => Ok tt
  end.

(** the three checks of [superDARN_file_structure_to_bytes], in its order *)
Definition record_checks (file_struct_list : list file_struct) (r : record)
  : result unit :=
  match extra_field_check file_struct_list r with
  | Err e => Err e
  | Ok _ =>
      match missing_field_check file_struct_list r with
      | Err e => Err e
      | Ok _ => incorrect_types_check file_struct_list r
      end
  end.

(** [DmapWrite.superDARN_file_structure_to_bytes] *)
Definition superDARN_file_structure_to_bytes (st : DmapWrite)
  (file_struct_list : list file_struct) : result DmapWrite :=
  fold_left (fun acc r =>
               match acc with
               | Err e => Err e
               | Ok st' =>
                   match record_checks file_struct_list r with
                   | Err e => Err e
                   | Ok _ => match dmap_record_to_bytes r with
                             | Ok bs => Ok (append_bytes st' bs)
                             | Err e => Err e
                             end
                   end
               end) (dmap_records st) (Ok st).

(** [write_rawacf_stream], [write_fitacf_stream], [write_grid_stream] and
    [write_map_stream] share this body; they differ in the list of tables. *)
Definition write_product_stream (file_struct_list : list file_struct)
  (st : DmapWrite) (arg : list record) : result (DmapWrite * list Z) :=
  let st1 := match arg with
             | [] => st
             | _ => set_records st arg
             end in
  match empty_record_check st1 with
  | Err e => Err e
  | Ok _ =>
      match superDARN_file_structure_to_bytes st1 file_struct_list with
      | Ok st2 => Ok (st2, dmap_bytearr st2)
      | Err e => Err e
      end
  end.

(** [write_rawacf_stream], over the table [superdarn_formats.Rawacf.types]. *)
Definition write_rawacf_stream (rawacf_types : file_struct) :=
  write_product_stream [rawacf_types].

(** An encode of a record set: [None] is the raw [dmap] mode, [Some S] the
    checked mode over the tables [S]; a fresh writer, its bytes returned. *)
Definition encode (mode : option (list file_struct)) (R : list record)
  : result (list Z) :=
  match mode with
  | None => match write_dmap_stream (new_writer R) [] with
            | Ok (_, bs) => Ok bs
            | Err e => Err e
            end
  | Some tables => match write_product_stream tables (new_writer R) [] with
              | Ok (_, bs) => Ok bs
              | Err e => Err e
              end
  end.

(** ** File writers and the [DmapWrite] constructor *)

(** Exceptions of the writer's file layer: those of the codec, and the two
    raised by [__init__] and [__filename_check]. *)
Inductive write_error : Type :=
  | CodecError (e : dmap_error)
  | FilenameRequiredError  (* pydmap_exceptions.FilenameRequiredError *)
  | DmapFileFormatType.    (* pydmap_exceptions.DmapFileFormatType *)

Inductive wresult (A : Type) : Type :=
  | WOk (a : A)
  | WErr (e : write_error).
Arguments WOk {A} a.
Arguments WErr {A} e.

(** [DmapWrite.__filename_check(filename)] *)
Definition filename_check (st : DmapWrite) (fn : string) : wresult DmapWrite :=
  if String.eqb (filename st) "" && String.eqb fn "" then WErr FilenameRequiredError
  else if negb (String.eqb fn "") then WOk (mkWrite (dmap_records st) (dmap_bytearr st) fn)
  else WOk st.

(** The tables of [superdarn_formats] the writers use. *)
Record superdarn_formats : Type := mkFormats {
  Iqdat_types : file_struct;
  Rawacf_types : file_struct;
  Fitacf_types : file_struct;
  Grid_types : file_struct;
  Grid_extra_fields : file_struct;
  Map_types : file_struct;
  Map_extra_fields : file_struct;
  Map_fit_fields : file_struct;
  Map_model_fields : file_struct;
  Map_hmb_fields : file_struct }.

Definition grid_tables (F : superdarn_formats) : list file_struct :=
  [Grid_types F; Grid_extra_fields F].

Definition map_tables (F : superdarn_formats) : list file_struct :=
  [Map_types F; Map_extra_fields F; Map_fit_fields F; Map_model_fields F; Map_hmb_fields F].

(** A file written with [open(self.filename, 'wb')] and
    [f.write(self.dmap_bytearr)]: its name and its contents. *)
Definition written : Type := (string * list Z)%type.

(** Writing to [self.filename] after the conversion [to_bytes]. *)
Definition write_file_after (to_bytes : DmapWrite -> result DmapWrite)
  (st : DmapWrite) (fn : string) : wresult (DmapWrite * written) :=
  match empty_record_check st with
  | Err e => WErr (CodecError e)
  | Ok _ =>
      match filename_check st fn with
      | WErr e => WErr e
      | WOk st1 =>
          match to_bytes st1 with
          | Ok st2 => WOk (st2, (filename st2, dmap_bytearr st2))
          | Err e => WErr (CodecError e)
          end
      end
  end.

(** [write_iqdat], [write_rawacf], [write_fitacf], [write_grid] and
    [write_map]: [__empty_record_check], [__filename_check], the checked
    conversion over their tables, then the file. *)
Definition write_product_file (file_struct_list : list file_struct) :=
  write_file_after (fun st => superDARN_file_structure_to_bytes st file_struct_list).

Definition write_iqdat (F : superdarn_formats) := write_product_file [Iqdat_types F].
Definition write_rawacf (F : superdarn_formats) := write_product_file [Rawacf_types F].
Definition write_fitacf (F : superdarn_formats) := write_product_file [Fitacf_types F].
Definition write_grid (F : superdarn_formats) := write_product_file (grid_tables F).
Definition write_map (F : superdarn_formats) := write_product_file (map_tables F).

(** [DmapWrite.write_dmap]: no field checks. *)
Definition write_dmap := write_file_after dmap_records_to_bytes.

(** The other product stream writers. *)
Definition write_fitacf_stream (F : superdarn_formats) :=
  write_product_stream [Fitacf_types F].
Definition write_grid_stream (F : superdarn_formats) :=
  write_product_stream (grid_tables F).
Definition write_map_stream (F : superdarn_formats) :=
  write_product_stream (map_tables F).

Definition with_file (w : wresult (DmapWrite * written))
  : wresult (DmapWrite * option written) :=
  match w with
  | WOk (st, f) => WOk (st, Some f)
  | WErr e => WErr e
  end.

(** [DmapWrite(dmap_records, filename, dmap_file_fmt)]: the new writer and the
    file it wrote, if any.  The test [dmap_file_fmt is ""] is an equality
    test: CPython keeps a single empty [str] object. *)
Definition dmap_write_init (F : superdarn_formats) (rs : list record) (fn : string)
  (dmap_file_fmt : string) : wresult (DmapWrite * option written) :=
  let st := mkWrite rs [] fn in
  if String.eqb dmap_file_fmt "" then WOk (st, None)
  else if String.eqb dmap_file_fmt "iqdat" then with_file (write_iqdat F st "")
  else if String.eqb dmap_file_fmt "rawacf" then with_file (write_rawacf F st "")
  else if String.eqb dmap_file_fmt "fitacf" then with_file (write_fitacf F st "")
  else if String.eqb dmap_file_fmt "grid" then with_file (write_grid F st "")
  else if String.eqb dmap_file_fmt "map" then with_file (write_map F st "")
  else if String.eqb dmap_file_fmt "dmap" then with_file (write_dmap st "")
  else if String.eqb dmap_file_fmt "stream" then
    match write_dmap_stream st [] with
    | Ok (st', _) => WOk (st', None)
    | Err e => WErr (CodecError e)
    end
  else WErr DmapFileFormatType.

(** * Properties *)

(** ** Stream writers and the records they encode *)

(** C10: [write_dmap_stream] encodes the instance's records whenever it holds
    some, whatever list is passed, and only uses the argument when the
    instance holds none; [write_rawacf_stream] (like every product stream
    writer) replaces the instance's records by a non-empty argument. *)
Theorem write_dmap_stream_keeps_instance_records :
  (forall (st : DmapWrite) (arg : list record),
      dmap_records st <> [] ->
      write_dmap_stream st arg = write_dmap_stream st [] /\
      write_dmap_stream st arg =
        match records_to_bytes_from st (dmap_records st) with
        | Ok st2 => Ok (st2, dmap_bytearr st2)
        | Err e => Err e
        end) /\
  (forall (st : DmapWrite) (arg : list record),
      dmap_records st = [] ->
      write_dmap_stream st arg = write_dmap_stream (set_records st arg) []) /\
  (forall (rawacf_types : file_struct) (st : DmapWrite) (arg : list record),
      arg <> [] ->
      write_rawacf_stream rawacf_types st arg =
        write_rawacf_stream rawacf_types (set_records st arg) []) /\
  (forall (tables : list file_struct) (st : DmapWrite) (arg : list record),
      arg <> [] ->
      write_product_stream tables st arg =
        write_product_stream tables (set_records st arg) []).
Proof.
  assert (Hprod : forall (tables : list file_struct) (st : DmapWrite) (arg : list record),
             arg <> [] ->
             write_product_stream tables st arg =
               write_product_stream tables (set_records st arg) []).
  { intros tables st arg Harg. unfold write_product_stream.
    destruct arg as [|r arg']; [congruence|]. reflexivity. }
  split; [|split; [|split]].
  - intros st arg Hne. unfold write_dmap_stream.
    destruct (dmap_records st) as [|r rs] eqn:E; [congruence|].
    split; [reflexivity|]. unfold empty_record_check, dmap_records_to_bytes.
    rewrite E. reflexivity.
  - intros st arg Hnil. unfold write_dmap_stream. rewrite Hnil.
    destruct st as [rs ba fn]; simpl in *; subst.
    destruct arg; reflexivity.
  - intros rawacf_types st arg Harg. unfold write_rawacf_stream. apply Hprod; exact Harg.
  - exact Hprod.
Qed.

(** ** ASCII text *)

(** The UTF-8 encoding of an ASCII [str] without NUL: for it the character
    count [len] of the writer's format is the byte count. *)
Definition ascii_text (bs : list Z) : Prop := Forall (fun b => 0 < b < 128) bs.

Definition ascii_textb (bs : list Z) : bool := forallb (fun b => (0 <? b) && (b <? 128)) bs.

Lemma ascii_textb_ok bs : ascii_textb bs = true -> ascii_text bs.
Proof.
  unfold ascii_textb, ascii_text. rewrite forallb_forall, List.Forall_forall.
  intros H b Hb. specialize (H b Hb). apply andb_true_iff in H as [H1 H2]. lia.
Qed.

Lemma ascii_text_no_nul bs : ascii_text bs -> ~ In 0 bs.
Proof.
  intros H Hin. unfold ascii_text in H. rewrite List.Forall_forall in H.
  specialize (H 0 Hin). lia.
Qed.

Lemma ascii_utf8_decode bs : ascii_text bs -> utf8_decode bs = Some bs.
Proof.
  induction 1 as [|b bs Hb _ IH]; [reflexivity|]. cbn [utf8_decode].
  destruct (Z.leb_spec 0 b); [|lia]. destruct (Z.ltb_spec b 128); [|lia].
  cbn [andb]. rewrite IH. reflexivity.
Qed.

Lemma ascii_py_len bs : ascii_text bs -> py_len bs = length bs.
Proof.
  unfold py_len. induction 1 as [|b bs Hb _ IH]; [reflexivity|].
  cbn [List.filter].
  assert (U : utf8_cont b = false) by (unfold utf8_cont; destruct (Z.leb_spec 128 b); [lia|reflexivity]).
  rewrite U. cbn [negb length]. rewrite IH. reflexivity.
Qed.

Lemma py_len_app bs1 bs2 : py_len (bs1 ++ bs2) = (py_len bs1 + py_len bs2)%nat.
Proof. unfold py_len. rewrite List.filter_app, length_app. reflexivity. Qed.

Lemma pack_s_length n b : length (pack_s n b) = n.
Proof.
  unfold pack_s. rewrite length_app, repeat_length, length_firstn. lia.
Qed.

Lemma pack_text_nul_length bs : length (pack_text_nul bs) = S (py_len bs).
Proof.
  unfold pack_text_nul. rewrite pack_s_length, py_len_app. cbn. lia.
Qed.

(** For ASCII text the writer's packing is the bytes and the NUL. *)
Lemma ascii_pack_text_nul bs : ascii_text bs -> pack_text_nul bs = bs ++ [0].
Proof.
  intros H. unfold pack_text_nul, pack_s.
  rewrite py_len_app, ascii_py_len by exact H.
  change (py_len [0]) with 1%nat.
  replace (length bs + 1)%nat with (length (bs ++ [0])) by (rewrite length_app; reflexivity).
  rewrite firstn_all, Nat.sub_diag, app_nil_r. reflexivity.
Qed.

(** ** Reading a buffer at a cursor *)

Section Reading.
Variable buf : list Z.

(** [l] lies in [buf] at offset [c], followed by [rest] up to the end. *)
Definition at_ (c : Z) (l rest : list Z) : Prop :=
  0 <= c <= end_bytes buf /\ skipn (Z.to_nat c) buf = l ++ rest.

Lemma at_end c l rest :
  at_ c l rest -> end_bytes buf = c + Z.of_nat (length l) + Z.of_nat (length rest).
Proof.
  intros [Hc Hs]. unfold end_bytes in *.
  pose proof (List.length_skipn (Z.to_nat c) buf) as L. rewrite Hs, length_app in L.
  lia.
Qed.

Lemma at_split c l1 l2 rest :
  at_ c (l1 ++ l2) rest -> at_ (c + Z.of_nat (length l1)) l2 rest.
Proof.
  intros H. pose proof (at_end _ _ _ H) as E. destruct H as [Hc Hs].
  rewrite length_app in E. split; [lia|].
  replace (Z.to_nat (c + Z.of_nat (length l1))) with (length l1 + Z.to_nat c)%nat by lia.
  rewrite <- skipn_skipn, Hs, <- app_assoc, skipn_app, skipn_all, Nat.sub_diag.
  reflexivity.
Qed.

Lemma at_assoc c l1 l2 rest : at_ c l1 (l2 ++ rest) <-> at_ c (l1 ++ l2) rest.
Proof. unfold at_. rewrite app_assoc. tauto. Qed.

Lemma at_get c l rest i :
  at_ c l rest -> 0 <= i < Z.of_nat (length l) -> py_get buf (c + i) = nth_error l (Z.to_nat i).
Proof.
  intros H Hi. pose proof (at_end _ _ _ H) as E. destruct H as [Hc Hs].
  unfold py_get. destruct (c + i <? 0) eqn:N; [lia|].
  destruct (c + i <? 0) eqn:N2; [lia|].
  replace (Z.to_nat (c + i)) with (Z.to_nat c + Z.to_nat i)%nat by lia.
  rewrite <- nth_error_skipn, Hs, nth_error_app1 by lia. reflexivity.
Qed.

Lemma unpack_from_at c l rest :
  at_ c l rest -> unpack_from buf (Z.of_nat (length l)) c = Ok l.
Proof.
  intros H. pose proof (at_end _ _ _ H) as E. destruct H as [Hc Hs].
  unfold unpack_from. destruct (c <? 0) eqn:N; [lia|]. rewrite N.
  destruct (end_bytes buf - c <? Z.of_nat (length l)) eqn:N2; [lia|].
  unfold slice. rewrite Hs, Nat2Z.id, firstn_app, firstn_all, Nat.sub_diag.
  change (firstn 0 rest) with (@nil Z). rewrite app_nil_r. reflexivity.
Qed.

Lemma read_data_c c b rest :
  at_ c [b] rest -> read_data buf "c" 1 c = Ok (PInt b, c + 1).
Proof.
  intros H. pose proof (at_end _ _ _ H) as E. simpl in E.
  unfold read_data.
  destruct (end_bytes buf <=? c) eqn:N1; [lia|].
  destruct (end_bytes buf - c <? 1) eqn:N2; [lia|]. simpl.
  pose proof (at_get c [b] rest 0 H) as G. rewrite Z.add_0_r in G.
  rewrite G by (simpl; lia). reflexivity.
Qed.

Lemma read_data_num fmt w sg c l rest :
  fmt_int_info fmt = Some (w, sg) -> Z.of_nat (length l) = w -> at_ c l rest ->
  read_data buf fmt w c = Ok (PInt (num_decode fmt l), c + w).
Proof.
  intros Hf Hl H. pose proof (at_end _ _ _ H) as E.
  assert (Hw : 0 < w).
  { unfold fmt_int_info in Hf.
    repeat match type of Hf with
           | context [if ?b then _ else _] => destruct b
           end; inversion Hf; lia. }
  assert (Hc : String.eqb fmt "c" = false).
  { destruct (String.eqb_spec fmt "c"); [subst; discriminate|reflexivity]. }
  assert (Hs : String.eqb fmt "s" = false).
  { destruct (String.eqb_spec fmt "s"); [subst; discriminate|reflexivity]. }
  unfold read_data.
  destruct (end_bytes buf <=? c) eqn:N1; [lia|].
  destruct (end_bytes buf - c <? w) eqn:N2; [lia|].
  rewrite Hc, Hs, Hf. rewrite <- Hl, (unpack_from_at _ _ _ H). reflexivity.
Qed.

Lemma scan_nul_at fuel c s rest :
  at_ c (s ++ [0]) rest -> ~ In 0 s -> (length s < fuel)%nat ->
  scan_nul buf fuel c = Ok (c + Z.of_nat (length s)).
Proof.
  revert fuel c. induction s as [|b s IH]; intros fuel c H Hn Hf.
  - destruct fuel as [|f]; [simpl in Hf; lia|]. simpl.
    pose proof (at_get c [0] rest 0 H) as G. rewrite Z.add_0_r in G.
    rewrite G by (simpl; lia). simpl. f_equal; lia.
  - destruct fuel as [|f]; [simpl in Hf; lia|]. simpl.
    pose proof (at_get c (b :: s ++ [0]) rest 0 H) as G. rewrite Z.add_0_r in G.
    rewrite G by (simpl; lia). simpl.
    assert (Hb : b <> 0) by (intros ->; apply Hn; left; reflexivity).
    destruct (Z.eqb_spec b 0); [contradiction|].
    rewrite (IH f (c + 1)).
    + f_equal. lia.
    + apply (at_split c [b] (s ++ [0]) rest) in H. exact H.
    + intros Hi; apply Hn; right; exact Hi.
    + simpl in Hf; lia.
Qed.

Lemma read_data_s c s rest :
  at_ c (s ++ [0]) rest -> ~ In 0 s -> utf8_decode s <> None ->
  read_data buf "s" 1 c = Ok (PStr s, c + Z.of_nat (length s) + 1).
Proof.
  intros H Hn Hu. pose proof (at_end _ _ _ H) as E. rewrite length_app in E. simpl in E.
  unfold read_data.
  destruct (end_bytes buf <=? c) eqn:N1; [lia|].
  destruct (end_bytes buf - c <? 1) eqn:N2; [lia|].
  rewrite (scan_nul_at _ c s rest H Hn) by lia. simpl.
  replace (c + Z.of_nat (length s) - c) with (Z.of_nat (length s)) by lia.
  destruct (end_bytes buf <? c + Z.of_nat (length s)) eqn:N3; [lia|].
  apply at_assoc in H.
  rewrite (unpack_from_at _ _ _ H).
  destruct (utf8_decode s); [reflexivity|congruence].
Qed.

Lemma read_data_s_ascii c s rest :
  at_ c (s ++ [0]) rest -> ascii_text s ->
  read_data buf "s" 1 c = Ok (PStr s, c + Z.of_nat (length s) + 1).
Proof.
  intros H Ha. apply (read_data_s c s rest H (ascii_text_no_nul _ Ha)).
  rewrite (ascii_utf8_decode _ Ha). discriminate.
Qed.

End Reading.

(** ** Packing and unpacking integers *)

Lemma le_encode_length n v : length (le_encode n v) = n.
Proof. revert v; induction n; intros v; simpl; [reflexivity|]. rewrite IHn. reflexivity. Qed.

Lemma le_decode_encode n v : le_decode (le_encode n v) = v mod 2 ^ (8 * Z.of_nat n).
Proof.
  revert v; induction n as [|n IH]; intros v.
  - simpl. rewrite Z.mod_1_r. reflexivity.
  - cbn [le_encode le_decode]. rewrite IH.
    replace (8 * Z.of_nat (S n)) with (8 + 8 * Z.of_nat n) by lia.
    rewrite Z.pow_add_r by lia. change (2 ^ 8) with 256.
    rewrite (Z.rem_mul_r v 256) by (try lia; apply Z.pow_pos_nonneg; lia).
    reflexivity.
Qed.

Lemma le_encode_bytes n v : Forall (fun b => 0 <= b < 256) (le_encode n v).
Proof.
  revert v; induction n; intros v; simpl; constructor; auto.
  apply Z.mod_pos_bound; lia.
Qed.

Lemma fmt_int_info_cases fmt w sg :
  fmt_int_info fmt = Some (w, sg) ->
  (w = 1 \/ w = 2 \/ w = 4 \/ w = 8) /\ (sg = true -> w = 2 \/ w = 4 \/ w = 8).
Proof.
  unfold fmt_int_info. intros H.
  repeat match type of H with
         | context [if ?b then _ else _] => destruct b
         end; inversion H; subst; split; intros; try lia; discriminate.
Qed.

Lemma struct_pack_decode fmt v bs :
  struct_pack fmt v = Ok bs ->
  exists w sg, fmt_int_info fmt = Some (w, sg) /\ Z.of_nat (length bs) = w /\
               num_decode fmt bs = v /\ Forall (fun b => 0 <= b < 256) bs.
Proof.
  unfold struct_pack, num_decode, in_fmt_range.
  destruct (fmt_int_info fmt) as [[w sg]|] eqn:F; [|discriminate].
  destruct (fmt_int_info_cases _ _ _ F) as [Hw Hs].
  destruct sg.
  - destruct ((- 2 ^ (8 * w - 1) <=? v) && (v <? 2 ^ (8 * w - 1))) eqn:R;
      [|discriminate].
    intros E; inversion E; subst bs. clear E.
    apply andb_true_iff in R as [R1 R2]. apply Z.leb_le in R1. apply Z.ltb_lt in R2.
    exists w, true. split; [reflexivity|]. split.
    { rewrite le_encode_length. lia. }
    split; [|apply le_encode_bytes].
    rewrite le_decode_encode, Z2Nat.id by lia. unfold to_signed.
    assert (P : 2 ^ (8 * w) = 2 * 2 ^ (8 * w - 1)).
    { rewrite <- Z.pow_succ_r by lia. f_equal. lia. }
    assert (Q : 0 < 2 ^ (8 * w - 1)) by (apply Z.pow_pos_nonneg; lia).
    destruct (Z_le_gt_dec 0 v).
    + rewrite Z.mod_small by lia.
      destruct (Z.ltb_spec v (2 ^ (8 * w - 1))); lia.
    + rewrite <- (Z.mod_add v 1 (2 ^ (8 * w))) by lia.
      rewrite Z.mod_small by lia.
      destruct (Z.ltb_spec (v + 1 * 2 ^ (8 * w)) (2 ^ (8 * w - 1))); lia.
  - destruct ((0 <=? v) && (v <? 2 ^ (8 * w))) eqn:R; [|discriminate].
    intros E; inversion E; subst bs. clear E.
    apply andb_true_iff in R as [R1 R2]. apply Z.leb_le in R1. apply Z.ltb_lt in R2.
    exists w, false. split; [reflexivity|]. split.
    { rewrite le_encode_length. lia. }
    split; [|apply le_encode_bytes].
    rewrite le_decode_encode, Z2Nat.id by lia. apply Z.mod_small. lia.
Qed.

(** The 4-byte signed integer at [off], as [read_data('i', 4)] decodes it. *)
Definition i32_at (buf : list Z) (off : Z) : Z := num_decode "i" (slice buf off 4).

Lemma read_int_at buf c l rest :
  at_ buf c l rest -> length l = 4%nat ->
  read_int buf c = Ok (num_decode "i" l, c + 4).
Proof.
  intros H Hl. unfold read_int, bind.
  rewrite (read_data_num buf "i" 4 true c l rest) by (try reflexivity; try rewrite Hl; auto).
  reflexivity.
Qed.

Lemma read_int_packed buf c v bs rest :
  struct_pack "i" v = Ok bs -> at_ buf c bs rest -> read_int buf c = Ok (v, c + 4).
Proof.
  intros P H. destruct (struct_pack_decode _ _ _ P) as (w & sg & F & L & D & _).
  simpl in F. inversion F; subst w sg.
  rewrite (read_int_at buf c bs rest H) by lia. rewrite D. reflexivity.
Qed.

Lemma i32_at_slice buf c l rest :
  at_ buf c l rest -> length l = 4%nat -> i32_at buf c = num_decode "i" l.
Proof.
  intros [Hc Hs] Hl. unfold i32_at, slice. rewrite Hs.
  change (Z.to_nat 4) with 4%nat. rewrite <- Hl, firstn_app, firstn_all, Nat.sub_diag.
  change (firstn 0 rest) with (@nil Z). rewrite app_nil_r. reflexivity.
Qed.

(** ** The integrity prescan *)

Ltac monad_unfold :=
  unfold bind, ret, raise, get_cursor, set_cursor, advance in *.

(** A block: at least the 8 header bytes, and its [block_size] field (bytes
    4 to 7) equal to its length. *)
Definition block_ok (b : list Z) : Prop :=
  (8 <= length b)%nat /\ i32_at b 4 = Z.of_nat (length b).

Lemma block_split (b : list Z) :
  (8 <= length b)%nat ->
  exists x y z, b = x ++ y ++ z /\ length x = 4%nat /\ length y = 4%nat.
Proof.
  intros H. exists (firstn 4 b), (firstn 4 (skipn 4 b)), (skipn 4 (skipn 4 b)).
  rewrite !firstn_skipn. split; [reflexivity|].
  rewrite !length_firstn, List.length_skipn. lia.
Qed.

Lemma at_app_full (pre l : list Z) :
  at_ (pre ++ l) (Z.of_nat (length pre)) l [].
Proof.
  unfold at_, end_bytes. rewrite length_app, app_nil_r. split; [lia|].
  rewrite Nat2Z.id, skipn_app, skipn_all, Nat.sub_diag. reflexivity.
Qed.

Lemma at_app_mid (pre l rest : list Z) :
  at_ (pre ++ l ++ rest) (Z.of_nat (length pre)) l rest.
Proof.
  unfold at_, end_bytes. rewrite !length_app. split; [lia|].
  rewrite Nat2Z.id, skipn_app, skipn_all, Nat.sub_diag. reflexivity.
Qed.

Lemma integrity_loop_blocks (blocks : list (list Z)) :
  forall (pre : list Z) (f : nat),
  Forall block_ok blocks -> (length blocks < f)%nat ->
  integrity_loop (pre ++ concat blocks) f (Z.of_nat (length pre)) (Z.of_nat (length pre))
  = Ok (end_bytes (pre ++ concat blocks), end_bytes (pre ++ concat blocks)).
Proof.
  induction blocks as [|b bs IH]; intros pre f Hok Hf.
  - destruct f as [|f]; [simpl in Hf; lia|]. simpl concat. rewrite app_nil_r.
    cbn [integrity_loop]. monad_unfold. unfold end_bytes.
    rewrite Z.ltb_irrefl. reflexivity.
  - inversion Hok as [|? ? [Hlen Hbs] Hok']; subst.
    destruct f as [|f]; [simpl in Hf; lia|].
    set (buf := pre ++ concat (b :: bs)).
    assert (E : end_bytes buf = Z.of_nat (length pre) + Z.of_nat (length b)
                                + Z.of_nat (length (concat bs))).
    { unfold buf, end_bytes. simpl. rewrite !length_app. lia. }
    destruct (block_split b Hlen) as (x & y & z & -> & Hx & Hy).
    cbn [integrity_loop]. monad_unfold.
    destruct (Z.of_nat (length pre) <? end_bytes buf) eqn:L.
    2:{ rewrite !length_app in E. apply Z.ltb_ge in L. lia. }
    assert (Hat : at_ buf (Z.of_nat (length pre) + 4) y (z ++ concat bs)).
    { pose proof (at_app_mid pre (x ++ y) (z ++ concat bs)) as A.
      apply (at_split _ _ x) in A. rewrite Hx in A.
      unfold buf. simpl concat. rewrite <- !app_assoc in *. exact A. }
    rewrite (read_int_at buf _ y (z ++ concat bs) Hat Hy).
    assert (Hv : num_decode "i" y = Z.of_nat (length (x ++ y ++ z))).
    { rewrite <- Hbs. symmetry. apply (i32_at_slice _ 4 y z); [|exact Hy].
      pose proof (at_app_mid x y z) as A. rewrite Hx in A. exact A. }
    rewrite Hv. unfold zero_negative_check, bytes_check. monad_unfold.
    rewrite !length_app in *.
    destruct (Z.eqb_spec (Z.of_nat (length x + (length y + length z))) 0); [lia|].
    destruct (Z.ltb_spec (Z.of_nat (length x + (length y + length z))) 0); [lia|].
    destruct (Z.ltb_spec (end_bytes buf)
               (Z.of_nat (length pre) + Z.of_nat (length x + (length y + length z))));
      [lia|].
    specialize (IH (pre ++ x ++ y ++ z) f Hok' ltac:(simpl in Hf; lia)).
    rewrite <- app_assoc in IH.
    replace (Z.of_nat (length pre) + 4 + 4 + Z.of_nat (length x + (length y + length z)) - 2 * 4)
      with (Z.of_nat (length (pre ++ x ++ y ++ z))) by (rewrite !length_app; lia).
    replace (Z.of_nat (length pre) + Z.of_nat (length x + (length y + length z)))
      with (Z.of_nat (length (pre ++ x ++ y ++ z))) by (rewrite !length_app; lia).
    unfold buf. simpl concat. rewrite <- !app_assoc in *. exact IH.
Qed.

(** [read_data('i', 4)] at a non-negative cursor either trips the
    cursor guard or reads four bytes. *)
Lemma read_int_cases buf c :
  0 <= c -> read_int buf c = Err CursorError \/ exists v, read_int buf c = Ok (v, c + 4).
Proof.
  intros Hc. unfold read_int, bind, read_data.
  destruct (end_bytes buf <=? c) eqn:N1; [left; reflexivity|].
  destruct (end_bytes buf - c <? 4) eqn:N2; [left; reflexivity|].
  cbn [String.eqb Ascii.eqb Bool.eqb fmt_int_info].
  unfold unpack_from. destruct (c <? 0) eqn:N3; [lia|]. rewrite N3.
  rewrite N2. right. eexists. reflexivity.
Qed.

(** The errors the prescan loop can raise. *)
Definition prescan_error (e : dmap_error) : Prop :=
  e = CursorError \/ e = ZeroByteError \/ e = NegativeByteError \/ e = MismatchByteError.

(** The loop keeps the cursor equal to the running total, and the total never
    passes the end: when it stops, both sit exactly at the end. *)
Lemma integrity_loop_inv buf :
  forall (f : nat) (t : Z), 0 <= t <= end_bytes buf ->
  (Z.to_nat (end_bytes buf - t) < f)%nat ->
  integrity_loop buf f t t = Ok (end_bytes buf, end_bytes buf) \/
  exists e, integrity_loop buf f t t = Err e /\ prescan_error e.
Proof.
  induction f as [|f IH]; intros t Ht Hf; [lia|].
  cbn [integrity_loop]. monad_unfold.
  destruct (Z.ltb_spec t (end_bytes buf)) as [Lt|Ge].
  2:{ left. replace t with (end_bytes buf) by lia. reflexivity. }
  destruct (read_int_cases buf (t + 4) ltac:(lia)) as [R|[v R]]; rewrite R.
  { right. exists CursorError. split; [reflexivity|left; reflexivity]. }
  unfold zero_negative_check, bytes_check. monad_unfold.
  destruct (Z.eqb_spec v 0).
  { right. eexists. split; [reflexivity|unfold prescan_error; tauto]. }
  destruct (Z.ltb_spec v 0).
  { right. eexists. split; [reflexivity|unfold prescan_error; tauto]. }
  destruct (Z.ltb_spec (end_bytes buf) (t + v)).
  { right. eexists. split; [reflexivity|unfold prescan_error; tauto]. }
  replace (t + 4 + 4 + v - 2 * 4) with (t + v) by lia.
  apply IH; lia.
Qed.

Lemma test_initial_data_integrity_cases buf :
  integrity_check_at buf 0 = Ok tt \/
  exists e, integrity_check_at buf 0 = Err e /\ prescan_error e.
Proof.
  unfold integrity_check_at, test_initial_data_integrity. monad_unfold.
  cbn [Z.eqb negb].
  assert (Hb : 0 <= end_bytes buf) by (unfold end_bytes; lia).
  destruct (integrity_loop_inv buf (S (length buf)) 0 ltac:(lia)
              ltac:(unfold end_bytes; lia)) as [L|[e [L He]]]; rewrite L.
  - rewrite Z.eqb_refl. left. reflexivity.
  - right. exists e. split; [reflexivity|exact He].
Qed.

(** ** A sample record: the scenario [{stid: int16 7, data: float32 [[1,2],[3,4]]}] *)

Definition stid_scalar : DmapScalar := mkScalar (ascii_bytes "stid") (PInt 7) SHORT "h".

(** the float32 bit patterns of 1.0, 2.0, 3.0 and 4.0 *)
Definition data_array : DmapArray :=
  mkArray (ascii_bytes "data")
    (NNum 4 [1065353216; 1073741824; 1077936128; 1082130432]) FLOAT "f" 2 [2; 2].

Definition sample_record : record :=
  [(ascii_bytes "stid", FScalar stid_scalar); (ascii_bytes "data", FArray data_array)].

Definition bytes_of (r : result (list Z)) : list Z :=
  match r with Ok bs => bs | Err _ => [] end.

Definition sample_block : list Z := bytes_of (dmap_record_to_bytes sample_record).

Definition two_record_stream : list Z := bytes_of (encode None [sample_record; sample_record]).

(** C5 (amended): the prescan fails with [CursorError] (CursorMismatch) when
    the cursor is not at offset 0; from offset 0 it succeeds on every
    concatenation of blocks whose [block_size] fields equal their lengths;
    and from offset 0 it either succeeds or fails inside its loop with
    [CursorError], [ZeroByteError], [NegativeByteError] or [MismatchByteError]
    (SizeMismatch): the completion test [total_block_size != dmap_end_bytes]
    never fires, since the cursor always equals the running total and the
    loop's byte check keeps that total within the buffer. *)
Theorem test_initial_data_integrity_spec :
  (forall (buf : list Z) (c : Z), c <> 0 -> integrity_check_at buf c = Err CursorError) /\
  (forall blocks : list (list Z),
      Forall block_ok blocks -> integrity_check_at (concat blocks) 0 = Ok tt) /\
  (forall buf : list Z,
      integrity_check_at buf 0 = Ok tt \/
      exists e, integrity_check_at buf 0 = Err e /\ prescan_error e).
Proof.
  split; [|split].
  - intros buf c Hc. unfold integrity_check_at, test_initial_data_integrity. monad_unfold.
    destruct (Z.eqb_spec c 0); [contradiction|]. reflexivity.
  - intros blocks Hok. unfold integrity_check_at, test_initial_data_integrity. monad_unfold.
    cbn [Z.eqb negb].
    pose proof (integrity_loop_blocks blocks [] (S (length (concat blocks))) Hok) as L.
    change (Z.of_nat (length (@nil Z))) with 0 in L. simpl app in L. rewrite L.
    2:{ clear L. induction Hok as [|b bs [Hb _] _ IH]; simpl; [lia|].
        rewrite length_app. lia. }
    rewrite Z.eqb_refl. reflexivity.
  - apply test_initial_data_integrity_cases.
Qed.

Lemma test_initial_data_integrity_spec_witness :
  (1 <> 0 /\ integrity_check_at [] 1 = Err CursorError) /\
  (Forall block_ok [sample_block; sample_block] /\
   integrity_check_at (concat [sample_block; sample_block]) 0 = Ok tt).
Proof.
  destruct test_initial_data_integrity_spec as [H1 [H2 _]].
  assert (Hb : Forall block_ok [sample_block; sample_block]).
  { repeat constructor; vm_compute; congruence. }
  split.
  - split; [lia|]. apply H1. lia.
  - split; [exact Hb|]. apply H2. exact Hb.
Defined.

(** C5 counterexample: the prescan accepts two concatenated encodings of the
    sample record; raising either record's [block_size] byte (58, at offsets
    4 and 62) by one makes it fail with [MismatchByteError] (SizeMismatch),
    not with the completion error (CorruptFile). *)
Lemma test_initial_data_integrity_corrupt_counterexample :
  nth_error two_record_stream 4 = Some 58 /\ nth_error two_record_stream 62 = Some 58 /\
  integrity_check_at two_record_stream 0 = Ok tt /\
  integrity_check_at (<[62%nat := 59]> two_record_stream) 0 = Err MismatchByteError /\
  integrity_check_at (<[4%nat := 59]> two_record_stream) 0 = Err MismatchByteError.
Proof. vm_compute. repeat split. Qed.

Lemma write_dmap_stream_keeps_instance_records_witness :
  (dmap_records (new_writer [sample_record]) <> [] /\
   write_dmap_stream (new_writer [sample_record]) [sample_record; sample_record] =
     write_dmap_stream (new_writer [sample_record]) []) /\
  (dmap_records (new_writer []) = [] /\
   write_dmap_stream (new_writer []) [sample_record] =
     write_dmap_stream (set_records (new_writer []) [sample_record]) []) /\
  ([sample_record] <> [] /\
   write_rawacf_stream [] (new_writer [sample_record; sample_record]) [sample_record] =
     write_rawacf_stream [] (set_records (new_writer [sample_record; sample_record])
                               [sample_record]) []).
Proof.
  destruct write_dmap_stream_keeps_instance_records as [H1 [H2 [H3 _]]].
  split; [|split].
  - split; [discriminate|]. apply H1. discriminate.
  - split; [reflexivity|]. apply H2. reflexivity.
  - split; [discriminate|]. apply H3. discriminate.
Defined.

(** ** The missing-field check *)

(** A group whose difference with the present fields is neither empty nor the
    whole group. *)
Definition partial_group (present : gset (list Z)) (g : file_struct) : Prop :=
  key_set g ∖ present <> ∅ /\ key_set g ∖ present <> key_set g.

Lemma group_test_iff (present : gset (list Z)) (g : file_struct) :
  (size (key_set g ∖ present) = 0 \/ size (key_set g ∖ present) = size (key_set g))%nat
  <-> ~ partial_group present g.
Proof.
  unfold partial_group. split.
  - intros [H|H] [H1 H2].
    + apply size_empty_iff in H. apply H1. apply leibniz_equiv. exact H.
    + apply H2. destruct (decide (key_set g ∖ present = key_set g)) as [E|E]; [exact E|].
      exfalso.
      assert (Hs : key_set g ∖ present ⊂ key_set g).
      { split; [set_solver|]. intros Hs. apply E. apply leibniz_equiv. set_solver. }
      apply subset_size in Hs. lia.
  - intros H. destruct (decide (key_set g ∖ present = ∅)) as [E|E].
    + left. rewrite E. apply size_empty.
    + right. destruct (decide (key_set g ∖ present = key_set g)) as [E2|E2].
      * rewrite E2. reflexivity.
      * exfalso. apply H. split; assumption.
Qed.

Lemma missing_fields_fold (present : gset (list Z)) (tables : list file_struct) :
  forall (acc : gset (list Z)) (x : list Z),
  x ∈ fold_left (fun missing g =>
               let diff_fields := dict_key_diff (key_set g) present in
               if decide (size diff_fields = 0 \/ size diff_fields = size (key_set g))%nat
               then missing else missing ∪ diff_fields) tables acc
  <-> x ∈ acc \/ exists g, In g tables /\ partial_group present g /\ x ∈ key_set g ∖ present.
Proof.
  induction tables as [|g gs IH]; intros acc x; simpl.
  - split; [tauto|]. intros [H|(g & [] & _)]. exact H.
  - rewrite IH. unfold dict_key_diff.
    destruct (decide _) as [D|D].
    + apply group_test_iff in D. split.
      * intros [H|(g' & Hin & Hp & Hx)]; [left; exact H|].
        right. exists g'. auto.
      * intros [H|(g' & [<-|Hin] & Hp & Hx)]; [left; exact H| contradiction |].
        right. exists g'. auto.
    + assert (Hp : partial_group present g).
      { destruct (decide (key_set g ∖ present <> ∅ /\ key_set g ∖ present <> key_set g))
          as [P|P]; [exact P|].
        exfalso. apply D. apply group_test_iff. exact P. }
      split.
      * intros [H|(g' & Hin & Hp' & Hx)].
        -- apply elem_of_union in H as [H|H]; [left; exact H|].
           right. exists g. auto.
        -- right. exists g'. auto.
      * intros [H|(g' & [<-|Hin] & Hp' & Hx)].
        -- left. apply elem_of_union. left. exact H.
        -- left. apply elem_of_union. right. exact Hx.
        -- right. exists g'. auto.
Qed.

Lemma dict_list2set_union (tables : list file_struct) :
  tables <> [] -> dict_list2set tables = Ok (⋃ (map key_set tables)).
Proof.
  intros Hne. destruct tables as [|g gs]; [congruence|]. unfold dict_list2set. f_equal.
  generalize (g :: gs). intros l. induction l as [|h l IH]; simpl; [reflexivity|].
  rewrite IH. reflexivity.
Qed.

(** C4 (amended): against a non-empty list of tables, with [present] the
    record's field names that some table knows, [missing_field_check] passes
    when no group is partial (its difference with [present] neither empty nor
    the whole group); when some group is partial it raises
    [SuperDARNFieldMissing] naming the union of the differences of all the
    partial groups, which is exactly that group's difference when it is the
    only partial one. *)
Theorem missing_field_check_spec (tables : list file_struct) (r : record) :
  tables <> [] ->
  let present := key_set r ∩ ⋃ (map key_set tables) in
  (Forall (fun g => ~ partial_group present g) tables ->
     missing_field_check tables r = Ok tt) /\
  (Exists (partial_group present) tables ->
     exists M, missing_field_check tables r = Err (SuperDARNFieldMissing M) /\
       forall x, x ∈ M <->
         exists g, In g tables /\ partial_group present g /\ x ∈ key_set g ∖ present) /\
  (forall g, In g tables -> partial_group present g ->
     Forall (fun g' => g' = g \/ ~ partial_group present g') tables ->
     missing_field_check tables r = Err (SuperDARNFieldMissing (key_set g ∖ present))).
Proof.
  intros Hne present. unfold missing_field_check. rewrite (dict_list2set_union _ Hne).
  change (key_set r ∩ ⋃ (map key_set tables)) with present.
  assert (HM : forall x, x ∈ missing_fields tables present <->
             exists g, In g tables /\ partial_group present g /\ x ∈ key_set g ∖ present).
  { intros x. unfold missing_fields. rewrite missing_fields_fold. set_solver. }
  set (M := missing_fields tables present) in *.
  assert (Part2 : Exists (partial_group present) tables ->
     (if decide (0 < size M)%nat then Err (SuperDARNFieldMissing M) else Ok tt)
     = Err (SuperDARNFieldMissing M)).
  { intros He. apply List.Exists_exists in He as (g & Hin & Hp).
    destruct (set_choose_L (key_set g ∖ present) (proj1 Hp)) as [x Hx].
    assert (HxM : x ∈ M) by (apply HM; exists g; split; [exact Hin|split; [exact Hp|exact Hx]]).
    destruct (decide (0 < size M)%nat) as [_|N]; [reflexivity|].
    exfalso. assert (Z0 : size M = 0%nat) by lia.
    apply size_empty_iff in Z0. set_solver. }
  split; [|split].
  - intros Hall.
    assert (E : M = ∅).
    { apply leibniz_equiv. intros x. split; [|set_solver].
      intros Hx. apply HM in Hx as (g & Hin & Hp & _).
      rewrite List.Forall_forall in Hall. exfalso. exact (Hall g Hin Hp). }
    rewrite E, size_empty. reflexivity.
  - intros He. exists M. split; [apply Part2; exact He | exact HM].
  - intros g Hin Hp Hall.
    rewrite Part2 by (apply List.Exists_exists; exists g; auto).
    do 2 f_equal. apply leibniz_equiv. intros x. rewrite HM. split.
    + intros (g' & Hin' & Hp' & Hx). rewrite List.Forall_forall in Hall.
      destruct (Hall g' Hin') as [->|N]; [exact Hx|contradiction].
    + intros Hx. exists g. auto.
Qed.

(** Two groups of fields: [{a, b}] and [{c, d}]. *)
Definition group_ab : file_struct := [(ascii_bytes "a", "h"%string); (ascii_bytes "b", "h"%string)].
Definition group_cd : file_struct := [(ascii_bytes "c", "h"%string); (ascii_bytes "d", "h"%string)].
Definition two_groups : list file_struct := [group_ab; group_cd].

(** A record with the given field names, each holding the sample scalar. *)
Definition named_record (names : list string) : record :=
  map (fun n => (ascii_bytes n, FScalar stid_scalar)) names.

Lemma missing_field_check_spec_witness :
  two_groups <> [] /\
  missing_field_check two_groups (named_record ["a"; "c"; "d"]%string) =
    Err (SuperDARNFieldMissing {[ ascii_bytes "b" ]}).
Proof.
  assert (Hne : two_groups <> []) by discriminate.
  split; [exact Hne|].
  destruct (missing_field_check_spec two_groups (named_record ["a"; "c"; "d"]%string) Hne)
    as [_ [_ H3]].
  replace ({[ ascii_bytes "b" ]} : gset (list Z)) with
    (key_set group_ab ∖ (key_set (named_record ["a"; "c"; "d"]%string)
                           ∩ ⋃ (map key_set two_groups)))
    by (vm_compute; reflexivity).
  apply H3.
  - left. reflexivity.
  - unfold partial_group. refine (bool_decide_unpack _ _). vm_compute. reflexivity.
  - constructor; [left; reflexivity|]. constructor; [|constructor].
    right. unfold partial_group. refine (bool_decide_unpack _ _). vm_compute. reflexivity.
Defined.

(** C4 counterexample: with the record [{a, c}] both groups are partial, and
    the error names [d] as well, a field outside the group [{a, b}] whose
    difference is [{b}]. *)
Lemma missing_field_check_union_counterexample :
  key_set group_ab ∖ (key_set (named_record ["a"; "c"]%string) ∩ ⋃ (map key_set two_groups))
    = {[ ascii_bytes "b" ]} /\
  missing_field_check two_groups (named_record ["a"; "c"]%string) =
    Err (SuperDARNFieldMissing ({[ ascii_bytes "b" ]} ∪ {[ ascii_bytes "d" ]})) /\
  ascii_bytes "d" ∉ key_set group_ab.
Proof.
  split; [vm_compute; reflexivity|]. split; [vm_compute; reflexivity|].
  refine (bool_decide_unpack _ _). vm_compute. reflexivity.
Qed.

(** ** Record decode: header checks and the closing cursor check *)

Lemma read_int_val buf c :
  0 <= c ->
  (read_int buf c = Err CursorError /\ end_bytes buf < c + 4) \/
  (read_int buf c = Ok (i32_at buf c, c + 4) /\ c + 4 <= end_bytes buf).
Proof.
  intros Hc. unfold read_int, bind, read_data.
  destruct (Z.leb_spec (end_bytes buf) c); [left; split; [reflexivity|lia]|].
  destruct (Z.ltb_spec (end_bytes buf - c) 4); [left; split; [reflexivity|lia]|].
  cbn [String.eqb Ascii.eqb Bool.eqb fmt_int_info].
  unfold unpack_from. destruct (c <? 0) eqn:N3; [lia|]. rewrite N3.
  destruct (Z.ltb_spec (end_bytes buf - c) 4); [lia|].
  right. split; reflexivity || lia.
Qed.

(** [read_record] with its reads of the three header integers done: the
    checks in the order of the source, then the fields, then the cursor
    check. *)
Lemma read_record_unfold buf c :
  0 <= c ->
  read_record buf c =
    let block_size := i32_at buf (c + 4) in
    let num_scalars := i32_at buf (c + 8) in
    let num_arrays := i32_at buf (c + 12) in
    if end_bytes buf <? c + 8 then Err CursorError
    else if end_bytes buf - c <? block_size then Err MismatchByteError
    else if block_size =? 0 then Err ZeroByteError
    else if block_size <? 0 then Err NegativeByteError
    else if end_bytes buf <? c + 16 then Err CursorError
    else if num_scalars =? 0 then Err ZeroByteError
    else if num_scalars <? 0 then Err NegativeByteError
    else if num_arrays =? 0 then Err ZeroByteError
    else if num_arrays <? 0 then Err NegativeByteError
    else if block_size <? num_scalars + num_arrays then Err MismatchByteError
    else match read_scalars buf (Z.to_nat num_scalars) [] (c + 16) with
         | Err e => Err e
         | Ok (r1, c1) =>
             match read_arrays buf (Z.to_nat num_arrays) block_size r1 c1 with
             | Err e => Err e
             | Ok (r, c2) => if c2 - c =? block_size then Ok (r, c2) else Err CursorError
             end
         end.
Proof.
  intros Hc. unfold read_record. monad_unfold. cbv zeta.
  destruct (read_int_val buf (c + 4) ltac:(lia)) as [[E L]|[E L]]; rewrite E.
  { destruct (Z.ltb_spec (end_bytes buf) (c + 8)); [reflexivity|lia]. }
  destruct (Z.ltb_spec (end_bytes buf) (c + 8)); [lia|].
  unfold bytes_check, zero_negative_check. monad_unfold.
  replace (end_bytes buf - (c + 4 + 4) + 2 * 4) with (end_bytes buf - c) by lia.
  destruct (end_bytes buf - c <? i32_at buf (c + 4)); [reflexivity|].
  destruct (i32_at buf (c + 4) =? 0); [reflexivity|].
  destruct (i32_at buf (c + 4) <? 0); [reflexivity|].
  replace (c + 4 + 4) with (c + 8) by lia.
  destruct (read_int_val buf (c + 8) ltac:(lia)) as [[E2 L2]|[E2 L2]]; rewrite E2.
  { destruct (Z.ltb_spec (end_bytes buf) (c + 16)); [reflexivity|lia]. }
  replace (c + 8 + 4) with (c + 12) by lia.
  destruct (read_int_val buf (c + 12) ltac:(lia)) as [[E3 L3]|[E3 L3]]; rewrite E3.
  { destruct (Z.ltb_spec (end_bytes buf) (c + 16)); [reflexivity|lia]. }
  destruct (Z.ltb_spec (end_bytes buf) (c + 16)); [lia|].
  replace (c + 12 + 4) with (c + 16) by lia.
  destruct (i32_at buf (c + 8) =? 0); [reflexivity|].
  destruct (i32_at buf (c + 8) <? 0); [reflexivity|].
  destruct (i32_at buf (c + 12) =? 0); [reflexivity|].
  destruct (i32_at buf (c + 12) <? 0); [reflexivity|].
  destruct (i32_at buf (c + 4) <? i32_at buf (c + 8) + i32_at buf (c + 12)); [reflexivity|].
  destruct (read_scalars buf (Z.to_nat (i32_at buf (c + 8))) [] (c + 16)) as [[r1 c1]|e];
    [|reflexivity].
  destruct (read_arrays buf (Z.to_nat (i32_at buf (c + 12))) (i32_at buf (c + 4)) r1 c1)
    as [[r c2]|e]; [|reflexivity].
  destruct (c2 - c =? i32_at buf (c + 4)); reflexivity.
Qed.

Ltac zbool :=
  repeat match goal with
         | H : (_ <? _) = true |- _ => apply Z.ltb_lt in H
         | H : (_ <? _) = false |- _ => apply Z.ltb_ge in H
         | H : (_ =? _) = true |- _ => apply Z.eqb_eq in H
         | H : (_ =? _) = false |- _ => apply Z.eqb_neq in H
         end.

(** Settles the Boolean tests of the goal that [lia] decides from the context. *)
Ltac settle_ifs :=
  repeat match goal with
         | |- context [if ?b then _ else _] =>
             lazymatch b with
             | true => fail
             | false => fail
             | _ => first
                 [ replace b with false
                     by (symmetry; first [apply Z.ltb_ge | apply Z.eqb_neq]; lia)
                 | replace b with true
                     by (symmetry; first [apply Z.ltb_lt | apply Z.eqb_eq]; lia) ]
             end; cbn iota
         end.

(** C8: a decoded record has [num_scalars > 0], [num_arrays > 0] and
    [num_scalars + num_arrays <= block_size]; once a valid [block_size] is
    read, a zero count raises [ZeroByteError] and a negative one
    [NegativeByteError] (ZeroOrNegativeLength), checking [num_scalars] first,
    and counts whose sum exceeds [block_size] raise [MismatchByteError]
    (SizeMismatch).  So a record with no scalar or no array never decodes. *)
Theorem read_record_count_checks (buf : list Z) (c : Z) :
  0 <= c ->
  let block_size := i32_at buf (c + 4) in
  let num_scalars := i32_at buf (c + 8) in
  let num_arrays := i32_at buf (c + 12) in
  (forall r c', read_record buf c = Ok (r, c') ->
     0 < num_scalars /\ 0 < num_arrays /\ num_scalars + num_arrays <= block_size) /\
  (c + 16 <= end_bytes buf -> 0 < block_size <= end_bytes buf - c ->
     (num_scalars = 0 -> read_record buf c = Err ZeroByteError) /\
     (num_scalars < 0 -> read_record buf c = Err NegativeByteError) /\
     (0 < num_scalars -> num_arrays = 0 -> read_record buf c = Err ZeroByteError) /\
     (0 < num_scalars -> num_arrays < 0 -> read_record buf c = Err NegativeByteError) /\
     (0 < num_scalars -> 0 < num_arrays -> block_size < num_scalars + num_arrays ->
        read_record buf c = Err MismatchByteError)).
Proof.
  intros Hc bs ns na. split.
  - intros r c' H. rewrite read_record_unfold in H by exact Hc. cbv zeta in H.
    repeat match type of H with
           | context [if ?b then Err _ else _] => destruct b eqn:?; [discriminate|]
           end.
    zbool. subst bs ns na. lia.
  - intros H16 Hbs. rewrite !(read_record_unfold buf c Hc). cbv zeta.
    subst bs ns na.
    repeat split; intros; settle_ifs; reflexivity.
Qed.

(** C9: a record [read_record] returns ends exactly [block_size] bytes after
    its start; when the header checks pass and the scalars and arrays decode
    but end elsewhere, [read_record] raises [CursorError] (CursorMismatch)
    and returns no record. *)
Theorem read_record_cursor_check (buf : list Z) (c : Z) :
  0 <= c ->
  let block_size := i32_at buf (c + 4) in
  let num_scalars := i32_at buf (c + 8) in
  let num_arrays := i32_at buf (c + 12) in
  (forall r c', read_record buf c = Ok (r, c') -> c' - c = block_size) /\
  (forall r1 c1 r c2,
     c + 16 <= end_bytes buf -> 0 < block_size <= end_bytes buf - c ->
     0 < num_scalars -> 0 < num_arrays -> num_scalars + num_arrays <= block_size ->
     read_scalars buf (Z.to_nat num_scalars) [] (c + 16) = Ok (r1, c1) ->
     read_arrays buf (Z.to_nat num_arrays) block_size r1 c1 = Ok (r, c2) ->
     c2 - c <> block_size ->
     read_record buf c = Err CursorError).
Proof.
  intros Hc bs ns na. split.
  - intros r c' H. rewrite read_record_unfold in H by exact Hc. cbv zeta in H.
    repeat match type of H with
           | context [if ?b then Err _ else _] => destruct b eqn:?; [discriminate|]
           end.
    destruct (read_scalars buf _ [] (c + 16)) as [[r1 c1]|e]; [|discriminate].
    destruct (read_arrays buf _ _ r1 c1) as [[r2 c2]|e]; [|discriminate].
    destruct (Z.eqb_spec (c2 - c) (i32_at buf (c + 4))) as [E|E]; [|discriminate].
    inversion H; subst. exact E.
  - intros r1 c1 r c2 H16 Hbs Hns Hna Hsum Hs Ha Hne.
    rewrite (read_record_unfold buf c Hc). cbv zeta. subst bs ns na.
    settle_ifs. rewrite Hs, Ha. settle_ifs. reflexivity.
Qed.

(** The sample record's block with [num_scalars] set to 0. *)
Definition zero_scalars_block : list Z := <[8%nat := 0]> sample_block.

(** The sample record's block declaring one byte more than its fields use,
    followed by that byte. *)
Definition padded_block : list Z := <[4%nat := 59]> sample_block ++ [0].

Lemma read_record_count_checks_witness :
  i32_at zero_scalars_block 8 = 0 /\ read_record zero_scalars_block 0 = Err ZeroByteError.
Proof.
  assert (N : i32_at zero_scalars_block (0 + 8) = 0) by (vm_compute; reflexivity).
  split; [exact N|].
  assert (E : end_bytes zero_scalars_block = 58) by (vm_compute; reflexivity).
  assert (B : i32_at zero_scalars_block (0 + 4) = 58) by (vm_compute; reflexivity).
  destruct (read_record_count_checks zero_scalars_block 0 ltac:(lia)) as [_ H].
  destruct (H ltac:(lia) ltac:(lia)) as [H0 _].
  apply H0. exact N.
Defined.

Lemma read_record_cursor_check_witness :
  i32_at padded_block 4 = 59 /\ read_record padded_block 0 = Err CursorError.
Proof.
  assert (B : i32_at padded_block (0 + 4) = 59) by (vm_compute; reflexivity).
  split; [exact B|].
  assert (E : end_bytes padded_block = 59) by (vm_compute; reflexivity).
  assert (S1 : i32_at padded_block (0 + 8) = 1) by (vm_compute; reflexivity).
  assert (S2 : i32_at padded_block (0 + 12) = 1) by (vm_compute; reflexivity).
  destruct (read_record_cursor_check padded_block 0 ltac:(lia)) as [_ H].
  apply (H [(ascii_bytes "stid", FScalar stid_scalar)] 24 sample_record 58);
    try lia; vm_compute; reflexivity.
Defined.

(** ** Scalars of the reserved type DMAP *)

(** [read_data('', n)], the read of a DMAP value: never a value. *)
Lemma read_data_dmap_fmt buf w c :
  read_data buf "" w c =
    if end_bytes buf <=? c then Err CursorError
    else if end_bytes buf - c <? w then Err CursorError
    else match unpack_from buf 0 c with
         | Ok _ => Err PyIndexError
         | Err e => Err e
         end.
Proof. reflexivity. Qed.

Lemma read_data_dmap_fmt_not_ok buf w c v c' : read_data buf "" w c <> Ok (v, c').
Proof.
  rewrite read_data_dmap_fmt.
  destruct (end_bytes buf <=? c); [discriminate|].
  destruct (end_bytes buf - c <? w); [discriminate|].
  destruct (unpack_from buf 0 c); discriminate.
Qed.

(** C7 (as the code behaves): once the name and a type byte 0 (DMAP) are
    read, [read_scalar] goes on to [read_data('', 0)], since its test
    [scalar_type_fmt != DMAP] compares a [str] with an [int]; that read
    raises [CursorError] at the end of the buffer and [IndexError] anywhere
    else, never [DmapDataError] (InvalidScalarType).  No decoded scalar has
    the type DMAP. *)
Theorem read_scalar_dmap_type (buf : list Z) :
  (forall c name c1, 0 <= c1 ->
     read_name buf c = Ok (name, c1) -> read_byte buf c1 = Ok (DMAP, c1 + 1) ->
     read_scalar buf c =
       Err (if end_bytes buf <=? c1 + 1 then CursorError else PyIndexError)) /\
  (forall c s c', read_scalar buf c = Ok (s, c') -> s_data_type s <> DMAP).
Proof.
  split.
  - intros c name c1 Hc1 Hn Hb. unfold read_scalar. monad_unfold. rewrite Hn, Hb.
    replace (check_data_type DMAP (c1 + 1)) with (Ok (tt, c1 + 1) : result (unit * Z))
      by reflexivity.
    replace (dmap_type DMAP) with (Some (""%string, 0)) by reflexivity.
    cbn [py_str_ne_int]. rewrite read_data_dmap_fmt.
    destruct (end_bytes buf <=? c1 + 1) eqn:E; [reflexivity|].
    apply Z.leb_gt in E.
    destruct (Z.ltb_spec (end_bytes buf - (c1 + 1)) 0); [lia|].
    unfold unpack_from. destruct (Z.ltb_spec (c1 + 1) 0); [lia|].
    destruct (Z.ltb_spec (c1 + 1) 0); [lia|].
    destruct (Z.ltb_spec (end_bytes buf - (c1 + 1)) 0); [lia|]. reflexivity.
  - intros c s c' H. unfold read_scalar in H. monad_unfold.
    destruct (read_name buf c) as [[name c1]|e]; [|discriminate].
    destruct (read_byte buf c1) as [[t c2]|e]; [|discriminate].
    unfold check_data_type in H. monad_unfold.
    destruct (dmap_type t) as [[fmt w]|] eqn:T; [|discriminate].
    unfold py_str_ne_int in H.
    destruct (read_data buf fmt w c2) as [[v c3]|e] eqn:R; [|discriminate].
    inversion H; subst s. cbn [s_data_type]. intros ->.
    cbn in T. inversion T; subst fmt w.
    exact (read_data_dmap_fmt_not_ok buf 0 c2 v c3 R).
Qed.

(** the bytes of a scalar named ["x"] of type 0 (DMAP), then a byte 7 *)
Definition dmap_typed_scalar : list Z := [120; 0; 0; 7].

Lemma read_scalar_dmap_type_witness :
  read_name dmap_typed_scalar 0 = Ok ([120], 2) /\
  read_byte dmap_typed_scalar 2 = Ok (DMAP, 3) /\
  read_scalar dmap_typed_scalar 0 = Err PyIndexError.
Proof.
  assert (Hn : read_name dmap_typed_scalar 0 = Ok ([120], 2)) by (vm_compute; reflexivity).
  assert (Hb : read_byte dmap_typed_scalar 2 = Ok (DMAP, 2 + 1)) by (vm_compute; reflexivity).
  split; [exact Hn|]. split; [exact Hb|].
  rewrite (proj1 (read_scalar_dmap_type dmap_typed_scalar) 0 [120] 2 ltac:(lia) Hn Hb).
  reflexivity.
Defined.

(** a one-record stream whose only scalar is [dmap_typed_scalar] *)
Definition dmap_typed_stream : list Z :=
  bytes_of (pack_ints [encoding_identifier; 20; 1; 1]) ++ dmap_typed_scalar.

(** Decoding that stream raises [IndexError], not [DmapDataError]. *)
Lemma dmap_read_stream_dmap_scalar :
  dmap_read_stream dmap_typed_stream = Err PyIndexError.
Proof. vm_compute. reflexivity. Qed.

(** ** Arrays with a dimension of size 0 *)

Definition zero_dim_record (name : string) : record :=
  [(ascii_bytes "stid", FScalar stid_scalar);
   (ascii_bytes name, FArray (mkArray (ascii_bytes name) (NNum 4 []) FLOAT "f" 1 [0]))].

(** the table of the fields of [zero_dim_record name] *)
Definition zero_dim_table (name : string) : file_struct :=
  [(ascii_bytes "stid", "h"%string); (ascii_bytes name, "f"%string)].

(** The fields' names and formats: all the product writers' checks look at. *)
Definition names_and_fmts (r : record) : list (list Z * string) :=
  map (fun kv => (fst kv, field_fmt (snd kv))) r.

Lemma read_ints_length buf n : forall c l c',
  read_ints buf n c = Ok (l, c') -> length l = n.
Proof.
  induction n as [|n IH]; intros c l c' H; cbn [read_ints] in H; monad_unfold.
  - inversion H. reflexivity.
  - destruct (read_int buf c) as [[x c1]|e]; [|discriminate].
    destruct (read_ints buf n c1) as [[xs c2]|e] eqn:E; [|discriminate].
    inversion H; subst. simpl. f_equal. exact (IH _ _ _ E).
Qed.

Lemma nonpositive_dim_false (l : list Z) :
  nonpositive_dim l = false <-> Forall (fun x => 0 < x) l.
Proof.
  unfold nonpositive_dim. induction l as [|x l IH]; simpl.
  - split; [constructor|reflexivity].
  - rewrite orb_false_iff, IH, Z.leb_gt. split.
    + intros [H1 H2]. constructor; assumption.
    + intros H. inversion H. split; assumption.
Qed.

Lemma nonpositive_dim_rev (l : list Z) : nonpositive_dim (rev l) = nonpositive_dim l.
Proof.
  unfold nonpositive_dim. apply eq_true_iff_eq. rewrite !existsb_exists.
  split; intros (x & Hx & Hp); exists x; split; try exact Hp;
    [apply in_rev | apply in_rev; rewrite rev_involutive]; exact Hx.
Qed.

Lemma key_set_names_and_fmts (r : record) :
  key_set r = list_to_set (map fst (names_and_fmts r)).
Proof. unfold key_set, names_and_fmts. rewrite map_map. reflexivity. Qed.

(** The product writers' checks see only the fields' names and formats. *)
Lemma record_checks_names_and_fmts (tables : list file_struct) (r1 r2 : record) :
  names_and_fmts r1 = names_and_fmts r2 -> record_checks tables r1 = record_checks tables r2.
Proof.
  intros E.
  assert (K : key_set r1 = key_set r2) by (rewrite !key_set_names_and_fmts, E; reflexivity).
  assert (T : incorrect_types_check tables r1 = incorrect_types_check tables r2).
  { unfold incorrect_types_check.
    assert (G : forall (l1 l2 : record) acc, names_and_fmts l1 = names_and_fmts l2 ->
        fold_left (fun acc kv =>
                  match acc with
                  | Err e => Err e
                  | Ok bad =>
                      match complete_dict_lookup tables (fst kv) with
                      | None => Err PyKeyError
                      | Some t => Ok (bad || negb (String.eqb (field_fmt (snd kv)) t))
                      end
                  end) l1 acc =
        fold_left (fun acc kv =>
                  match acc with
                  | Err e => Err e
                  | Ok bad =>
                      match complete_dict_lookup tables (fst kv) with
                      | None => Err PyKeyError
                      | Some t => Ok (bad || negb (String.eqb (field_fmt (snd kv)) t))
                      end
                  end) l2 acc).
    { induction l1 as [|[k1 f1] l1 IH]; intros [|[k2 f2] l2] acc H; try discriminate; [reflexivity|].
      simpl in H. injection H as Hk Hf Hl. subst k2. simpl. rewrite Hf. apply IH. exact Hl. }
    rewrite (G r1 r2 (Ok false) E). reflexivity. }
  unfold record_checks, extra_field_check, missing_field_check. rewrite K, T. reflexivity.
Qed.

(** Walks a decoder run [H : run = Ok _] down its successful path. *)
Ltac ok_path H :=
  repeat (match type of H with
          | context [match ?x with Ok _ => _ | Err _ => _ end] =>
              destruct x as [[? ?]|?] eqn:?
          | context [if ?b then _ else _] => destruct b eqn:?
          end; try discriminate H).


(** ** Encoding then decoding *)

Lemma dmap_type_cases t fmt w :
  dmap_type t = Some (fmt, w) ->
  0 <= t < 128 /\
  ((fmt = "s"%string /\ w = 1) \/ (fmt = "c"%string /\ w = 1) \/ (fmt = ""%string /\ w = 0) \/
   exists sg, fmt_int_info fmt = Some (w, sg)).
Proof.
  unfold dmap_type, DMAP_DATA_TYPES. cbn [assoc_Z].
  repeat match goal with
         | |- context [if ?t =? ?k then _ else _] =>
             destruct (Z.eqb_spec t k) as [->|]; [intros H; inversion H; subst;
               split; [unfold DMAP, CHAR, SHORT, INT, FLOAT, DOUBLE, STRING, LONG,
                         UCHAR, USHORT, UINT, ULONG; lia|];
               first [ left; split; reflexivity
                     | right; left; split; reflexivity
                     | right; right; left; split; reflexivity
                     | right; right; right; eexists; reflexivity ]|]
         end.
  discriminate.
Qed.

Lemma type_byte_small t : 0 <= t < 128 -> type_byte t = Ok [t].
Proof.
  intros Ht. unfold type_byte, utf8_chr.
  destruct (Z.ltb_spec t 0); [lia|]. destruct (Z.ltb_spec 1114111 t); [lia|]. simpl.
  destruct (Z.ltb_spec t 128); [reflexivity|lia].
Qed.

(** The scalars the encoder writes and the decoder reads back: an ASCII
    name with no NUL byte, a registered type whose format agrees with the
    type, and a value in the format's range (NUL-free ASCII text for ["s"],
    an ASCII code for ["c"]).  The writer cuts a name or a text that is not
    ASCII to its number of characters. *)
Definition wf_scalar (s : DmapScalar) : Prop :=
  ascii_text (s_name s) /\
  exists w, dmap_type (s_data_type s) = Some (s_data_type_fmt s, w) /\
  ((s_data_type_fmt s = "s"%string /\ exists bs, s_value s = PStr bs /\ ascii_text bs) \/
   (s_data_type_fmt s = "c"%string /\ exists v, s_value s = PInt v /\ 0 <= v < 128) \/
   (exists sg v, fmt_int_info (s_data_type_fmt s) = Some (w, sg) /\ s_value s = PInt v /\
                 in_fmt_range (s_data_type_fmt s) v = true)).

Lemma read_scalar_encoded buf c s b rest :
  wf_scalar s -> dmap_scalar_to_bytes s = Ok b -> at_ buf c b rest ->
  read_scalar buf c = Ok (s, c + Z.of_nat (length b)).
Proof.
  destruct s as [name value t fmt]. cbn [s_name s_value s_data_type s_data_type_fmt].
  intros [Hn (w & Ht & Hk)] Hb Hat.
  cbn [s_name s_value s_data_type s_data_type_fmt] in Hn, Ht, Hk.
  destruct (dmap_type_cases _ _ _ Ht) as [Ht128 _].
  unfold dmap_scalar_to_bytes in Hb. cbn [s_name s_value s_data_type s_data_type_fmt] in Hb.
  rewrite (type_byte_small t Ht128), (ascii_pack_text_nul _ Hn) in Hb.
  assert (Hname : forall payload, b = (name ++ [0]) ++ [t] ++ payload ->
            read_name buf c = Ok (name, c + Z.of_nat (length name) + 1) /\
            read_byte buf (c + Z.of_nat (length name) + 1) =
              Ok (t, c + Z.of_nat (length name) + 1 + 1) /\
            at_ buf (c + Z.of_nat (length name) + 1 + 1) payload rest).
  { intros payload ->.
    pose proof Hat as Hat1. apply at_assoc in Hat1.
    pose proof (read_data_s_ascii buf c name _ Hat1 Hn) as R.
    pose proof (at_split buf c (name ++ [0]) ([t] ++ payload) rest Hat) as Hat2.
    rewrite length_app in Hat2. change (length [0]) with 1%nat in Hat2.
    replace (c + Z.of_nat (length name + 1)) with (c + Z.of_nat (length name) + 1) in Hat2
      by lia.
    split; [unfold read_name, bind; rewrite R; reflexivity|].
    split.
    - pose proof Hat2 as Hat3. apply at_assoc in Hat3. unfold read_byte, bind.
      rewrite (read_data_c buf _ t _ Hat3). reflexivity.
    - apply (at_split _ _ [t]) in Hat2. exact Hat2. }
  unfold read_scalar. monad_unfold.
  destruct Hk as [[Hf (bs & -> & Hbs)] | [[Hf (v & -> & Hv)] | (sg & v & Hf & -> & Hv)]].
  - subst fmt. rewrite String.eqb_refl in Hb. cbn [value_text] in Hb.
    rewrite (ascii_pack_text_nul _ Hbs) in Hb. injection Hb as Hb'.
    destruct (Hname (bs ++ [0]) ltac:(rewrite <- Hb'; reflexivity)) as (R1 & R2 & R3).
    rewrite R1, R2. unfold check_data_type. rewrite Ht. monad_unfold.
    destruct (dmap_type_cases _ _ _ Ht) as [_ [[_ ->]|[[E _]|[[E _]|[sg E]]]]]; try (cbn in E; discriminate).
    cbn [py_str_ne_int]. rewrite (read_data_s_ascii buf _ bs rest R3 Hbs).
    f_equal. f_equal. rewrite <- Hb'. rewrite !length_app. cbn [length]. rewrite ?length_app. cbn [length]. lia.
  - subst fmt. cbn in Hb. unfold utf8_chr in Hb.
    destruct (Z.ltb_spec v 0); [lia|]. destruct (Z.ltb_spec 1114111 v); [lia|].
    destruct (Z.ltb_spec v 128); [|lia]. cbn in Hb.
    injection Hb as Hb'.
    destruct (Hname [v] ltac:(rewrite <- Hb'; reflexivity)) as (R1 & R2 & R3).
    rewrite R1, R2. unfold check_data_type. rewrite Ht. monad_unfold.
    destruct (dmap_type_cases _ _ _ Ht) as [_ [[E _]|[[_ ->]|[[E _]|[sg E]]]]]; try (cbn in E; discriminate).
    cbn [py_str_ne_int]. rewrite (read_data_c buf _ v rest R3).
    f_equal. f_equal. rewrite <- Hb'. rewrite !length_app. cbn [length]. rewrite ?length_app. cbn [length]. lia.
  - assert (Hs : String.eqb fmt "s" = false).
    { destruct (String.eqb_spec fmt "s"); [subst; discriminate|reflexivity]. }
    assert (Hc : String.eqb fmt "c" = false).
    { destruct (String.eqb_spec fmt "c"); [subst; discriminate|reflexivity]. }
    rewrite Hs, Hc in Hb.
    destruct (struct_pack fmt v) as [p|e] eqn:P; [|discriminate].
    injection Hb as Hb'.
    destruct (struct_pack_decode _ _ _ P) as (w' & sg' & F & L & D & _).
    rewrite Hf in F. injection F as <- <-.
    destruct (Hname p ltac:(rewrite <- Hb'; reflexivity)) as (R1 & R2 & R3).
    rewrite R1, R2. unfold check_data_type. rewrite Ht. monad_unfold.
    cbn [py_str_ne_int]. rewrite (read_data_num buf fmt w sg _ p rest Hf L R3), D.
    f_equal. f_equal. rewrite <- Hb'. rewrite !length_app. cbn [length]. rewrite ?length_app. cbn [length]. lia.
Qed.

Lemma fold_mul_acc (l : list Z) : forall a, fold_left Z.mul l a = a * fold_left Z.mul l 1.
Proof.
  induction l as [|x l IH]; intros a; simpl; [lia|].
  rewrite (IH (a * x)), (IH (1 * x)). lia.
Qed.

Lemma prod_cons (x : Z) (l : list Z) :
  fold_left Z.mul (x :: l) 1 = x * fold_left Z.mul l 1.
Proof. simpl. rewrite fold_mul_acc. lia. Qed.

Lemma prod_pos (l : list Z) : Forall (fun x => 0 < x) l -> 1 <= fold_left Z.mul l 1.
Proof.
  induction 1 as [|x l Hx _ IH]; [simpl; lia|]. rewrite prod_cons. nia.
Qed.

Lemma prod_ge_elem (l : list Z) (x : Z) :
  Forall (fun x => 0 < x) l -> In x l -> x <= fold_left Z.mul l 1.
Proof.
  induction 1 as [|y l Hy Hl IH]; [intros []|]. intros [->|Hin]; rewrite prod_cons.
  - pose proof (prod_pos l Hl). nia.
  - specialize (IH Hin). pose proof (prod_pos l Hl). nia.
Qed.

Lemma prod_rev (l : list Z) : fold_left Z.mul (rev l) 1 = fold_left Z.mul l 1.
Proof.
  induction l as [|x l IH]; [reflexivity|]. simpl rev.
  rewrite fold_left_app, IH, prod_cons. simpl. lia.
Qed.

Lemma pack_ints_read (l : list Z) :
  forall sb buf c rest, pack_ints l = Ok sb -> at_ buf c sb rest ->
  read_ints buf (length l) c = Ok (l, c + 4 * Z.of_nat (length l)) /\
  length sb = (4 * length l)%nat.
Proof.
  induction l as [|x l IH]; intros sb buf c rest P H.
  - inversion P; subst. cbn [read_ints length]. monad_unfold. split; [f_equal; f_equal; lia|reflexivity].
  - cbn [pack_ints] in P.
    destruct (struct_pack "i" x) as [b|e] eqn:Px; [|discriminate].
    destruct (pack_ints l) as [bs|e]; [|discriminate].
    inversion P; subst sb. clear P.
    destruct (struct_pack_decode _ _ _ Px) as (w & sg & F & L & _ & _).
    cbn in F. injection F as <- <-.
    pose proof H as H1. apply at_assoc in H1.
    pose proof (at_split _ _ _ _ _ H) as H2.
    destruct (IH bs buf _ rest eq_refl H2) as [R Lb].
    cbn [read_ints length]. monad_unfold.
    rewrite (read_int_packed buf c x b _ Px H1).
    replace (c + 4) with (c + Z.of_nat (length b)) by lia. rewrite R.
    split; [f_equal; f_equal; lia|]. rewrite length_app. lia.
Qed.

Lemma chunks_encoded (w : nat) (cells rest : list Z) :
  chunks w (length cells) (concat (map (le_encode w) cells) ++ rest) =
  map (le_encode w) cells.
Proof.
  induction cells as [|v cells IH]; [reflexivity|]. cbn [length chunks map concat].
  rewrite <- app_assoc.
  pose proof (take_app_length (le_encode w v) (concat (map (le_encode w) cells) ++ rest)) as T.
  pose proof (drop_app_length (le_encode w v) (concat (map (le_encode w) cells) ++ rest)) as D.
  rewrite le_encode_length in T, D. rewrite T, D, IH. reflexivity.
Qed.

Lemma num_decode_le_encode fmt w sg v :
  fmt_int_info fmt = Some (w, sg) -> in_fmt_range fmt v = true ->
  num_decode fmt (le_encode (Z.to_nat w) v) = v.
Proof.
  intros F R.
  assert (P : struct_pack fmt v = Ok (le_encode (Z.to_nat w) v))
    by (unfold struct_pack; rewrite F, R; reflexivity).
  destruct (struct_pack_decode _ _ _ P) as (_ & _ & _ & _ & D & _). exact D.
Qed.

Lemma length_concat_le_encode (w : nat) (cells : list Z) :
  length (concat (map (le_encode w) cells)) = (length cells * w)%nat.
Proof.
  induction cells as [|v cells IH]; [reflexivity|]. cbn [map concat length].
  rewrite length_app, le_encode_length, IH. lia.
Qed.

Lemma read_numerical_array_encoded buf c fmt w sg cells rest :
  fmt_int_info fmt = Some (w, sg) ->
  Forall (fun v => in_fmt_range fmt v = true) cells ->
  at_ buf c (concat (map (le_encode (Z.to_nat w)) cells)) rest ->
  read_numerical_array buf fmt (Z.of_nat (length cells)) w c =
    Ok (NNum w cells, c + Z.of_nat (length cells) * w).
Proof.
  intros F Hr H. pose proof (at_end _ _ _ _ H) as E.
  rewrite length_concat_le_encode in E.
  destruct (fmt_int_info_cases _ _ _ F) as [Hw _].
  destruct H as [Hc Hs].
  unfold read_numerical_array, frombuffer.
  destruct (Z.ltb_spec c 0); [lia|]. destruct (Z.ltb_spec (end_bytes buf) c); [lia|].
  cbn [orb]. destruct (Z.ltb_spec (Z.of_nat (length cells)) 0); [lia|].
  destruct (Z.ltb_spec (end_bytes buf - c) (Z.of_nat (length cells) * w)); [lia|].
  rewrite Hs, Nat2Z.id, chunks_encoded, map_map.
  assert (Em : map (fun x => num_decode fmt (le_encode (Z.to_nat w) x)) cells = cells).
  { clear -Hr F. induction Hr as [|v cells Hv _ IH]; [reflexivity|]. cbn [map].
    rewrite IH, (num_decode_le_encode _ _ _ _ F Hv). reflexivity. }
  rewrite Em. reflexivity.
Qed.

(** The first two fields of an encoded scalar or array: the NUL-terminated
    name and the type byte. *)
Lemma read_name_byte_at buf c name t payload rest :
  ascii_text name -> at_ buf c ((name ++ [0]) ++ [t] ++ payload) rest ->
  read_name buf c = Ok (name, c + Z.of_nat (length name) + 1) /\
  read_byte buf (c + Z.of_nat (length name) + 1) =
    Ok (t, c + Z.of_nat (length name) + 1 + 1) /\
  at_ buf (c + Z.of_nat (length name) + 1 + 1) payload rest.
Proof.
  intros Hn Hat.
  pose proof Hat as Hat1. apply at_assoc in Hat1.
  pose proof (read_data_s_ascii buf c name _ Hat1 Hn) as R.
  pose proof (at_split buf c (name ++ [0]) ([t] ++ payload) rest Hat) as Hat2.
  rewrite length_app in Hat2. change (length [0]) with 1%nat in Hat2.
  replace (c + Z.of_nat (length name + 1)) with (c + Z.of_nat (length name) + 1) in Hat2
    by lia.
  split; [unfold read_name, bind; rewrite R; reflexivity|].
  split.
  - pose proof Hat2 as Hat3. apply at_assoc in Hat3. unfold read_byte, bind.
    rewrite (read_data_c buf _ t _ Hat3). reflexivity.
  - apply (at_split _ _ [t]) in Hat2. exact Hat2.
Qed.

(** The arrays the encoder writes and the decoder reads back: an ASCII name
    with no NUL byte, a registered numeric type whose format agrees with the type,
    cells of the format's width and range, and a non-empty shape of positive
    dimensions whose product is the number of cells and whose length is the
    dimension count. *)
Definition wf_array (a : DmapArray) : Prop :=
  ascii_text (a_name a) /\
  exists w sg cells,
    dmap_type (a_data_type a) = Some (a_data_type_fmt a, w) /\
    fmt_int_info (a_data_type_fmt a) = Some (w, sg) /\
    a_value a = NNum w cells /\
    Forall (fun v => in_fmt_range (a_data_type_fmt a) v = true) cells /\
    a_dimension a = Z.of_nat (length (a_shape a)) /\ a_shape a <> [] /\
    Forall (fun x => 0 < x) (a_shape a) /\
    fold_left Z.mul (a_shape a) 1 = Z.of_nat (length cells).

(** The array as the decoder returns it: the shape reversed. *)
Definition rev_shape (a : DmapArray) : DmapArray :=
  mkArray (a_name a) (a_value a) (a_data_type a) (a_data_type_fmt a)
    (a_dimension a) (rev (a_shape a)).

Lemma check_dims_below shape rs c :
  Forall (fun x => x < rs) shape -> check_dims shape rs c = Ok (tt, c).
Proof.
  induction 1 as [|x l Hx _ IH]; [reflexivity|]. cbn [check_dims].
  destruct (Z.leb_spec rs x); [lia|]. exact IH.
Qed.

Lemma read_array_encoded buf rs c a b rest :
  wf_array a -> dmap_array_to_bytes a = Ok b -> at_ buf c b rest ->
  Z.of_nat (length b) <= rs ->
  read_array buf rs c = Ok (rev_shape a, c + Z.of_nat (length b)).
Proof.
  destruct a as [name value t fmt dim shape]. unfold wf_array, rev_shape.
  cbn [a_name a_value a_data_type a_data_type_fmt a_dimension a_shape].
  intros [Hn (w & sg & cells & Ht & Hf & -> & Hr & -> & Hne & Hpos & Hprod)] Hb Hat Hrs.
  cbn [a_name a_value a_data_type a_data_type_fmt a_dimension a_shape] in *.
  destruct (dmap_type_cases _ _ _ Ht) as [Ht128 _].
  destruct (fmt_int_info_cases _ _ _ Hf) as [Hw _].
  unfold dmap_array_to_bytes in Hb.
  cbn [a_name a_value a_data_type a_data_type_fmt a_dimension a_shape] in Hb.
  rewrite (type_byte_small t Ht128), (ascii_pack_text_nul _ Hn) in Hb.
  destruct (struct_pack "i" (Z.of_nat (length shape))) as [db|e] eqn:Pd; [|discriminate].
  destruct (pack_ints shape) as [sb|e] eqn:Ps; [|discriminate].
  injection Hb as <-.
  cbn [tostring] in Hat |- *.
  destruct (read_name_byte_at _ _ _ _ _ _ Hn Hat) as (R1 & R2 & R3).
  set (c2 := c + Z.of_nat (length name) + 1 + 1) in *.
  pose proof R3 as R3'. apply at_assoc in R3'.
  pose proof (read_int_packed _ _ _ _ _ Pd R3') as R4.
  destruct (struct_pack_decode _ _ _ Pd) as (wd & sgd & Fd & Ld & _ & _).
  cbn in Fd. injection Fd as <- <-.
  pose proof (at_split _ _ _ _ _ R3) as R5. rewrite Ld in R5.
  pose proof R5 as R5'. apply at_assoc in R5'.
  destruct (pack_ints_read _ _ _ _ _ Ps R5') as [R6 Ls].
  pose proof (at_split _ _ _ _ _ R5) as R7. rewrite Ls in R7.
  set (ts := concat (map (le_encode (Z.to_nat w)) cells)) in *.
  assert (Lts : length ts = (length cells * Z.to_nat w)%nat)
    by apply length_concat_le_encode.
  assert (Hlen : Z.of_nat (length ((name ++ [0]) ++ t :: db ++ sb ++ ts)) =
                 Z.of_nat (length name) + 1 + 1 + 4 + 4 * Z.of_nat (length shape)
                 + Z.of_nat (length cells) * w).
  { rewrite !length_app. cbn [length]. rewrite !length_app, Ls, Lts.
    rewrite <- Ld. nia. }
  rewrite Hlen in Hrs |- *.
  pose proof (prod_pos shape Hpos) as Hp1.
  assert (Hdims : Forall (fun x => x < rs) (rev shape)).
  { apply List.Forall_forall. intros x Hx. apply in_rev in Hx.
    pose proof (prod_ge_elem shape x Hpos Hx). nia. }
  assert (Hnp : nonpositive_dim (rev shape) = false).
  { rewrite nonpositive_dim_rev. apply nonpositive_dim_false. exact Hpos. }
  assert (Hfs : String.eqb fmt "s" || String.eqb fmt "c" = false).
  { destruct (String.eqb_spec fmt "s") as [->|]; [discriminate|].
    destruct (String.eqb_spec fmt "c") as [->|]; [discriminate|]. reflexivity. }
  assert (Hdm : (t =? DMAP) = false).
  { destruct (Z.eqb_spec t DMAP) as [->|]; [|reflexivity].
    cbn in Ht. injection Ht as <- _. discriminate. }
  unfold read_array. monad_unfold. rewrite R1, R2.
  unfold check_data_type. rewrite Ht. monad_unfold.
  fold c2. rewrite R4.
  unfold bytes_check, zero_negative_check. monad_unfold.
  assert (Hl0 : (0 < length shape)%nat) by (destruct shape; [congruence|cbn; lia]).
  settle_ifs. rewrite Nat2Z.id. rewrite R6.
  rewrite length_rev. rewrite Z.eqb_refl. cbn [negb]. rewrite Hnp. cbn [andb].
  rewrite (check_dims_below _ _ _ Hdims).
  rewrite prod_rev, Hprod. settle_ifs. rewrite Hfs. try rewrite Hdm.
  replace (c2 + 4 + Z.of_nat (4 * length shape))
    with (c2 + 4 + 4 * Z.of_nat (length shape)) in R7 by lia.
  rewrite (read_numerical_array_encoded _ _ _ _ _ _ _ Hf Hr R7).
  f_equal. f_equal. lia.
Qed.

Lemma prod_zero (l : list Z) : In 0 l -> fold_left Z.mul l 1 = 0.
Proof.
  induction l as [|x l IH]; [intros []|]. intros [->|H]; rewrite prod_cons; [lia|].
  rewrite (IH H). lia.
Qed.

(** The numeric arrays named ["slist"] that have a dimension of size 0 (so no
    cell), with every dimension in [0, record_size): the encoder writes them
    and the decoder reads them back, shape reversed. *)
Definition slist_zero_array (record_size : Z) (a : DmapArray) : Prop :=
  a_name a = slist_name /\
  exists w sg,
    dmap_type (a_data_type a) = Some (a_data_type_fmt a, w) /\
    fmt_int_info (a_data_type_fmt a) = Some (w, sg) /\
    a_value a = NNum w [] /\
    a_dimension a = Z.of_nat (length (a_shape a)) /\
    In 0 (a_shape a) /\
    Forall (fun x => 0 <= x < record_size) (a_shape a).

Lemma slist_name_ascii : ascii_text slist_name.
Proof. apply ascii_textb_ok. vm_compute. reflexivity. Qed.

Lemma read_array_encoded_slist buf rs c a b rest :
  slist_zero_array rs a -> dmap_array_to_bytes a = Ok b -> at_ buf c b rest ->
  Z.of_nat (length b) <= rs ->
  read_array buf rs c = Ok (rev_shape a, c + Z.of_nat (length b)).
Proof.
  destruct a as [name value t fmt dim shape]. unfold slist_zero_array, rev_shape.
  cbn [a_name a_value a_data_type a_data_type_fmt a_dimension a_shape].
  intros [Hnm (w & sg & Ht & Hf & -> & -> & H0 & Hdims0)] Hb Hat Hrs.
  assert (Hn : ascii_text name) by (rewrite Hnm; exact slist_name_ascii).
  destruct (dmap_type_cases _ _ _ Ht) as [Ht128 _].
  destruct (fmt_int_info_cases _ _ _ Hf) as [Hw _].
  unfold dmap_array_to_bytes in Hb.
  cbn [a_name a_value a_data_type a_data_type_fmt a_dimension a_shape] in Hb.
  rewrite (type_byte_small t Ht128), (ascii_pack_text_nul _ Hn) in Hb.
  destruct (struct_pack "i" (Z.of_nat (length shape))) as [db|e] eqn:Pd; [|discriminate].
  destruct (pack_ints shape) as [sb|e] eqn:Ps; [|discriminate].
  injection Hb as <-.
  cbn [tostring] in Hat |- *.
  destruct (read_name_byte_at _ _ _ _ _ _ Hn Hat) as (R1 & R2 & R3).
  set (c2 := c + Z.of_nat (length name) + 1 + 1) in *.
  pose proof R3 as R3'. apply at_assoc in R3'.
  pose proof (read_int_packed _ _ _ _ _ Pd R3') as R4.
  destruct (struct_pack_decode _ _ _ Pd) as (wd & sgd & Fd & Ld & _ & _).
  cbn in Fd. injection Fd as <- <-.
  pose proof (at_split _ _ _ _ _ R3) as R5. rewrite Ld in R5.
  pose proof R5 as R5'. apply at_assoc in R5'.
  destruct (pack_ints_read _ _ _ _ _ Ps R5') as [R6 Ls].
  pose proof (at_split _ _ _ _ _ R5) as R7. rewrite Ls in R7.
  change (concat (map (le_encode (Z.to_nat w)) [])) with (@nil Z) in R7 |- *.
  assert (Hlen : Z.of_nat (length ((name ++ [0]) ++ t :: db ++ sb ++ [])) =
                 Z.of_nat (length name) + 1 + 1 + 4 + 4 * Z.of_nat (length shape)).
  { rewrite !length_app. cbn [length]. rewrite !length_app, Ls. cbn [length].
    rewrite <- Ld. lia. }
  rewrite Hlen in Hrs |- *.
  assert (Hdims : Forall (fun x => x < rs) (rev shape)).
  { apply List.Forall_forall. intros x Hx. apply in_rev in Hx.
    rewrite List.Forall_forall in Hdims0. specialize (Hdims0 x Hx). lia. }
  assert (Hfs : String.eqb fmt "s" || String.eqb fmt "c" = false).
  { destruct (String.eqb_spec fmt "s") as [->|]; [discriminate|].
    destruct (String.eqb_spec fmt "c") as [->|]; [discriminate|]. reflexivity. }
  assert (Hdm : (t =? DMAP) = false).
  { destruct (Z.eqb_spec t DMAP) as [->|]; [|reflexivity].
    cbn in Ht. injection Ht as <- _. discriminate. }
  assert (Hsl : negb (bool_decide (name = slist_name)) = false)
    by (rewrite bool_decide_eq_true_2 by exact Hnm; reflexivity).
  unfold read_array. monad_unfold. rewrite R1, R2.
  unfold check_data_type. rewrite Ht. monad_unfold.
  fold c2. rewrite R4.
  unfold bytes_check, zero_negative_check. monad_unfold.
  assert (Hl0 : (0 < length shape)%nat) by (destruct shape; [contradiction|cbn; lia]).
  settle_ifs. rewrite Nat2Z.id. rewrite R6.
  rewrite length_rev. rewrite Z.eqb_refl. cbn [negb]. rewrite Hsl, andb_false_r.
  rewrite (check_dims_below _ _ _ Hdims).
  rewrite prod_rev, (prod_zero _ H0). settle_ifs. rewrite Hfs. try rewrite Hdm.
  replace (c2 + 4 + Z.of_nat (4 * length shape))
    with (c2 + 4 + 4 * Z.of_nat (length shape)) in R7 by lia.
  pose proof (read_numerical_array_encoded _ _ _ _ _ [] _ Hf (Forall_nil_2 _) R7) as RN.
  cbn [length] in RN. change (Z.of_nat 0) with 0 in RN. rewrite RN.
  f_equal. f_equal. lia.
Qed.

(** ** Arrays with a dimension of size 0, decoded *)

(** C3 (amended): a decoded array whose name is not ["slist"] has only
    positive dimensions: once its name, type, dimension count and dimensions
    are read, a dimension [<= 0] makes [read_array] raise.  Every ["slist"]
    array with a dimension of size 0 (and its dimensions below the record
    size) that the encoder writes decodes, shape reversed.  The encode-time
    checks of the product writers see only the fields' names and formats,
    never an array's shape. *)
Theorem read_array_nonpositive_dims :
  (forall buf record_size c a c', read_array buf record_size c = Ok (a, c') ->
     a_name a = slist_name \/ Forall (fun x => 0 < x) (a_shape a)) /\
  (forall buf record_size c name c1 t c2 fmt w dim c3 shape0 c4,
     read_name buf c = Ok (name, c1) -> read_byte buf c1 = Ok (t, c2) ->
     dmap_type t = Some (fmt, w) -> read_int buf c2 = Ok (dim, c3) ->
     0 < dim <= record_size -> read_ints buf (Z.to_nat dim) c3 = Ok (shape0, c4) ->
     Exists (fun x => x <= 0) shape0 -> name <> slist_name ->
     exists e, read_array buf record_size c = Err e) /\
  (forall buf record_size c a b rest,
     slist_zero_array record_size a -> dmap_array_to_bytes a = Ok b -> at_ buf c b rest ->
     Z.of_nat (length b) <= record_size ->
     read_array buf record_size c = Ok (rev_shape a, c + Z.of_nat (length b))) /\
  (forall tables r1 r2, names_and_fmts r1 = names_and_fmts r2 ->
     record_checks tables r1 = record_checks tables r2).
Proof.
  split; [|split; [|split]].
  - intros buf rs c a c' H. unfold read_array in H. monad_unfold.
    unfold check_data_type, bytes_check, zero_negative_check in H. monad_unfold.
    destruct (read_name buf c) as [[name c1]|e]; [|discriminate].
    destruct (read_byte buf c1) as [[t c2]|e]; [|discriminate].
    destruct (dmap_type t) as [[fmt w]|]; [|discriminate].
    destruct (read_int buf c2) as [[dim c3]|e]; [|discriminate].
    destruct (rs <? dim); [discriminate|].
    destruct (dim =? 0); [discriminate|].
    destruct (dim <? 0); [discriminate|].
    destruct (read_ints buf (Z.to_nat dim) c3) as [[shape0 c4]|e]; [|discriminate].
    destruct (negb (Z.of_nat (length (rev shape0)) =? dim)); [discriminate|].
    destruct (nonpositive_dim (rev shape0) && negb (bool_decide (name = slist_name)))
      eqn:NP; [discriminate|].
    ok_path H; inversion H; subst; cbn [a_name a_shape];
      (apply andb_false_iff in NP as [NP|NP];
       [right; apply nonpositive_dim_false; exact NP
       |left; apply negb_false_iff, bool_decide_eq_true in NP; exact NP]).
  - intros buf rs c name c1 t c2 fmt w dim c3 shape0 c4 Hn Hb Ht Hd Hdim Hs Hx Hne.
    unfold read_array. monad_unfold. rewrite Hn, Hb.
    unfold check_data_type. rewrite Ht. monad_unfold. rewrite Hd.
    unfold bytes_check, zero_negative_check. monad_unfold.
    settle_ifs. rewrite Hs.
    rewrite length_rev, (read_ints_length _ _ _ _ _ Hs), Z2Nat.id by lia.
    rewrite Z.eqb_refl. cbn [negb].
    replace (nonpositive_dim (rev shape0)) with true.
    2:{ rewrite nonpositive_dim_rev. symmetry. unfold nonpositive_dim.
        apply existsb_exists. apply List.Exists_exists in Hx as (x & Hin & Hle).
        exists x. split; [exact Hin|]. apply Z.leb_le. exact Hle. }
    replace (bool_decide (name = slist_name)) with false.
    2:{ symmetry. apply bool_decide_eq_false. exact Hne. }
    eexists. reflexivity.
  - exact read_array_encoded_slist.
  - exact record_checks_names_and_fmts.
Qed.

(** [zero_dim_record "foo"] written by the checked writer over its table *)
Definition zero_dim_stream : list Z :=
  bytes_of (encode (Some [zero_dim_table "foo"]) [zero_dim_record "foo"]).

(** an ["slist"] float array of shape [[0]], and its encoding *)
Definition slist_zero : DmapArray := mkArray slist_name (NNum 4 []) FLOAT "f" 1 [0].

Definition slist_zero_bytes : list Z := bytes_of (dmap_array_to_bytes slist_zero).

Lemma read_array_nonpositive_dims_witness :
  Exists (fun x => x <= 0) [0] /\ (exists e, read_array zero_dim_stream 37 24 = Err e) /\
  read_array slist_zero_bytes 100 0 = Ok (rev_shape slist_zero, 15).
Proof.
  assert (Hx : Exists (fun x => x <= 0) [0]) by (constructor; lia).
  split; [exact Hx|].
  destruct read_array_nonpositive_dims as [_ [H [H3 _]]]. split.
  - apply (H zero_dim_stream 37 24 (ascii_bytes "foo") 28 FLOAT 29 "f"%string 4 1 33 [0] 37);
      try (vm_compute; reflexivity); try lia; [exact Hx|].
    intros E. vm_compute in E. discriminate.
  - assert (E : dmap_array_to_bytes slist_zero = Ok slist_zero_bytes)
      by (vm_compute; reflexivity).
    pose proof (at_app_full [] slist_zero_bytes) as A. cbn [app length] in A.
    change (Z.of_nat 0) with 0 in A.
    assert (W : slist_zero_array 100 slist_zero).
    { split; [reflexivity|]. exists 4, false.
      split; [reflexivity|]. split; [reflexivity|]. split; [reflexivity|].
      split; [reflexivity|]. split; [left; reflexivity|]. repeat constructor; lia. }
    exact (H3 slist_zero_bytes 100 0 slist_zero slist_zero_bytes [] W E A
             ltac:(vm_compute; discriminate)).
Defined.

(** C3 counterexample: the checked writer accepts the array ["foo"] of shape
    [[0]] and writes it; decoding the written bytes fails. *)
Lemma zero_dim_encode_counterexample :
  record_checks [zero_dim_table "foo"] (zero_dim_record "foo") = Ok tt /\
  encode (Some [zero_dim_table "foo"]) [zero_dim_record "foo"] = Ok zero_dim_stream /\
  zero_dim_stream <> [] /\
  exists e, dmap_read_stream zero_dim_stream = Err e.
Proof. vm_compute. repeat split; try discriminate. eexists. reflexivity. Qed.

(** ** Encoding then decoding records *)

Definition scalar_field (s : DmapScalar) : list Z * field := (s_name s, FScalar s).
Definition array_field (a : DmapArray) : list Z * field := (a_name a, FArray a).

(** A record as the decoder rebuilds it from its encoding. *)
Definition rev_shapes (r : record) : record :=
  map (fun '(k, f) => (k, match f with
                          | FArray a => FArray (rev_shape a)
                          | FScalar s => FScalar s
                          end)) r.

Lemma od_set_fresh k v (r : record) :
  ~ In k (map fst r) -> od_set k v r = r ++ [(k, v)].
Proof.
  induction r as [|[k' v'] r IH]; intros Hk; [reflexivity|]. cbn [od_set].
  destruct (decide (k = k')) as [->|Hne]; [exfalso; apply Hk; left; reflexivity|].
  rewrite IH; [reflexivity|]. intros Hin. apply Hk. right. exact Hin.
Qed.

Lemma fields_to_bytes_app (r1 r2 : record) b n m :
  fields_to_bytes (r1 ++ r2) = Ok (b, n, m) ->
  exists b1 n1 m1 b2 n2 m2,
    fields_to_bytes r1 = Ok (b1, n1, m1) /\ fields_to_bytes r2 = Ok (b2, n2, m2) /\
    b = b1 ++ b2 /\ n = n1 + n2 /\ m = m1 + m2.
Proof.
  revert b n m. induction r1 as [|[k f] r1 IH]; intros b n m H.
  - exists [], 0, 0, b, n, m. repeat split; try reflexivity; try lia. exact H.
  - cbn [app fields_to_bytes] in H |- *. destruct f as [s|a].
    + destruct (dmap_scalar_to_bytes s) as [b0|e]; [|discriminate].
      destruct (fields_to_bytes (r1 ++ r2)) as [[[bs ns] na]|e] eqn:E; [|discriminate].
      injection H as <- <- <-.
      destruct (IH _ _ _ eq_refl) as (b1 & n1 & m1 & b2 & n2 & m2 & -> & -> & -> & -> & ->).
      exists (b0 ++ b1), (n1 + 1), m1, b2, n2, m2.
      repeat split; try lia. rewrite app_assoc. reflexivity.
    + destruct (dmap_array_to_bytes a) as [b0|e]; [|discriminate].
      destruct (fields_to_bytes (r1 ++ r2)) as [[[bs ns] na]|e] eqn:E; [|discriminate].
      injection H as <- <- <-.
      destruct (IH _ _ _ eq_refl) as (b1 & n1 & m1 & b2 & n2 & m2 & -> & -> & -> & -> & ->).
      exists (b0 ++ b1), n1, (m1 + 1), b2, n2, m2.
      repeat split; try lia. rewrite app_assoc. reflexivity.
Qed.

Lemma scalar_bytes_nonempty s b : dmap_scalar_to_bytes s = Ok b -> (1 <= length b)%nat.
Proof.
  unfold dmap_scalar_to_bytes. cbv zeta. destruct (type_byte (s_data_type s)); [|discriminate].
  match goal with |- match ?d with _ => _ end = _ -> _ => destruct d end; [|discriminate].
  intros H. injection H as <-. rewrite !length_app, pack_text_nul_length. lia.
Qed.

Lemma array_bytes_nonempty a b : dmap_array_to_bytes a = Ok b -> (1 <= length b)%nat.
Proof.
  unfold dmap_array_to_bytes. destruct (type_byte (a_data_type a)); [|discriminate].
  destruct (struct_pack "i" (a_dimension a)); [|destruct (pack_ints (a_shape a)); discriminate].
  destruct (pack_ints (a_shape a)); [|discriminate].
  intros H. injection H as <-. rewrite !length_app, pack_text_nul_length. lia.
Qed.

Lemma fields_to_bytes_counts (r : record) : forall b n m,
  fields_to_bytes r = Ok (b, n, m) -> 0 <= n /\ 0 <= m /\ n + m <= Z.of_nat (length b).
Proof.
  induction r as [|[k [s|a]] r IH]; intros b n m H; cbn [fields_to_bytes] in H.
  - injection H as <- <- <-. cbn. lia.
  - destruct (dmap_scalar_to_bytes s) as [b0|e] eqn:E0; [|discriminate].
    destruct (fields_to_bytes r) as [[[bs ns] na]|e]; [|discriminate].
    injection H as <- <- <-. pose proof (scalar_bytes_nonempty _ _ E0).
    destruct (IH _ _ _ eq_refl). rewrite length_app. lia.
  - destruct (dmap_array_to_bytes a) as [b0|e] eqn:E0; [|discriminate].
    destruct (fields_to_bytes r) as [[[bs ns] na]|e]; [|discriminate].
    injection H as <- <- <-. pose proof (array_bytes_nonempty _ _ E0).
    destruct (IH _ _ _ eq_refl). rewrite length_app. lia.
Qed.

Lemma read_scalars_encoded buf (ss : list DmapScalar) : forall r c b n m rest,
  Forall wf_scalar ss -> NoDup (map s_name ss) ->
  Forall (fun s => ~ In (s_name s) (map fst r)) ss ->
  fields_to_bytes (map scalar_field ss) = Ok (b, n, m) -> at_ buf c b rest ->
  n = Z.of_nat (length ss) /\ m = 0 /\
  read_scalars buf (length ss) r c = Ok (r ++ map scalar_field ss, c + Z.of_nat (length b)).
Proof.
  induction ss as [|s ss IH]; intros r c b n m rest Hwf Hnd Hfr F H.
  - cbn in F. injection F as <- <- <-. cbn. monad_unfold. rewrite app_nil_r.
    repeat split; f_equal; f_equal; lia.
  - cbn [map fields_to_bytes scalar_field] in F.
    destruct (dmap_scalar_to_bytes s) as [b0|e] eqn:E0; [|discriminate].
    destruct (fields_to_bytes (map scalar_field ss)) as [[[bs ns] na]|e] eqn:E1;
      [|discriminate].
    injection F as <- <- <-.
    inversion Hwf as [|? ? Ws Wss]; subst. inversion Hnd as [|? ? Hni Hnd']; subst.
    inversion Hfr as [|? ? Fs Fss]; subst.
    pose proof H as H1. apply at_assoc in H1.
    pose proof (at_split _ _ _ _ _ H) as H2.
    assert (Hfr' : Forall (fun s' => ~ In (s_name s') (map fst (r ++ [scalar_field s]))) ss).
    { apply List.Forall_forall. intros s' Hs'. rewrite map_app. cbn.
      rewrite in_app_iff. intros [Hin|[Heq|[]]].
      - exact (proj1 (List.Forall_forall _ _) Fss s' Hs' Hin).
      - apply Hni. rewrite Heq. apply list_elem_of_In, in_map. exact Hs'. }
    destruct (IH _ _ _ _ _ _ Wss Hnd' Hfr' eq_refl H2) as (-> & -> & R).
    split; [cbn [length]; lia|]. split; [reflexivity|].
    cbn [length read_scalars]. monad_unfold.
    rewrite (read_scalar_encoded _ _ _ _ _ Ws E0 H1), od_set_fresh by exact Fs.
    change (s_name s, FScalar s) with (scalar_field s).
    rewrite R, <- app_assoc, length_app. cbn [app map]. f_equal. f_equal. lia.
Qed.

Lemma read_arrays_encoded buf rs (aa : list DmapArray) : forall r c b n m rest,
  Forall wf_array aa -> NoDup (map a_name aa) ->
  Forall (fun a => ~ In (a_name a) (map fst r)) aa ->
  fields_to_bytes (map array_field aa) = Ok (b, n, m) -> at_ buf c b rest ->
  Z.of_nat (length b) <= rs ->
  n = 0 /\ m = Z.of_nat (length aa) /\
  read_arrays buf (length aa) rs r c =
    Ok (r ++ map (fun a => array_field (rev_shape a)) aa, c + Z.of_nat (length b)).
Proof.
  induction aa as [|a aa IH]; intros r c b n m rest Hwf Hnd Hfr F H Hrs.
  - cbn in F. injection F as <- <- <-. cbn. monad_unfold. rewrite app_nil_r.
    repeat split; f_equal; f_equal; lia.
  - cbn [map fields_to_bytes array_field] in F.
    destruct (dmap_array_to_bytes a) as [b0|e] eqn:E0; [|discriminate].
    destruct (fields_to_bytes (map array_field aa)) as [[[bs ns] na]|e] eqn:E1;
      [|discriminate].
    injection F as <- <- <-.
    inversion Hwf as [|? ? Wa Waa]; subst. inversion Hnd as [|? ? Hni Hnd']; subst.
    inversion Hfr as [|? ? Fa Faa]; subst.
    pose proof H as H1. apply at_assoc in H1.
    pose proof (at_split _ _ _ _ _ H) as H2.
    rewrite length_app in Hrs.
    assert (Hfr' : Forall (fun a' => ~ In (a_name a') (map fst
                     (r ++ [array_field (rev_shape a)]))) aa).
    { apply List.Forall_forall. intros a' Ha'. rewrite map_app. cbn.
      rewrite in_app_iff. intros [Hin|[Heq|[]]].
      - exact (proj1 (List.Forall_forall _ _) Faa a' Ha' Hin).
      - apply Hni. rewrite Heq. apply list_elem_of_In, in_map. exact Ha'. }
    destruct (IH _ _ bs _ _ _ Waa Hnd' Hfr' eq_refl H2 ltac:(lia)) as (-> & -> & R).
    split; [reflexivity|]. split; [cbn [length]; lia|].
    cbn [length read_arrays]. monad_unfold.
    rewrite (read_array_encoded buf rs c a b0 _ Wa E0 H1 ltac:(lia)).
    cbn [rev_shape a_name]. rewrite od_set_fresh by exact Fa.
    change (a_name a, FArray (rev_shape a)) with (array_field (rev_shape a)).
    rewrite R, <- app_assoc, length_app. cbn [app map]. f_equal. f_equal. lia.
Qed.

(** The records the decoder reads back: at least one scalar, then at least
    one array (the decoder reads all the scalars first), all well formed, under
    pairwise distinct names, each field keyed by its own name. *)
Definition wf_record (r : record) : Prop :=
  exists ss aa, r = map scalar_field ss ++ map array_field aa /\
    ss <> [] /\ aa <> [] /\ Forall wf_scalar ss /\ Forall wf_array aa /\
    NoDup (map s_name ss ++ map a_name aa).

Lemma pack_ints4 a b c d h :
  pack_ints [a; b; c; d] = Ok h ->
  exists h1 h2 h3 h4, h = h1 ++ h2 ++ h3 ++ h4 /\
    struct_pack "i" a = Ok h1 /\ struct_pack "i" b = Ok h2 /\
    struct_pack "i" c = Ok h3 /\ struct_pack "i" d = Ok h4.
Proof.
  cbn [pack_ints].
  destruct (struct_pack "i" a) as [h1|e]; [|discriminate].
  destruct (struct_pack "i" b) as [h2|e]; [|discriminate].
  destruct (struct_pack "i" c) as [h3|e]; [|discriminate].
  destruct (struct_pack "i" d) as [h4|e]; [|discriminate].
  intros H. injection H as <-. exists h1, h2, h3, h4. rewrite app_nil_r. auto.
Qed.

Lemma struct_pack_i_length v h : struct_pack "i" v = Ok h -> Z.of_nat (length h) = 4.
Proof.
  intros P. destruct (struct_pack_decode _ _ _ P) as (w & sg & F & L & _).
  cbn in F. injection F as <- _. exact L.
Qed.

Lemma read_record_encoded buf c r b rest :
  wf_record r -> dmap_record_to_bytes r = Ok b -> at_ buf c b rest ->
  read_record buf c = Ok (rev_shapes r, c + Z.of_nat (length b)).
Proof.
  intros (ss & aa & -> & Hss & Haa & Ws & Wa & Hnd) Hb Hat.
  apply NoDup_app in Hnd as (Hnds & Hdisj & Hnda).
  unfold dmap_record_to_bytes in Hb.
  destruct (fields_to_bytes (map scalar_field ss ++ map array_field aa))
    as [[[p ns] na]|e] eqn:F; [|discriminate].
  destruct (pack_ints [encoding_identifier; Z.of_nat (length p) + 16; ns; na])
    as [h|e] eqn:P; [|discriminate].
  injection Hb as <-.
  destruct (fields_to_bytes_app _ _ _ _ _ F)
    as (b1 & n1 & m1 & b2 & n2 & m2 & F1 & F2 & -> & -> & ->).
  destruct (pack_ints4 _ _ _ _ _ P) as (h1 & h2 & h3 & h4 & -> & P1 & P2 & P3 & P4).
  pose proof (struct_pack_i_length _ _ P1) as L1.
  pose proof (struct_pack_i_length _ _ P2) as L2.
  pose proof (struct_pack_i_length _ _ P3) as L3.
  pose proof (struct_pack_i_length _ _ P4) as L4.
  pose proof (at_end _ _ _ _ Hat) as Hend.
  rewrite <- !app_assoc in Hat.
  pose proof (at_split _ _ _ _ _ Hat) as A2. rewrite L1 in A2.
  pose proof (at_split _ _ _ _ _ A2) as A3. rewrite L2 in A3.
  pose proof (at_split _ _ _ _ _ A3) as A4. rewrite L3 in A4.
  pose proof (at_split _ _ _ _ _ A4) as A5. rewrite L4 in A5.
  pose proof (at_split _ _ _ _ _ A5) as A6.
  apply at_assoc in A2, A3, A4, A5.
  assert (Fr : Forall (fun s => ~ In (s_name s) (map fst (@nil (list Z * field)))) ss)
    by (apply List.Forall_forall; intros s _ []).
  destruct (read_scalars_encoded buf ss [] _ _ _ _ _ Ws Hnds Fr F1 A5) as (-> & -> & RS).
  assert (Fa : Forall (fun a => ~ In (a_name a) (map fst ([] ++ map scalar_field ss))) aa).
  { apply List.Forall_forall. intros a Ha Hin. cbn [app] in Hin. rewrite map_map in Hin.
    apply (Hdisj (a_name a)); apply list_elem_of_In; [exact Hin|].
    apply in_map. exact Ha. }
  assert (Hrs : Z.of_nat (length b2) <= Z.of_nat (length (b1 ++ b2)) + 16)
    by (rewrite length_app; lia).
  destruct (read_arrays_encoded buf _ aa _ _ _ _ _ _ Wa Hnda Fa F2 A6 Hrs)
    as (-> & -> & RA).
  assert (Hns : 0 < Z.of_nat (length ss)) by (destruct ss; [congruence|cbn; lia]).
  assert (Hna : 0 < Z.of_nat (length aa)) by (destruct aa; [congruence|cbn; lia]).
  destruct (fields_to_bytes_counts _ _ _ _ F) as (_ & _ & Hcnt).
  rewrite !length_app in Hend. rewrite !length_app in Hcnt. rewrite !length_app in Hrs.
  unfold read_record. monad_unfold.
  rewrite (read_int_packed _ _ _ _ _ P2 A2). rewrite !length_app in RA. rewrite !length_app.
  unfold bytes_check, zero_negative_check. monad_unfold. settle_ifs.
  rewrite (read_int_packed _ _ _ _ _ P3 A3).
  rewrite (read_int_packed _ _ _ _ _ P4 A4).
  settle_ifs. rewrite Z.add_0_r, Nat2Z.id.
  rewrite RS. rewrite Z.add_0_l, Nat2Z.id. rewrite RA.
  match goal with |- context [?x =? ?y] =>
    replace (x =? y) with true by (symmetry; apply Z.eqb_eq; lia) end.
  cbn [negb].
  f_equal. f_equal.
  - unfold rev_shapes. rewrite map_app, !map_map. reflexivity.
  - lia.
Qed.

Lemma record_bytes_length r b : dmap_record_to_bytes r = Ok b -> (16 <= length b)%nat.
Proof.
  unfold dmap_record_to_bytes.
  destruct (fields_to_bytes r) as [[[p ns] na]|e]; [|discriminate].
  destruct (pack_ints _) as [h|e] eqn:P; [|discriminate].
  intros H. injection H as <-.
  destruct (pack_ints4 _ _ _ _ _ P) as (h1 & h2 & h3 & h4 & -> & P1 & P2 & P3 & P4).
  pose proof (struct_pack_i_length _ _ P1). pose proof (struct_pack_i_length _ _ P2).
  pose proof (struct_pack_i_length _ _ P3). pose proof (struct_pack_i_length _ _ P4).
  rewrite !length_app. lia.
Qed.

Lemma read_records_loop_encoded buf (R : list record) (bl : list (list Z)) :
  Forall2 (fun r b => dmap_record_to_bytes r = Ok b) R bl -> Forall wf_record R ->
  forall c fuel acc, at_ buf c (concat bl) [] -> (length R < fuel)%nat ->
  read_records_loop buf fuel acc c =
    Ok (acc ++ map rev_shapes R, c + Z.of_nat (length (concat bl))).
Proof.
  induction 1 as [|r b R bl Hb HR IH]; intros Hwf c fuel acc Hat Hf;
    (destruct fuel as [|fuel]; [cbn in Hf; lia|]).
  - pose proof (at_end _ _ _ _ Hat) as E. cbn in E.
    cbn [read_records_loop]. monad_unfold.
    destruct (Z.ltb_spec c (end_bytes buf)); [lia|].
    rewrite app_nil_r. f_equal. f_equal. cbn. lia.
  - inversion Hwf as [|? ? Wr WR]; subst.
    pose proof (at_end _ _ _ _ Hat) as E. cbn [concat] in Hat, E |- *.
    pose proof (record_bytes_length _ _ Hb) as Lb. rewrite length_app in E.
    pose proof Hat as H1. apply at_assoc in H1.
    pose proof (at_split _ _ _ _ _ Hat) as H2.
    cbn [read_records_loop]. monad_unfold.
    destruct (Z.ltb_spec c (end_bytes buf)); [|lia].
    rewrite (read_record_encoded _ _ _ _ _ Wr Hb H1).
    rewrite (IH WR _ fuel _ H2 ltac:(cbn in Hf; lia)).
    rewrite <- app_assoc, length_app. f_equal. f_equal. lia.
Qed.

(** The record loop of [dmap_records_to_bytes]: it succeeds exactly when every
    record encodes, and appends their encodings in order. *)
Lemma records_to_bytes_fold (R : list record) : forall acc st',
  fold_left (fun acc r =>
               match acc with
               | Err e => Err e
               | Ok st' => match dmap_record_to_bytes r with
                           | Ok bs => Ok (append_bytes st' bs)
                           | Err e => Err e
                           end
               end) R acc = Ok st' ->
  exists st bl, acc = Ok st /\ Forall2 (fun r b => dmap_record_to_bytes r = Ok b) R bl /\
    dmap_bytearr st' = dmap_bytearr st ++ concat bl.
Proof.
  induction R as [|r R IH]; intros acc st' H.
  - cbn in H. subst acc. exists st', []. split; [reflexivity|]. split; [constructor|].
    cbn. rewrite app_nil_r. reflexivity.
  - cbn [fold_left] in H. destruct (IH _ _ H) as (st0 & bl & E & F & B).
    destruct acc as [st|e]; [|discriminate].
    destruct (dmap_record_to_bytes r) as [b|e] eqn:Eb; [|discriminate].
    injection E as <-. exists st, (b :: bl). split; [reflexivity|].
    split; [constructor; assumption|]. rewrite B. cbn. rewrite app_assoc. reflexivity.
Qed.

Lemma product_to_bytes_fold (tables : list file_struct) (R : list record) : forall acc st',
  fold_left (fun acc r =>
               match acc with
               | Err e => Err e
               | Ok st' =>
                   match record_checks tables r with
                   | Err e => Err e
                   | Ok _ => match dmap_record_to_bytes r with
                             | Ok bs => Ok (append_bytes st' bs)
                             | Err e => Err e
                             end
                   end
               end) R acc = Ok st' ->
  exists st bl, acc = Ok st /\ Forall2 (fun r b => dmap_record_to_bytes r = Ok b) R bl /\
    dmap_bytearr st' = dmap_bytearr st ++ concat bl.
Proof.
  induction R as [|r R IH]; intros acc st' H.
  - cbn in H. subst acc. exists st', []. split; [reflexivity|]. split; [constructor|].
    cbn. rewrite app_nil_r. reflexivity.
  - cbn [fold_left] in H. destruct (IH _ _ H) as (st0 & bl & E & F & B).
    destruct acc as [st|e]; [|discriminate].
    destruct (record_checks tables r); [|discriminate].
    destruct (dmap_record_to_bytes r) as [b|e] eqn:Eb; [|discriminate].
    injection E as <-. exists st, (b :: bl). split; [reflexivity|].
    split; [constructor; assumption|]. rewrite B. cbn. rewrite app_assoc. reflexivity.
Qed.

(** Both encode modes output the concatenated record encodings of a
    non-empty record set. *)
Lemma encode_blocks mode (R : list record) bs :
  encode mode R = Ok bs ->
  R <> [] /\ exists bl, Forall2 (fun r b => dmap_record_to_bytes r = Ok b) R bl /\
                        bs = concat bl.
Proof.
  destruct mode as [tables|]; cbn [encode].
  - unfold write_product_stream. cbn [new_writer].
    unfold empty_record_check. cbn [dmap_records].
    destruct R as [|r R]; [discriminate|].
    destruct (superDARN_file_structure_to_bytes _ tables) as [st2|e] eqn:E; [|discriminate].
    intros H. injection H as <-. split; [discriminate|].
    unfold superDARN_file_structure_to_bytes in E. cbn [dmap_records] in E.
    destruct (product_to_bytes_fold _ _ _ _ E) as (st & bl & Est & F & B).
    injection Est as <-. exists bl. split; [exact F|]. rewrite B. reflexivity.
  - unfold write_dmap_stream. cbn [new_writer dmap_records].
    destruct R as [|r R]; [discriminate|].
    unfold empty_record_check, dmap_records_to_bytes, records_to_bytes_from.
    cbn [dmap_records].
    match goal with |- context [fold_left ?f ?l ?a] =>
      destruct (fold_left f l a) as [st2|e] eqn:E end; [|discriminate].
    intros H. injection H as <-. split; [discriminate|].
    destruct (records_to_bytes_fold _ _ _ E) as (st & bl & Est & F & B).
    injection Est as <-. exists bl. split; [exact F|]. rewrite B. reflexivity.
Qed.

Lemma blocks_length (R : list record) (bl : list (list Z)) :
  Forall2 (fun r b => dmap_record_to_bytes r = Ok b) R bl ->
  (16 * length R <= length (concat bl))%nat.
Proof.
  induction 1 as [|r b R bl Hb _ IH]; [cbn; lia|].
  pose proof (record_bytes_length _ _ Hb). cbn [concat length]. rewrite length_app. lia.
Qed.

(** A record of the scenario's shape with a non-square array: an [int32] array
    of shape [[2, 3]]. *)
Definition grid_array : DmapArray :=
  mkArray (ascii_bytes "grid") (NNum 4 [1; 2; 3; 4; 5; 6]) INT "i" 2 [2; 3].

Definition grid_record : record :=
  [(ascii_bytes "stid", FScalar stid_scalar); (ascii_bytes "grid", FArray grid_array)].

(** The record with [grid]'s shape as the decoder returns it. *)
Definition grid_record_decoded : record :=
  [(ascii_bytes "stid", FScalar stid_scalar);
   (ascii_bytes "grid", FArray (mkArray (ascii_bytes "grid") (NNum 4 [1; 2; 3; 4; 5; 6])
                                  INT "i" 2 [3; 2]))].

(** A record with a scalar and no array. *)
Definition scalar_only_record : record := [(ascii_bytes "stid", FScalar stid_scalar)].

Lemma stid_scalar_wf : wf_scalar stid_scalar.
Proof.
  split; [apply ascii_textb_ok; vm_compute; reflexivity|].
  exists 2. split; [reflexivity|]. right. right. exists true, 7. auto.
Qed.

Lemma sample_record_wf : wf_record sample_record.
Proof.
  exists [stid_scalar], [data_array].
  split; [reflexivity|]. split; [discriminate|]. split; [discriminate|].
  split; [constructor; [exact stid_scalar_wf|constructor]|].
  split.
  - constructor; [|constructor]. split; [apply ascii_textb_ok; vm_compute; reflexivity|].
    exists 4, false, [1065353216; 1073741824; 1077936128; 1082130432].
    split; [reflexivity|]. split; [reflexivity|]. split; [reflexivity|].
    split; [repeat constructor|]. split; [reflexivity|]. split; [discriminate|].
    split; [repeat constructor|reflexivity].
  - refine (bool_decide_unpack _ _). vm_compute. reflexivity.
Qed.

(** Decoding the concatenated encodings of a non-empty list of well-formed
    records. *)
Lemma decode_blocks (R : list record) (bl : list (list Z)) :
  Forall2 (fun r b => dmap_record_to_bytes r = Ok b) R bl -> Forall wf_record R ->
  R <> [] -> dmap_read_stream (concat bl) = Ok (map rev_shapes R).
Proof.
  intros F W Hne. pose proof (blocks_length _ _ F) as L.
  unfold dmap_read_stream.
  destruct R as [|r R']; [congruence|]. cbn [length] in L.
  destruct (Nat.eqb_spec (length (concat bl)) 0); [lia|].
  unfold read_records. monad_unfold.
  pose proof (at_app_full [] (concat bl)) as A. cbn [app length] in A.
  change (Z.of_nat 0) with 0 in A.
  rewrite (read_records_loop_encoded _ _ _ F W 0 (S (length (concat bl))) [] A
             ltac:(cbn [length]; lia)).
  unfold bytes_check. monad_unfold. unfold end_bytes.
  destruct (Z.ltb_spec (Z.of_nat (length (concat bl))) (0 + Z.of_nat (length (concat bl))));
    [lia|].
  reflexivity.
Qed.

(** C1 (against the code): for a record set of well-formed records (each
    has at least one scalar, then at least one numeric array of positive
    dimensions, under distinct ASCII names), in raw or checked mode, decoding
    the encoded bytes gives back the records with the shape of every array
    reversed: the encoder writes the shape in its logical order and the
    decoder reverses what it reads.  So decoding returns the record set
    itself exactly when reversing the shapes leaves it unchanged (every
    shape a palindrome). *)
Theorem encode_decode_roundtrip (mode : option (list file_struct)) (R : list record)
  (bs : list Z) :
  Forall wf_record R -> encode mode R = Ok bs ->
  dmap_read_stream bs = Ok (map rev_shapes R) /\
  (dmap_read_stream bs = Ok R <-> map rev_shapes R = R).
Proof.
  intros W E.
  destruct (encode_blocks _ _ _ E) as (Hne & bl & F & ->).
  assert (D : dmap_read_stream (concat bl) = Ok (map rev_shapes R))
    by exact (decode_blocks _ _ F W Hne).
  split; [exact D|]. rewrite D. split.
  - intros H. injection H as H. exact H.
  - intros ->. reflexivity.
Qed.

Lemma encode_decode_roundtrip_witness :
  Forall wf_record [sample_record] /\
  encode None [sample_record] = Ok (bytes_of (encode None [sample_record])) /\
  dmap_read_stream (bytes_of (encode None [sample_record])) = Ok [sample_record].
Proof.
  assert (W : Forall wf_record [sample_record])
    by (constructor; [exact sample_record_wf|constructor]).
  assert (E : encode None [sample_record] = Ok (bytes_of (encode None [sample_record])))
    by (vm_compute; reflexivity).
  split; [exact W|]. split; [exact E|].
  apply (proj2 (encode_decode_roundtrip None _ _ W E)). vm_compute. reflexivity.
Defined.

Lemma grid_array_wf : wf_array grid_array.
Proof.
  split; [apply ascii_textb_ok; vm_compute; reflexivity|].
  exists 4, true, [1; 2; 3; 4; 5; 6].
  split; [reflexivity|]. split; [reflexivity|]. split; [reflexivity|].
  split; [repeat constructor|]. split; [reflexivity|]. split; [discriminate|].
  split; [repeat constructor|reflexivity].
Qed.

(** C1 fails on the code: the well-formed record [grid_record], whose
    [2 x 3] array [grid] follows the scalar [stid], encodes and decodes to
    the same record with the shape [3 x 2]. *)
Lemma encode_decode_shape_counterexample :
  wf_record grid_record /\
  encode None [grid_record] = Ok (bytes_of (encode None [grid_record])) /\
  dmap_read_stream (bytes_of (encode None [grid_record])) = Ok [grid_record_decoded] /\
  grid_record_decoded <> grid_record.
Proof.
  split.
  - exists [stid_scalar], [grid_array].
    split; [reflexivity|]. split; [discriminate|]. split; [discriminate|].
    split; [constructor; [exact stid_scalar_wf|constructor]|].
    split; [constructor; [exact grid_array_wf|constructor]|].
    refine (bool_decide_unpack _ _). vm_compute. reflexivity.
  - split; [vm_compute; reflexivity|]. split; [vm_compute; reflexivity|].
    intros H; vm_compute in H; congruence.
Qed.

(** ** Shape order on the wire *)

(** C2 (against the code): the encoder writes an array's dimensions in their
    logical order, not reversed: the [dimension_count] 4-byte integers after
    the name, the type byte and the count are the shape itself.  The decoder
    reverses them, so an encoded-then-decoded array comes back with its shape
    reversed, i.e. not its original shape unless that is a palindrome. *)
Theorem dmap_array_shape_order :
  (forall buf c a b rest,
      wf_array a -> dmap_array_to_bytes a = Ok b -> at_ buf c b rest ->
      read_ints buf (length (a_shape a)) (c + Z.of_nat (length (a_name a)) + 6) =
        Ok (a_shape a, c + Z.of_nat (length (a_name a)) + 6
                         + 4 * Z.of_nat (length (a_shape a)))) /\
  (forall buf rs c a b rest,
      wf_array a -> dmap_array_to_bytes a = Ok b -> at_ buf c b rest ->
      Z.of_nat (length b) <= rs ->
      read_array buf rs c = Ok (rev_shape a, c + Z.of_nat (length b)) /\
      a_shape (rev_shape a) = rev (a_shape a)).
Proof.
  split.
  - intros buf c a b rest [Hn (w & sg & cells & Ht & _)] Hb Hat.
    destruct (dmap_type_cases _ _ _ Ht) as [Ht128 _].
    unfold dmap_array_to_bytes in Hb. rewrite (type_byte_small _ Ht128), (ascii_pack_text_nul _ Hn) in Hb.
    destruct (struct_pack "i" (a_dimension a)) as [db|e] eqn:Pd; [|discriminate].
    destruct (pack_ints (a_shape a)) as [sb|e] eqn:Ps; [|discriminate].
    injection Hb as <-.
    destruct (read_name_byte_at _ _ _ _ _ _ Hn Hat) as (_ & _ & R3).
    pose proof (at_split _ _ _ _ _ R3) as R5.
    rewrite (struct_pack_i_length _ _ Pd) in R5.
    apply at_assoc in R5.
    destruct (pack_ints_read _ _ _ _ _ Ps R5) as [R6 _].
    replace (c + Z.of_nat (length (a_name a)) + 6)
      with (c + Z.of_nat (length (a_name a)) + 1 + 1 + 4) by lia.
    exact R6.
  - intros buf rs c a b rest W Hb Hat Hrs. split.
    + exact (read_array_encoded _ _ _ _ _ _ W Hb Hat Hrs).
    + reflexivity.
Qed.


Definition grid_array_bytes : list Z := bytes_of (dmap_array_to_bytes grid_array).

Lemma dmap_array_shape_order_witness :
  read_ints grid_array_bytes 2 10 = Ok ([2; 3], 18) /\
  read_array grid_array_bytes 100 0 =
    Ok (mkArray (ascii_bytes "grid") (NNum 4 [1; 2; 3; 4; 5; 6]) INT "i" 2 [3; 2], 42).
Proof.
  assert (E : dmap_array_to_bytes grid_array = Ok grid_array_bytes)
    by (vm_compute; reflexivity).
  pose proof (at_app_full [] grid_array_bytes) as A. cbn [app length] in A.
  change (Z.of_nat 0) with 0 in A.
  destruct dmap_array_shape_order as [S1 S2]. split.
  - exact (S1 _ _ _ _ _ grid_array_wf E A).
  - exact (proj1 (S2 _ 100 _ _ _ _ grid_array_wf E A ltac:(vm_compute; discriminate))).
Defined.

(** ** Truncated streams *)

(** The length of the encodings of the first [n] records. *)
Definition encoded_prefix_length (R : list record) (n : nat) : nat :=
  length (concat (map (fun r => bytes_of (dmap_record_to_bytes r)) (firstn n R))).

Lemma read_records_loop_blocks buf (R : list record) (bl : list (list Z)) :
  Forall2 (fun r b => dmap_record_to_bytes r = Ok b) R bl -> Forall wf_record R ->
  forall c rest fuel acc, at_ buf c (concat bl) rest ->
  read_records_loop buf (length R + fuel) acc c =
    read_records_loop buf fuel (acc ++ map rev_shapes R) (c + Z.of_nat (length (concat bl))).
Proof.
  induction 1 as [|r b R bl Hb HR IH]; intros Hwf c rest fuel acc Hat.
  - cbn. rewrite app_nil_r, Z.add_0_r. reflexivity.
  - inversion Hwf as [|? ? Wr WR]; subst.
    pose proof (at_end _ _ _ _ Hat) as E. cbn [concat] in Hat, E |- *.
    pose proof (record_bytes_length _ _ Hb) as Lb. rewrite length_app in E.
    pose proof Hat as H1. apply at_assoc in H1.
    pose proof (at_split _ _ _ _ _ Hat) as H2.
    cbn [length Nat.add read_records_loop]. monad_unfold.
    destruct (Z.ltb_spec c (end_bytes buf)); [|lia].
    rewrite (read_record_encoded _ _ _ _ _ Wr Hb H1).
    rewrite (IH WR _ _ fuel _ H2).
    rewrite <- app_assoc, length_app. f_equal. lia.
Qed.

(** A proper non-empty prefix of a record's encoding at the end of the
    buffer: [read_record] raises [CursorError] when the prefix is shorter than
    the two header integers it reads first, and [MismatchByteError] when the
    [block_size] it reads exceeds the bytes left. *)
Lemma read_record_truncated buf c r b j :
  dmap_record_to_bytes r = Ok b -> (0 < j < length b)%nat -> 0 <= c ->
  at_ buf c (firstn j b) [] ->
  read_record buf c = Err MismatchByteError \/ read_record buf c = Err CursorError.
Proof.
  intros Hb Hj Hc Hat.
  pose proof (at_end _ _ _ _ Hat) as E. rewrite length_firstn in E. cbn [length] in E.
  unfold dmap_record_to_bytes in Hb.
  destruct (fields_to_bytes r) as [[[p ns] na]|e]; [|discriminate].
  destruct (pack_ints _) as [h|e] eqn:P; [|discriminate].
  injection Hb as <-.
  destruct (pack_ints4 _ _ _ _ _ P) as (h1 & h2 & h3 & h4 & -> & P1 & P2 & P3 & P4).
  pose proof (struct_pack_i_length _ _ P1) as L1. pose proof (struct_pack_i_length _ _ P2) as L2.
  pose proof (struct_pack_i_length _ _ P3) as L3. pose proof (struct_pack_i_length _ _ P4) as L4.
  rewrite !length_app in Hj. rewrite <- !app_assoc in Hat.
  rewrite (read_record_unfold buf c Hc). cbv zeta.
  destruct (Z.ltb_spec (end_bytes buf) (c + 8)); [right; reflexivity|]. left.
  rewrite List.firstn_app, (List.firstn_all2 h1) in Hat by lia.
  rewrite List.firstn_app, (List.firstn_all2 h2) in Hat by lia.
  apply at_split in Hat. rewrite L1 in Hat. apply at_assoc in Hat.
  rewrite (i32_at_slice _ _ _ _ Hat ltac:(lia)).
  destruct (struct_pack_decode _ _ _ P2) as (_ & _ & _ & _ & D & _). rewrite D.
  destruct (Z.ltb_spec (end_bytes buf - c) (Z.of_nat (length p) + 16)); [reflexivity|].
  rewrite min_l in E by lia. lia.
Qed.

Lemma concat_split_at (bl : list (list Z)) : forall p,
  (p < length (concat bl))%nat ->
  exists n j b, bl !! n = Some b /\ (j < length b)%nat /\
    p = (length (concat (firstn n bl)) + j)%nat /\
    firstn p (concat bl) = concat (firstn n bl) ++ firstn j b.
Proof.
  induction bl as [|b bl IH]; intros p Hp; [cbn in Hp; lia|].
  cbn [concat] in Hp |- *. rewrite length_app in Hp.
  destruct (Nat.lt_ge_cases p (length b)) as [Hlt|Hge].
  - exists 0%nat, p, b. split; [reflexivity|]. split; [exact Hlt|]. split; [reflexivity|].
    rewrite List.firstn_app. replace (p - length b)%nat with 0%nat by lia.
    rewrite app_nil_r. reflexivity.
  - destruct (IH (p - length b)%nat ltac:(lia)) as (n & j & b' & Hn & Hj & Hpj & Hf).
    exists (S n), j, b'. split; [exact Hn|]. split; [exact Hj|].
    cbn [firstn concat]. rewrite length_app. split; [lia|].
    rewrite List.firstn_app, (List.firstn_all2 b) by lia. rewrite Hf, app_assoc.
    reflexivity.
Qed.

Lemma blocks_of_records (R : list record) (bl : list (list Z)) :
  Forall2 (fun r b => dmap_record_to_bytes r = Ok b) R bl ->
  map (fun r => bytes_of (dmap_record_to_bytes r)) R = bl.
Proof. induction 1 as [|r b R bl Hb _ IH]; [reflexivity|]. cbn. rewrite Hb, IH. reflexivity. Qed.

(** C6 (amended): truncate the encoding of a set of well-formed records
    (ASCII names and texts; raw or checked mode) to its first [p] bytes, [p] less than its length.  An
    empty result is refused ([EmptyFileError]).  A cut at the end of the
    [n]-th record (n > 0) decodes silently to the first [n] records.  Any
    other cut fails with [MismatchByteError] (SizeMismatch) or [CursorError]
    (CursorMismatch). *)
Theorem truncated_stream_decode (mode : option (list file_struct)) (R : list record)
  (bs : list Z) (p : nat) :
  Forall wf_record R -> encode mode R = Ok bs -> (p < length bs)%nat ->
  (p = 0%nat -> dmap_read_stream (firstn p bs) = Err EmptyFileError) /\
  (forall n, (0 < p)%nat -> p = encoded_prefix_length R n ->
     dmap_read_stream (firstn p bs) = Ok (map rev_shapes (firstn n R))) /\
  ((forall n, p <> encoded_prefix_length R n) ->
     dmap_read_stream (firstn p bs) = Err MismatchByteError \/
     dmap_read_stream (firstn p bs) = Err CursorError).
Proof.
  intros W E Hp.
  destruct (encode_blocks _ _ _ E) as (Hne & bl & F & ->).
  assert (Hpre : forall n, encoded_prefix_length R n = length (concat (firstn n bl))).
  { intros n. unfold encoded_prefix_length. rewrite <- firstn_map.
    rewrite (blocks_of_records _ _ F). reflexivity. }
  split; [|split].
  - intros ->. reflexivity.
  - intros n Hp0 Hn. rewrite Hpre in Hn.
    assert (Hf : firstn p (concat bl) = concat (firstn n bl)).
    { rewrite Hn. rewrite <- (firstn_skipn n bl) at 2. rewrite concat_app.
      apply take_app_length. }
    rewrite Hf. apply decode_blocks.
    + apply Forall2_take. exact F.
    + apply Forall_take. exact W.
    + intros H0. assert (Hb0 : firstn n bl = []).
      { pose proof (Forall2_take _ _ _ n F) as F'. rewrite H0 in F'.
        inversion F'. reflexivity. }
      rewrite Hb0 in Hn. cbn in Hn. lia.
  - intros Hnb.
    destruct (concat_split_at bl p Hp) as (n & j & b & Hn & Hj & Hpj & Hf).
    destruct (Forall2_lookup_r _ _ _ _ _ F Hn) as (r & Hr & Hb).
    assert (Hj0 : j <> 0%nat).
    { intros ->. apply (Hnb n). rewrite Hpre. lia. }
    set (R1 := firstn n R). set (bl1 := firstn n bl).
    assert (Hpj' : p = (length (concat bl1) + j)%nat) by (rewrite Hpj; reflexivity).
    assert (Hf' : firstn p (concat bl) = concat bl1 ++ firstn j b) by (rewrite Hf; reflexivity).
    clear Hpj Hf.
    assert (F1 : Forall2 (fun r b => dmap_record_to_bytes r = Ok b) R1 bl1)
      by (apply Forall2_take; exact F).
    assert (W1 : Forall wf_record R1) by (apply Forall_take; exact W).
    pose proof (blocks_length _ _ F1) as L1.
    pose proof (Forall2_length _ _ _ F1) as L1'.
    rewrite Hf'.
    set (buf := concat bl1 ++ firstn j b).
    assert (Lbuf : length buf = p).
    { unfold buf. rewrite length_app, length_firstn. lia. }
    pose proof (at_app_mid [] (concat bl1) (firstn j b)) as A. cbn [app length] in A.
    change (Z.of_nat 0) with 0 in A. fold buf in A.
    assert (At : at_ buf (Z.of_nat (length (concat bl1))) (firstn j b) []).
    { unfold buf. pose proof (at_app_mid (concat bl1) (firstn j b) []) as A3.
      rewrite app_nil_r in A3. exact A3. }
    assert (Hlen : (length b > 0)%nat) by lia.
    destruct (read_record_truncated buf (Z.of_nat (length (concat bl1))) r b j Hb ltac:(lia) ltac:(lia) At) as [Er|Er];
      [left|right];
      unfold dmap_read_stream;
      (destruct (Nat.eqb_spec (length buf) 0); [lia|]);
      unfold read_records; monad_unfold;
      replace (S (length buf)) with (length R1 + S (p - length R1))%nat by lia;
      rewrite (read_records_loop_blocks _ _ _ F1 W1 0 _ _ [] A);
      cbn [read_records_loop]; monad_unfold;
      (destruct (Z.ltb_spec (0 + Z.of_nat (length (concat bl1))) (end_bytes buf));
        [|unfold buf, end_bytes in *; rewrite length_app, length_firstn in *; lia]);
      rewrite Z.add_0_l, Er; reflexivity.
Qed.

Lemma truncated_stream_decode_witness :
  dmap_read_stream (firstn 58 two_record_stream) = Ok [sample_record] /\
  (dmap_read_stream (firstn 70 two_record_stream) = Err MismatchByteError \/
   dmap_read_stream (firstn 70 two_record_stream) = Err CursorError).
Proof.
  assert (W : Forall wf_record [sample_record; sample_record])
    by (constructor; [exact sample_record_wf|];
        constructor; [exact sample_record_wf|constructor]).
  assert (E : encode None [sample_record; sample_record] = Ok two_record_stream)
    by (vm_compute; reflexivity).
  split.
  - destruct (truncated_stream_decode None _ _ 58 W E ltac:(vm_compute; lia))
      as (_ & T2 & _).
    rewrite (T2 1%nat ltac:(lia) ltac:(vm_compute; reflexivity)). vm_compute. reflexivity.
  - destruct (truncated_stream_decode None _ _ 70 W E ltac:(vm_compute; lia))
      as (_ & _ & T3).
    apply T3. intros [|[|[|n]]] H; unfold encoded_prefix_length in H; cbn [firstn] in H;
      vm_compute in H; discriminate.
Defined.

(** C6 fails as stated: the two-record stream cut after its first record (58
    of its 116 bytes) decodes, with no error, to the first record alone. *)
Lemma truncated_stream_counterexample :
  encode None [sample_record; sample_record] = Ok two_record_stream /\
  length two_record_stream = 116%nat /\
  dmap_read_stream (firstn 58 two_record_stream) = Ok [sample_record].
Proof. vm_compute. repeat split; reflexivity. Qed.

(** * Further properties of the writer and the reader *)

(** ** Composing record conversions *)

Lemma records_fold_err (R : list record) e :
  fold_left (fun acc r =>
               match acc with
               | Err e => Err e
               | Ok st' => match dmap_record_to_bytes r with
                           | Ok bs => Ok (append_bytes st' bs)
                           | Err e => Err e
                           end
               end) R (Err e) = Err e.
Proof. induction R as [|r R IH]; [reflexivity|exact IH]. Qed.

Lemma product_fold_err (tables : list file_struct) (R : list record) e :
  fold_left (fun acc r =>
               match acc with
               | Err e => Err e
               | Ok st' =>
                   match record_checks tables r with
                   | Err e => Err e
                   | Ok _ => match dmap_record_to_bytes r with
                             | Ok bs => Ok (append_bytes st' bs)
                             | Err e => Err e
                             end
                   end
               end) R (Err e) = Err e.
Proof. induction R as [|r R IH]; [reflexivity|exact IH]. Qed.

Lemma records_fold_ok (R : list record) (bl : list (list Z)) :
  Forall2 (fun r b => dmap_record_to_bytes r = Ok b) R bl ->
  forall st,
  fold_left (fun acc r =>
               match acc with
               | Err e => Err e
               | Ok st' => match dmap_record_to_bytes r with
                           | Ok bs => Ok (append_bytes st' bs)
                           | Err e => Err e
                           end
               end) R (Ok st) = Ok (append_bytes st (concat bl)).
Proof.
  induction 1 as [|r b R bl Hb _ IH]; intros st.
  - destruct st; unfold append_bytes; cbn [concat dmap_records dmap_bytearr filename fold_left]. rewrite app_nil_r. reflexivity.
  - cbn [fold_left]. rewrite Hb, IH. destruct st; unfold append_bytes; cbn [concat dmap_records dmap_bytearr filename fold_left]. rewrite app_assoc. reflexivity.
Qed.

Lemma product_fold_ok (tables : list file_struct) (R : list record) (bl : list (list Z)) :
  Forall2 (fun r b => dmap_record_to_bytes r = Ok b) R bl ->
  Forall (fun r => record_checks tables r = Ok tt) R ->
  forall st,
  fold_left (fun acc r =>
               match acc with
               | Err e => Err e
               | Ok st' =>
                   match record_checks tables r with
                   | Err e => Err e
                   | Ok _ => match dmap_record_to_bytes r with
                             | Ok bs => Ok (append_bytes st' bs)
                             | Err e => Err e
                             end
                   end
               end) R (Ok st) = Ok (append_bytes st (concat bl)).
Proof.
  induction 1 as [|r b R bl Hb _ IH]; intros Hc st.
  - destruct st; unfold append_bytes; cbn [concat dmap_records dmap_bytearr filename fold_left]. rewrite app_nil_r. reflexivity.
  - inversion Hc as [|? ? Hr Hc']; subst. cbn [fold_left]. rewrite Hr, Hb, IH by exact Hc'.
    destruct st; unfold append_bytes; cbn [concat dmap_records dmap_bytearr filename fold_left]. rewrite app_assoc. reflexivity.
Qed.

Lemma product_fold_checks (tables : list file_struct) (R : list record) : forall acc st',
  fold_left (fun acc r =>
               match acc with
               | Err e => Err e
               | Ok st' =>
                   match record_checks tables r with
                   | Err e => Err e
                   | Ok _ => match dmap_record_to_bytes r with
                             | Ok bs => Ok (append_bytes st' bs)
                             | Err e => Err e
                             end
                   end
               end) R acc = Ok st' ->
  Forall (fun r => record_checks tables r = Ok tt) R.
Proof.
  induction R as [|r R IH]; intros acc st' H; constructor.
  - cbn [fold_left] in H. destruct acc as [st|e].
    + destruct (record_checks tables r) as [[]|e] eqn:Ec; [reflexivity|].
      rewrite product_fold_err in H. discriminate.
    + rewrite product_fold_err in H. discriminate.
  - exact (IH _ _ H).
Qed.

Lemma encode_raw_blocks (R : list record) (bl : list (list Z)) :
  R <> [] -> Forall2 (fun r b => dmap_record_to_bytes r = Ok b) R bl ->
  encode None R = Ok (concat bl).
Proof.
  intros Hne F. cbn [encode]. unfold write_dmap_stream. cbn [new_writer dmap_records].
  destruct R as [|r R]; [congruence|].
  unfold empty_record_check, dmap_records_to_bytes, records_to_bytes_from. cbn [dmap_records].
  rewrite (records_fold_ok _ _ F). reflexivity.
Qed.

Lemma write_dmap_stream_encoded (st : DmapWrite) (arg : list record) (bs : list Z) :
  encode None (dmap_records st) = Ok bs ->
  write_dmap_stream st arg = Ok (append_bytes st bs, dmap_bytearr st ++ bs).
Proof.
  intros E. destruct (encode_blocks _ _ _ E) as (Hne & bl & F & ->).
  assert (Ec : empty_record_check st = Ok tt)
    by (unfold empty_record_check; destruct (dmap_records st); congruence).
  assert (Eb : dmap_records_to_bytes st = Ok (append_bytes st (concat bl)))
    by exact (records_fold_ok _ _ F st).
  unfold write_dmap_stream.
  replace (match dmap_records st with [] => set_records st arg | _ :: _ => st end)
    with st by (destruct (dmap_records st); congruence).
  rewrite Ec, Eb. reflexivity.
Qed.

(** X1: [write_dmap_stream] appends the encoding of the instance's records to
    the byte array the instance already holds and returns the whole array:
    nothing resets [self.dmap_bytearr], so a second call on the same writer
    returns the stream twice over. *)
Theorem write_dmap_stream_appends :
  (forall (st : DmapWrite) (arg : list record) (bs : list Z),
      encode None (dmap_records st) = Ok bs ->
      write_dmap_stream st arg = Ok (append_bytes st bs, dmap_bytearr st ++ bs)) /\
  (forall (R : list record) (bs : list Z),
      encode None R = Ok bs ->
      exists st1 st2,
        write_dmap_stream (new_writer R) [] = Ok (st1, bs) /\
        write_dmap_stream st1 [] = Ok (st2, bs ++ bs)).
Proof.
  pose proof write_dmap_stream_encoded as A.
  split; [exact A|].
  intros R bs E.
  exists (append_bytes (new_writer R) bs), (append_bytes (append_bytes (new_writer R) bs) bs).
  split.
  - exact (A (new_writer R) [] bs E).
  - exact (A (append_bytes (new_writer R) bs) [] bs E).
Qed.

Lemma write_dmap_stream_appends_witness :
  encode None [sample_record] = Ok sample_block /\
  exists st1 st2,
    write_dmap_stream (new_writer [sample_record]) [] = Ok (st1, sample_block) /\
    write_dmap_stream st1 [] = Ok (st2, sample_block ++ sample_block).
Proof.
  assert (E : encode None [sample_record] = Ok sample_block) by (vm_compute; reflexivity).
  split; [exact E|]. exact (proj2 write_dmap_stream_appends _ _ E).
Defined.

Lemma encode_checked_iff (tables : list file_struct) (R : list record) (bs : list Z) :
  encode (Some tables) R = Ok bs <->
  Forall (fun r => record_checks tables r = Ok tt) R /\ encode None R = Ok bs.
Proof.
  split.
  - intros E. destruct (encode_blocks _ _ _ E) as (Hne & bl & F & ->).
    split; [|exact (encode_raw_blocks _ _ Hne F)].
    cbn [encode] in E. unfold write_product_stream in E. cbn [new_writer] in E.
    unfold empty_record_check in E. cbn [dmap_records] in E.
    destruct R as [|r R]; [congruence|].
    destruct (superDARN_file_structure_to_bytes _ tables) as [st2|e] eqn:E2; [|discriminate].
    exact (product_fold_checks _ _ _ _ E2).
  - intros [Hc E]. destruct (encode_blocks _ _ _ E) as (Hne & bl & F & ->).
    cbn [encode]. unfold write_product_stream. cbn [new_writer].
    unfold empty_record_check. cbn [dmap_records].
    destruct R as [|r R]; [congruence|].
    unfold superDARN_file_structure_to_bytes. cbn [dmap_records].
    rewrite (product_fold_ok _ _ _ F Hc). reflexivity.
Qed.

(** X2: the checked encode of the product writers outputs exactly the bytes of
    the raw [dmap] encode when every record passes its three field checks, and
    fails otherwise; when a record fails its checks, the writer raises that
    record's check error, whatever the records after it, provided the records
    before it pass and convert. *)
Theorem encode_checked_is_raw (tables : list file_struct) :
  (forall (R : list record) (bs : list Z),
      encode (Some tables) R = Ok bs <->
      Forall (fun r => record_checks tables r = Ok tt) R /\ encode None R = Ok bs) /\
  (forall (R1 R2 : list record) (r : record) (bl1 : list (list Z)) (e : dmap_error),
      Forall2 (fun r b => dmap_record_to_bytes r = Ok b) R1 bl1 ->
      Forall (fun r => record_checks tables r = Ok tt) R1 ->
      record_checks tables r = Err e ->
      encode (Some tables) (R1 ++ r :: R2) = Err e).
Proof.
  split; [exact (encode_checked_iff tables)|].
  intros R1 R2 r bl1 e F Hc He.
  assert (Ec : empty_record_check (new_writer (R1 ++ r :: R2)) = Ok tt)
    by (unfold empty_record_check; cbn; destruct R1; reflexivity).
  cbn [encode]. unfold write_product_stream. cbv beta iota zeta. rewrite Ec.
  unfold superDARN_file_structure_to_bytes. cbn [dmap_records new_writer].
  rewrite fold_left_app, (product_fold_ok _ _ _ F Hc). cbn [fold_left].
  rewrite He, product_fold_err. reflexivity.
Qed.

(** X3: the raw encoding of a concatenation of record lists is the
    concatenation of their encodings, in either encode mode; decoding the
    concatenated stream of two lists of well-formed records (ASCII names and
    texts) gives the two decoded lists one after the other. *)
Theorem encode_app (mode : option (list file_struct)) (R1 R2 : list record)
  (b1 b2 : list Z) :
  encode mode R1 = Ok b1 -> encode mode R2 = Ok b2 ->
  encode mode (R1 ++ R2) = Ok (b1 ++ b2) /\
  (Forall wf_record R1 -> Forall wf_record R2 ->
   dmap_read_stream (b1 ++ b2) = Ok (map rev_shapes R1 ++ map rev_shapes R2)).
Proof.
  intros E1 E2.
  destruct (encode_blocks _ _ _ E1) as (Hne1 & bl1 & F1 & ->).
  destruct (encode_blocks _ _ _ E2) as (Hne2 & bl2 & F2 & ->).
  assert (F : Forall2 (fun r b => dmap_record_to_bytes r = Ok b) (R1 ++ R2) (bl1 ++ bl2))
    by (apply Forall2_app; assumption).
  assert (Hne : R1 ++ R2 <> []) by (destruct R1; [congruence|discriminate]).
  rewrite <- concat_app. split.
  - destruct mode as [tables|].
    + apply encode_checked_iff in E1 as [C1 _]. apply encode_checked_iff in E2 as [C2 _].
      apply encode_checked_iff. split; [apply Forall_app; split; assumption|].
      exact (encode_raw_blocks _ _ Hne F).
    + exact (encode_raw_blocks _ _ Hne F).
  - intros W1 W2. rewrite <- map_app.
    apply (decode_blocks _ _ F); [apply Forall_app; split; assumption|exact Hne].
Qed.

(** A table listing the two fields of [sample_record] with their formats. *)
Definition sample_table : file_struct :=
  [(ascii_bytes "stid", "h"%string); (ascii_bytes "data", "f"%string)].

Lemma encode_checked_is_raw_witness :
  encode (Some [sample_table]) [sample_record] = Ok sample_block /\
  encode (Some [sample_table]) [sample_record; scalar_only_record; sample_record]
    = Err (SuperDARNFieldMissing {[ascii_bytes "data"]}).
Proof.
  split.
  - apply (proj2 (proj1 (encode_checked_is_raw [sample_table]) _ _)). split.
    + constructor; [vm_compute; reflexivity|constructor].
    + vm_compute. reflexivity.
  - apply (proj2 (encode_checked_is_raw [sample_table]) [sample_record] [sample_record]
             scalar_only_record [sample_block]).
    + constructor; [vm_compute; reflexivity|constructor].
    + constructor; [vm_compute; reflexivity|constructor].
    + vm_compute. reflexivity.
Defined.

Lemma encode_app_witness :
  encode None [sample_record; sample_record] = Ok (sample_block ++ sample_block) /\
  dmap_read_stream (sample_block ++ sample_block)
    = Ok (map rev_shapes [sample_record] ++ map rev_shapes [sample_record]).
Proof.
  assert (E : encode None [sample_record] = Ok sample_block) by (vm_compute; reflexivity).
  assert (W : Forall wf_record [sample_record])
    by (constructor; [exact sample_record_wf|constructor]).
  destruct (encode_app None [sample_record] [sample_record] _ _ E E) as [A B].
  split; [exact A|exact (B W W)].
Defined.

(** ** The header the writer puts before each record *)

Definition is_scalar_field (kv : list Z * field) : bool :=
  match snd kv with FScalar _ => true | FArray _ => false end.

Definition is_array_field (kv : list Z * field) : bool := negb (is_scalar_field kv).

Lemma fields_to_bytes_field_counts (r : record) : forall b n m,
  fields_to_bytes r = Ok (b, n, m) ->
  n = Z.of_nat (length (List.filter is_scalar_field r)) /\
  m = Z.of_nat (length (List.filter is_array_field r)).
Proof.
  induction r as [|[k [s|a]] r IH]; intros b n m H; cbn [fields_to_bytes] in H.
  - injection H as <- <- <-. split; reflexivity.
  - destruct (dmap_scalar_to_bytes s) as [b0|e]; [|discriminate].
    destruct (fields_to_bytes r) as [[[bs ns] na]|e]; [|discriminate].
    injection H as <- <- <-. destruct (IH _ _ _ eq_refl) as [-> ->].
    cbn [List.filter is_scalar_field is_array_field snd negb length]. split; lia.
  - destruct (dmap_array_to_bytes a) as [b0|e]; [|discriminate].
    destruct (fields_to_bytes r) as [[[bs ns] na]|e]; [|discriminate].
    injection H as <- <- <-. destruct (IH _ _ _ eq_refl) as [-> ->].
    cbn [List.filter is_scalar_field is_array_field snd negb length]. split; lia.
Qed.

Lemma i32_at_packed (pre rest : list Z) v h :
  struct_pack "i" v = Ok h -> i32_at (pre ++ h ++ rest) (Z.of_nat (length pre)) = v.
Proof.
  intros P. pose proof (struct_pack_i_length _ _ P) as L.
  destruct (struct_pack_decode _ _ _ P) as (w & sg & _ & _ & D & _).
  rewrite (i32_at_slice _ _ _ _ (at_app_mid pre h rest)) by lia. exact D.
Qed.

Lemma record_header (r : record) (b : list Z) :
  dmap_record_to_bytes r = Ok b ->
  (16 <= length b)%nat /\
  i32_at b 0 = encoding_identifier /\
  i32_at b 4 = Z.of_nat (length b) /\
  i32_at b 8 = Z.of_nat (length (List.filter is_scalar_field r)) /\
  i32_at b 12 = Z.of_nat (length (List.filter is_array_field r)).
Proof.
  intros Hb. split; [exact (record_bytes_length _ _ Hb)|].
  revert Hb. unfold dmap_record_to_bytes.
  destruct (fields_to_bytes r) as [[[p ns] na]|e] eqn:Ef; [|discriminate].
  destruct (fields_to_bytes_field_counts _ _ _ _ Ef) as [Hn Hm].
  destruct (pack_ints _) as [h|e] eqn:P; [|discriminate].
  intros H. injection H as <-.
  destruct (pack_ints4 _ _ _ _ _ P) as (h1 & h2 & h3 & h4 & -> & P1 & P2 & P3 & P4).
  pose proof (struct_pack_i_length _ _ P1) as L1. pose proof (struct_pack_i_length _ _ P2) as L2.
  pose proof (struct_pack_i_length _ _ P3) as L3. pose proof (struct_pack_i_length _ _ P4) as L4.
  split; [|split; [|split]].
  - rewrite <- !app_assoc. exact (i32_at_packed [] (h2 ++ h3 ++ h4 ++ p) _ _ P1).
  - pose proof (i32_at_packed h1 (h3 ++ h4 ++ p) _ _ P2) as E.
    rewrite L1 in E. rewrite <- !app_assoc. rewrite E. rewrite !length_app. lia.
  - pose proof (i32_at_packed (h1 ++ h2) (h4 ++ p) _ _ P3) as E.
    assert (N : Z.of_nat (length (h1 ++ h2)) = 8) by (rewrite length_app; lia).
    rewrite N in E. rewrite <- !app_assoc in E. rewrite <- !app_assoc. rewrite E. exact Hn.
  - pose proof (i32_at_packed (h1 ++ h2 ++ h3) p _ _ P4) as E.
    assert (N : Z.of_nat (length (h1 ++ h2 ++ h3)) = 12) by (rewrite !length_app; lia).
    rewrite N in E. rewrite <- !app_assoc in E. rewrite <- !app_assoc. rewrite E. exact Hm.
Qed.

(** X4: every block the writer emits starts with the four [int32] header
    fields [__dmap_record_to_bytes] packs: the encoding identifier 65537, the
    block size, which is the length of the whole block (at least 16 bytes),
    the number of scalar fields and the number of array fields of the record. *)
Theorem dmap_record_to_bytes_header (r : record) (b : list Z) :
  dmap_record_to_bytes r = Ok b ->
  (16 <= length b)%nat /\
  i32_at b 0 = 65537 /\
  i32_at b 4 = Z.of_nat (length b) /\
  i32_at b 8 = Z.of_nat (length (List.filter is_scalar_field r)) /\
  i32_at b 12 = Z.of_nat (length (List.filter is_array_field r)).
Proof. exact (record_header r b). Qed.

Lemma dmap_record_to_bytes_header_witness :
  dmap_record_to_bytes sample_record = Ok sample_block /\
  (16 <= length sample_block)%nat /\
  i32_at sample_block 0 = 65537 /\
  i32_at sample_block 4 = Z.of_nat (length sample_block) /\
  i32_at sample_block 8 = Z.of_nat (length (List.filter is_scalar_field sample_record)) /\
  i32_at sample_block 12 = Z.of_nat (length (List.filter is_array_field sample_record)).
Proof.
  assert (E : dmap_record_to_bytes sample_record = Ok sample_block) by (vm_compute; reflexivity).
  split; [exact E|exact (dmap_record_to_bytes_header _ _ E)].
Defined.

(** X5: the integrity prescan [test_initial_data_integrity] accepts every
    stream the writer produces, in raw or checked mode. *)
Theorem integrity_check_encoded (mode : option (list file_struct)) (R : list record)
  (bs : list Z) :
  encode mode R = Ok bs -> integrity_check_at bs 0 = Ok tt.
Proof.
  intros E. destruct (encode_blocks _ _ _ E) as (_ & bl & F & ->).
  assert (Hok : Forall block_ok bl).
  { clear E. induction F as [|r b R bl Hb _ IH]; [constructor|]. constructor; [|exact IH].
    destruct (record_header _ _ Hb) as (L & _ & H4 & _). split; [lia|exact H4]. }
  unfold integrity_check_at, test_initial_data_integrity. monad_unfold.
  cbn [Z.eqb negb].
  pose proof (integrity_loop_blocks bl [] (S (length (concat bl))) Hok) as L.
  change (Z.of_nat (length (@nil Z))) with 0 in L. simpl app in L. rewrite L.
  2:{ clear L F E. induction Hok as [|b bs [Hb _] _ IH]; simpl; [lia|].
      rewrite length_app. lia. }
  rewrite Z.eqb_refl. reflexivity.
Qed.

Lemma integrity_check_encoded_witness :
  encode None [sample_record; sample_record] = Ok two_record_stream /\
  integrity_check_at two_record_stream 0 = Ok tt.
Proof.
  assert (E : encode None [sample_record; sample_record] = Ok two_record_stream)
    by (vm_compute; reflexivity).
  split; [exact E|exact (integrity_check_encoded None _ _ E)].
Defined.

(** ** The field checks *)

(** [k] is a key of one of the tables. *)
Definition in_some_table (tables : list file_struct) (k : list Z) : Prop :=
  exists g, In g tables /\ In k (map fst g).

Lemma key_set_elem {A} (d : list (list Z * A)) k : k ∈ key_set d <-> In k (map fst d).
Proof. unfold key_set. rewrite elem_of_list_to_set, list_elem_of_In. reflexivity. Qed.

Lemma union_elem (tables : list file_struct) k :
  k ∈ fold_right (fun g acc => key_set g ∪ acc) ∅ tables <-> in_some_table tables k.
Proof.
  unfold in_some_table. induction tables as [|g tables IH]; cbn [fold_right].
  - split; [set_solver|]. intros (g & [] & _).
  - rewrite elem_of_union, IH, key_set_elem. split.
    + intros [H|(g' & Hg & Hk)]; [exists g; split; [left; reflexivity|exact H]|].
      exists g'. split; [right; exact Hg|exact Hk].
    + intros (g' & [<-|Hg] & Hk); [left; exact Hk|right; exists g'; split; assumption].
Qed.

Lemma assoc_key_None {A} k (l : list (list Z * A)) : assoc_key k l = None <-> ~ In k (map fst l).
Proof.
  induction l as [|[k' v] l IH]; cbn [assoc_key map fst In]; [tauto|].
  destruct (decide (k = k')) as [->|Hne]; [split; [discriminate|tauto]|].
  rewrite IH. split; [intros H [E|E]; [congruence|tauto]|tauto].
Qed.

Lemma lookup_fold_None (k : list Z) (tables : list file_struct) : forall acc,
  fold_left (fun acc g => match assoc_key k g with
                          | Some v => Some v
                          | None => acc
                          end) tables acc = None <->
  acc = None /\ ~ in_some_table tables k.
Proof.
  unfold in_some_table. induction tables as [|g tables IH]; intros acc; cbn [fold_left].
  - split; [intros ->; split; [reflexivity|intros (g & [] & _)]|tauto].
  - rewrite IH. destruct (assoc_key k g) as [v|] eqn:E.
    + split; [intros [H _]; discriminate|].
      intros [_ H]. exfalso. apply H. exists g. split; [left; reflexivity|].
      destruct (decide (k ∈ map fst g)) as [Hi|Hn]; [apply list_elem_of_In; exact Hi|].
      rewrite list_elem_of_In in Hn. apply assoc_key_None in Hn. congruence.
    + apply assoc_key_None in E. split.
      * intros [-> H]. split; [reflexivity|]. intros (g' & [<-|Hg] & Hk); [tauto|].
        apply H. exists g'. split; assumption.
      * intros [-> H]. split; [reflexivity|]. intros (g' & Hg & Hk). apply H.
        exists g'. split; [right; exact Hg|exact Hk].
Qed.

Lemma complete_dict_lookup_None tables k :
  complete_dict_lookup tables k = None <-> ~ in_some_table tables k.
Proof. unfold complete_dict_lookup. rewrite lookup_fold_None. tauto. Qed.

Lemma lookup_fold_keep (k : list Z) (tables : list file_struct) : forall acc,
  Forall (fun g => assoc_key k g = None) tables ->
  fold_left (fun acc g => match assoc_key k g with
                          | Some v => Some v
                          | None => acc
                          end) tables acc = acc.
Proof.
  induction tables as [|g tables IH]; intros acc H; [reflexivity|].
  inversion H as [|? ? Hg H']; subst. cbn [fold_left]. rewrite Hg. exact (IH _ H').
Qed.

(** The loop of [incorrect_types_check], in closed form. *)
Lemma types_fold (tables : list file_struct) (r : record) : forall b,
  fold_left (fun acc kv =>
                  match acc with
                  | Err e => Err e
                  | Ok bad =>
                      match complete_dict_lookup tables (fst kv) with
                      | None => Err PyKeyError
                      | Some t => Ok (bad || negb (String.eqb (field_fmt (snd kv)) t))
                      end
                  end) r (Ok b) =
  if existsb (fun kv => match complete_dict_lookup tables (fst kv) with
                        | None => true | Some _ => false end) r
  then Err PyKeyError
  else Ok (b || existsb (fun kv => match complete_dict_lookup tables (fst kv) with
                                   | None => false
                                   | Some t => negb (String.eqb (field_fmt (snd kv)) t)
                                   end) r).
Proof.
  assert (Herr : forall (l : record) e,
    fold_left (fun acc kv =>
                  match acc with
                  | Err e => Err e
                  | Ok bad =>
                      match complete_dict_lookup tables (fst kv) with
                      | None => Err PyKeyError
                      | Some t => Ok (bad || negb (String.eqb (field_fmt (snd kv)) t))
                      end
                  end) l (Err e) = Err e)
    by (induction l as [|kv l IH]; intros e; [reflexivity|exact (IH e)]).
  induction r as [|kv r IH]; intros b; cbn [fold_left existsb].
  - rewrite orb_false_r. reflexivity.
  - destruct (complete_dict_lookup tables (fst kv)) as [t|]; cbn [orb].
    + rewrite IH. destruct (existsb _ r); [reflexivity|]. rewrite orb_assoc. reflexivity.
    + apply Herr.
Qed.

Lemma extra_field_check_char (tables : list file_struct) (r : record) :
  tables <> [] ->
  (extra_field_check tables r = Ok tt <->
   forall k, In k (map fst r) -> in_some_table tables k) /\
  (forall e, extra_field_check tables r = Err e ->
   exists X, e = SuperDARNFieldExtra X /\ X ≢ ∅ /\
   forall k, k ∈ X <-> In k (map fst r) /\ ~ in_some_table tables k).
Proof.
  intros Hne. unfold extra_field_check, dict_list2set, dict_key_diff.
  destruct tables as [|g tables']; [congruence|].
  set (U := fold_right (fun g acc => key_set g ∪ acc) ∅ (g :: tables')).
  assert (HU : forall k, k ∈ U <-> in_some_table (g :: tables') k) by (intros k; apply union_elem).
  destruct (decide (0 < size (key_set r ∖ U))%nat) as [Hs|Hs].
  - split.
    + split; [discriminate|]. intros Hall. exfalso.
      destruct (size_pos_elem_of _ Hs) as [k Hk]. apply elem_of_difference in Hk as [Hk Hn].
      apply Hn, HU, Hall, key_set_elem, Hk.
    + intros e He. injection He as <-. exists (key_set r ∖ U). split; [reflexivity|].
      split; [apply size_non_empty_iff; lia|].
      intros k. rewrite elem_of_difference, key_set_elem, HU. reflexivity.
  - split; [|discriminate]. split; [intros _|reflexivity].
    intros k Hk. apply HU. destruct (decide (k ∈ U)) as [Hi|Hn]; [exact Hi|].
    exfalso. assert (Z0 : size (key_set r ∖ U) = 0%nat) by lia.
    apply size_empty_inv in Z0.
    assert (Hk' : k ∈ key_set r) by (apply key_set_elem; exact Hk). set_solver.
Qed.

(** X6: [extra_field_check] over a non-empty list of tables passes exactly
    when every field name of the record is a key of some table; otherwise it
    raises [SuperDARNFieldExtra] naming exactly the record's field names that
    no table has (a non-empty set). *)
Theorem extra_field_check_spec (tables : list file_struct) (r : record) :
  tables <> [] ->
  (extra_field_check tables r = Ok tt <->
   forall k, In k (map fst r) -> in_some_table tables k) /\
  (forall e, extra_field_check tables r = Err e ->
   exists X, e = SuperDARNFieldExtra X /\ X ≢ ∅ /\
   forall k, k ∈ X <-> In k (map fst r) /\ ~ in_some_table tables k).
Proof. exact (extra_field_check_char tables r). Qed.

Lemma extra_field_check_spec_witness :
  [sample_table] <> [] /\
  extra_field_check [sample_table] sample_record = Ok tt /\
  (forall e, extra_field_check [sample_table] (named_record ["stid"; "bmnum"]%string) = Err e ->
   exists X, e = SuperDARNFieldExtra X /\ X ≢ ∅ /\
   forall k, k ∈ X <-> In k (map fst (named_record ["stid"; "bmnum"]%string)) /\
                       ~ in_some_table [sample_table] k).
Proof.
  assert (Hne : [sample_table] <> []) by discriminate.
  split; [exact Hne|]. split.
  - apply (proj1 (extra_field_check_spec [sample_table] sample_record Hne)).
    intros k Hk. exists sample_table. split; [left; reflexivity|].
    cbn in Hk. cbn. tauto.
  - exact (proj2 (extra_field_check_spec [sample_table] _ Hne)).
Defined.

Lemma types_check_closed (tables : list file_struct) (r : record) :
  incorrect_types_check tables r =
  if existsb (fun kv => match complete_dict_lookup tables (fst kv) with
                        | None => true | Some _ => false end) r
  then Err PyKeyError
  else if existsb (fun kv => match complete_dict_lookup tables (fst kv) with
                             | None => false
                             | Some t => negb (String.eqb (field_fmt (snd kv)) t)
                             end) r
  then Err SuperDARNDataFormatError else Ok tt.
Proof.
  unfold incorrect_types_check. rewrite types_fold. cbn [orb].
  destruct (existsb _ r); [reflexivity|]. destruct (existsb _ r); reflexivity.
Qed.

(** X7: [incorrect_types_check] raises [KeyError] as soon as a field name of
    the record is in no table; when every name is in some table it raises
    [SuperDARNDataFormatError] if some field's format differs from the
    table's, and passes exactly when every field's format is the one its
    name has in the merged table.  In the merged table (built with
    [dict.update]) a name takes its format from the last table that has it. *)
Theorem incorrect_types_check_spec (tables : list file_struct) (r : record) :
  ((exists kv, In kv r /\ ~ in_some_table tables (fst kv)) ->
   incorrect_types_check tables r = Err PyKeyError) /\
  ((forall kv, In kv r -> in_some_table tables (fst kv)) ->
   (exists kv, In kv r /\ complete_dict_lookup tables (fst kv) <> Some (field_fmt (snd kv))) ->
   incorrect_types_check tables r = Err SuperDARNDataFormatError) /\
  (incorrect_types_check tables r = Ok tt <->
   Forall (fun kv => complete_dict_lookup tables (fst kv) = Some (field_fmt (snd kv))) r) /\
  (forall T1 T2 g k v, tables = T1 ++ g :: T2 -> assoc_key k g = Some v ->
   Forall (fun g' => assoc_key k g' = None) T2 ->
   complete_dict_lookup tables k = Some v).
Proof.
  rewrite types_check_closed. split; [|split; [|split]].
  - intros (kv & Hin & Hn). replace (existsb _ r) with true; [reflexivity|].
    symmetry. apply existsb_exists. exists kv. split; [exact Hin|].
    apply complete_dict_lookup_None in Hn. rewrite Hn. reflexivity.
  - intros Hall (kv & Hin & Hd).
    replace (existsb (fun kv => match complete_dict_lookup tables (fst kv) with
                                | None => true | Some _ => false end) r) with false.
    2:{ symmetry. apply Bool.not_true_iff_false. intros Hx. apply existsb_exists in Hx as (kv' & Hin' & Hx).
        destruct (complete_dict_lookup tables (fst kv')) eqn:El; [discriminate|].
        apply complete_dict_lookup_None in El. exact (El (Hall kv' Hin')). }
    replace (existsb _ r) with true; [reflexivity|]. symmetry. apply existsb_exists.
    exists kv. split; [exact Hin|].
    destruct (complete_dict_lookup tables (fst kv)) as [t|] eqn:El.
    + apply negb_true_iff. apply String.eqb_neq. intros E. apply Hd. rewrite E. reflexivity.
    + apply complete_dict_lookup_None in El. exfalso. exact (El (Hall kv Hin)).
  - rewrite List.Forall_forall. split.
    + intros H kv Hin.
      destruct (complete_dict_lookup tables (fst kv)) as [t|] eqn:El.
      * destruct (existsb (fun kv => match complete_dict_lookup tables (fst kv) with
                                     | None => true | Some _ => false end) r); [discriminate|].
        destruct (existsb _ r) eqn:Ex; [discriminate|].
        apply Bool.not_true_iff_false in Ex.
        destruct (String.eqb (field_fmt (snd kv)) t) eqn:Et.
        -- apply String.eqb_eq in Et. rewrite Et. reflexivity.
        -- exfalso. apply Ex, existsb_exists. exists kv. split; [exact Hin|].
           rewrite El, Et. reflexivity.
      * destruct (existsb _ r) eqn:Ex; [discriminate|].
        apply Bool.not_true_iff_false in Ex. exfalso. apply Ex, existsb_exists.
        exists kv. split; [exact Hin|]. rewrite El. reflexivity.
    + intros H.
      replace (existsb (fun kv => match complete_dict_lookup tables (fst kv) with
                                  | None => true | Some _ => false end) r) with false.
      2:{ symmetry. apply Bool.not_true_iff_false. intros Hx.
          apply existsb_exists in Hx as (kv & Hin & Hx). rewrite (H kv Hin) in Hx. discriminate. }
      replace (existsb _ r) with false; [reflexivity|].
      symmetry. apply Bool.not_true_iff_false. intros Hx.
      apply existsb_exists in Hx as (kv & Hin & Hx). rewrite (H kv Hin), String.eqb_refl in Hx.
      discriminate.
  - intros T1 T2 g k v -> Hg H2. unfold complete_dict_lookup.
    rewrite fold_left_app. cbn [fold_left]. rewrite Hg. apply lookup_fold_keep. exact H2.
Qed.

(** The table [sample_table] with [stid] declared as an [int32]. *)
Definition int_stid_table : file_struct :=
  [(ascii_bytes "stid", "i"%string); (ascii_bytes "data", "f"%string)].

Lemma incorrect_types_check_spec_witness :
  incorrect_types_check [sample_table] (named_record ["stid"; "bmnum"]%string) = Err PyKeyError /\
  incorrect_types_check [int_stid_table] sample_record = Err SuperDARNDataFormatError /\
  incorrect_types_check [sample_table] sample_record = Ok tt /\
  complete_dict_lookup [sample_table; int_stid_table] (ascii_bytes "stid") = Some "i"%string.
Proof.
  split; [|split; [|split]].
  - apply (proj1 (incorrect_types_check_spec [sample_table] _)).
    exists (ascii_bytes "bmnum", FScalar stid_scalar). split; [right; left; reflexivity|].
    intros (g & [<-|[]] & Hk). cbn in Hk.
    destruct Hk as [Hk|[Hk|[]]]; discriminate.
  - apply (proj1 (proj2 (incorrect_types_check_spec [int_stid_table] _))).
    + intros kv [<-|[<-|[]]]; exists int_stid_table; (split; [left; reflexivity|]); cbn; tauto.
    + exists (ascii_bytes "stid", FScalar stid_scalar). split; [left; reflexivity|].
      vm_compute. discriminate.
  - apply (proj2 (proj1 (proj2 (proj2 (incorrect_types_check_spec [sample_table] _))))).
    constructor; [vm_compute; reflexivity|constructor; [vm_compute; reflexivity|constructor]].
  - apply (proj2 (proj2 (proj2 (incorrect_types_check_spec [sample_table; int_stid_table]
                                  sample_record))) [sample_table] [] int_stid_table).
    + reflexivity.
    + vm_compute. reflexivity.
    + constructor.
Defined.

Lemma missing_field_check_errors (tables : list file_struct) (r : record) e :
  missing_field_check tables r = Err e ->
  e = PyTypeError \/ exists X, e = SuperDARNFieldMissing X.
Proof.
  unfold missing_field_check, dict_list2set. destruct tables as [|g T].
  - intros H. injection H as <-. left. reflexivity.
  - destruct (decide _); intros H; [|discriminate]. injection H as <-. right. eexists. reflexivity.
Qed.

(** X8: the [KeyError] of [incorrect_types_check] never escapes the checks of
    [superDARN_file_structure_to_bytes]: [extra_field_check] runs first and
    rejects every record with a field name that no table has. *)
Theorem record_checks_no_key_error (tables : list file_struct) (r : record) :
  record_checks tables r <> Err PyKeyError.
Proof.
  unfold record_checks. destruct tables as [|g T].
  - unfold extra_field_check, dict_list2set. discriminate.
  - assert (Hne : g :: T <> []) by discriminate.
    destruct (extra_field_check_char (g :: T) r Hne) as [Hok Herr].
    destruct (extra_field_check (g :: T) r) as [[]|e] eqn:Ee.
    + assert (Hall := proj1 Hok eq_refl).
      destruct (missing_field_check (g :: T) r) as [[]|e] eqn:Em.
      * rewrite types_check_closed.
        replace (existsb (fun kv => match complete_dict_lookup (g :: T) (fst kv) with
                                    | None => true | Some _ => false end) r) with false.
        -- destruct (existsb _ r); discriminate.
        -- symmetry. apply Bool.not_true_iff_false. intros Hx.
           apply existsb_exists in Hx as (kv & Hin & Hx).
           destruct (complete_dict_lookup (g :: T) (fst kv)) eqn:El; [discriminate|].
           apply complete_dict_lookup_None in El. apply El, Hall.
           apply in_map. exact Hin.
      * destruct (missing_field_check_errors _ _ _ Em) as [->|[X ->]]; discriminate.
    + destruct (Herr e eq_refl) as (X & -> & _). discriminate.
Qed.

(** ** The file writers and the constructor *)

(** The file name the writers end up using: the argument when given, the
    instance's otherwise. *)
Definition resolved_filename (st : DmapWrite) (fn : string) : string :=
  if String.eqb fn "" then filename st else fn.

Definition rename (fn : string) (st : DmapWrite) : DmapWrite :=
  mkWrite (dmap_records st) (dmap_bytearr st) fn.

Definition rename_result (fn : string) (r : result DmapWrite) : result DmapWrite :=
  match r with Ok st => Ok (rename fn st) | Err e => Err e end.

Lemma records_fold_rename (fn : string) (R : list record) : forall acc,
  fold_left (fun acc r =>
               match acc with
               | Err e => Err e
               | Ok st' => match dmap_record_to_bytes r with
                           | Ok bs => Ok (append_bytes st' bs)
                           | Err e => Err e
                           end
               end) R (rename_result fn acc) =
  rename_result fn (fold_left (fun acc r =>
               match acc with
               | Err e => Err e
               | Ok st' => match dmap_record_to_bytes r with
                           | Ok bs => Ok (append_bytes st' bs)
                           | Err e => Err e
                           end
               end) R acc).
Proof.
  induction R as [|r R IH]; intros acc; [reflexivity|]. cbn [fold_left]. rewrite <- IH.
  f_equal. destruct acc as [st|e]; [|reflexivity]. cbn [rename_result].
  destruct (dmap_record_to_bytes r); reflexivity.
Qed.

Lemma product_fold_rename (tables : list file_struct) (fn : string) (R : list record) :
  forall acc,
  fold_left (fun acc r =>
               match acc with
               | Err e => Err e
               | Ok st' =>
                   match record_checks tables r with
                   | Err e => Err e
                   | Ok _ => match dmap_record_to_bytes r with
                             | Ok bs => Ok (append_bytes st' bs)
                             | Err e => Err e
                             end
                   end
               end) R (rename_result fn acc) =
  rename_result fn (fold_left (fun acc r =>
               match acc with
               | Err e => Err e
               | Ok st' =>
                   match record_checks tables r with
                   | Err e => Err e
                   | Ok _ => match dmap_record_to_bytes r with
                             | Ok bs => Ok (append_bytes st' bs)
                             | Err e => Err e
                             end
                   end
               end) R acc).
Proof.
  induction R as [|r R IH]; intros acc; [reflexivity|]. cbn [fold_left]. rewrite <- IH.
  f_equal. destruct acc as [st|e]; [|reflexivity]. cbn [rename_result].
  destruct (record_checks tables r); [|reflexivity].
  destruct (dmap_record_to_bytes r); reflexivity.
Qed.

Lemma filename_check_ok (st : DmapWrite) (fn : string) :
  resolved_filename st fn <> ""%string ->
  filename_check st fn = WOk (rename (resolved_filename st fn) st).
Proof.
  unfold filename_check, resolved_filename, rename.
  destruct (String.eqb_spec fn "") as [->|Hfn]; cbn [andb negb].
  - intros H. destruct (String.eqb_spec (filename st) "") as [E|E]; [contradiction|].
    destruct st; reflexivity.
  - intros _. rewrite andb_false_r. reflexivity.
Qed.

Lemma filename_check_fail (st : DmapWrite) (fn : string) :
  resolved_filename st fn = ""%string -> filename_check st fn = WErr FilenameRequiredError.
Proof.
  unfold filename_check, resolved_filename.
  destruct (String.eqb_spec fn "") as [->|Hfn]; [|contradiction].
  intros ->. reflexivity.
Qed.

(** The common shape of the six file writers, from the stream they encode. *)
Lemma write_file_after_spec (to_bytes : DmapWrite -> result DmapWrite)
  (Hren : forall fn st, to_bytes (rename fn st) = rename_result fn (to_bytes st))
  (st : DmapWrite) (fn : string) :
  write_file_after to_bytes st fn =
  match dmap_records st with
  | [] => WErr (CodecError DmapDataError)
  | _ =>
      if String.eqb (resolved_filename st fn) "" then WErr FilenameRequiredError
      else match to_bytes st with
           | Ok st2 => WOk (rename (resolved_filename st fn) st2,
                            (resolved_filename st fn, dmap_bytearr st2))
           | Err e => WErr (CodecError e)
           end
  end.
Proof.
  unfold write_file_after, empty_record_check.
  destruct (dmap_records st) as [|r R] eqn:Er; [reflexivity|].
  destruct (String.eqb_spec (resolved_filename st fn) "") as [E|E].
  - rewrite (filename_check_fail _ _ E). reflexivity.
  - rewrite (filename_check_ok _ _ E), Hren. destruct (to_bytes st); reflexivity.
Qed.

Lemma dmap_to_bytes_rename fn st :
  dmap_records_to_bytes (rename fn st) = rename_result fn (dmap_records_to_bytes st).
Proof.
  unfold dmap_records_to_bytes, records_to_bytes_from. cbn [rename dmap_records].
  change (Ok (rename fn st)) with (rename_result fn (Ok st)). apply records_fold_rename.
Qed.

Lemma product_to_bytes_rename tables fn st :
  superDARN_file_structure_to_bytes (rename fn st) tables =
  rename_result fn (superDARN_file_structure_to_bytes st tables).
Proof.
  unfold superDARN_file_structure_to_bytes. cbn [rename dmap_records].
  change (Ok (rename fn st)) with (rename_result fn (Ok st)). apply product_fold_rename.
Qed.

(** X9: the file writers [write_iqdat], [write_rawacf], [write_fitacf],
    [write_grid], [write_map] and [write_dmap] first raise [DmapDataError] on
    an instance without records, whatever the file name; then
    [FilenameRequiredError] when neither the argument nor the instance names
    a file, before any field check; otherwise they write, to the argument's
    file name if given and else to the instance's, exactly the bytes the
    matching stream conversion leaves in [dmap_bytearr], and keep that name. *)
Theorem file_writers_spec (F : superdarn_formats) :
  Forall (fun '(w, to_bytes) =>
    forall (st : DmapWrite) (fn : string),
      w st fn =
      match dmap_records st with
      | [] => WErr (CodecError DmapDataError)
      | _ =>
          if String.eqb (resolved_filename st fn) "" then WErr FilenameRequiredError
          else match to_bytes st with
               | Ok st2 => WOk (rename (resolved_filename st fn) st2,
                                (resolved_filename st fn, dmap_bytearr st2))
               | Err e => WErr (CodecError e)
               end
      end)
    [(write_iqdat F, fun st => superDARN_file_structure_to_bytes st [Iqdat_types F]);
     (write_rawacf F, fun st => superDARN_file_structure_to_bytes st [Rawacf_types F]);
     (write_fitacf F, fun st => superDARN_file_structure_to_bytes st [Fitacf_types F]);
     (write_grid F, fun st => superDARN_file_structure_to_bytes st (grid_tables F));
     (write_map F, fun st => superDARN_file_structure_to_bytes st (map_tables F));
     (write_dmap, dmap_records_to_bytes)].
Proof.
  repeat constructor; intros st fn; apply write_file_after_spec;
    intros; first [apply product_to_bytes_rename | apply dmap_to_bytes_rename].
Qed.

(** X10: the constructor [DmapWrite(dmap_records, filename, dmap_file_fmt)]
    raises [DmapFileFormatType] on a format it does not list; with no
    records, every listed format but [""] raises [DmapDataError].  With the
    format ["stream"] the new instance's byte array already holds the encoded
    records, so its first [write_dmap_stream()] returns them twice; with
    ["dmap"] and a file name, the file holds the encoded records. *)
Theorem dmap_write_init_spec (F : superdarn_formats) (rs : list record) (fn : string) :
  (forall fmt, ~ In fmt ["iqdat"; "rawacf"; "fitacf"; "grid"; "map"; "dmap"; "stream"; ""]%string ->
   dmap_write_init F rs fn fmt = WErr DmapFileFormatType) /\
  (rs = [] -> forall fmt, In fmt ["iqdat"; "rawacf"; "fitacf"; "grid"; "map"; "dmap"; "stream"]%string ->
   dmap_write_init F rs fn fmt = WErr (CodecError DmapDataError)) /\
  (forall bs, encode None rs = Ok bs ->
   dmap_write_init F rs fn "stream" = WOk (mkWrite rs bs fn, None) /\
   write_dmap_stream (mkWrite rs bs fn) [] = Ok (mkWrite rs (bs ++ bs) fn, bs ++ bs) /\
   (fn <> ""%string -> dmap_write_init F rs fn "dmap" = WOk (mkWrite rs bs fn, Some (fn, bs)))).
Proof.
  split; [|split].
  - intros fmt Hn. unfold dmap_write_init.
    repeat match goal with
      |- context [String.eqb fmt ?s] =>
        destruct (String.eqb_spec fmt s) as [->|_]; [exfalso; apply Hn; cbn; tauto|]
    end. reflexivity.
  - intros -> fmt Hin.
    cbn in Hin; repeat destruct Hin as [<-|Hin]; try contradiction; reflexivity.
  - intros bs E. split; [|split].
    + unfold dmap_write_init. cbn [String.eqb Ascii.eqb Bool.eqb].
      rewrite (write_dmap_stream_encoded (mkWrite rs [] fn) [] bs E). reflexivity.
    + exact (write_dmap_stream_encoded (mkWrite rs bs fn) [] bs E).
    + intros Hfn. unfold dmap_write_init. cbn [String.eqb Ascii.eqb Bool.eqb].
      destruct (encode_blocks _ _ _ E) as (Hne & bl & Fb & ->).
      unfold with_file, write_dmap.
      rewrite write_file_after_spec by (intros; apply dmap_to_bytes_rename).
      cbn [dmap_records]. destruct rs as [|r R]; [congruence|].
      unfold resolved_filename. cbn [String.eqb filename].
      destruct (String.eqb_spec fn "") as [E'|_]; [contradiction|].
      unfold dmap_records_to_bytes, records_to_bytes_from. cbn [dmap_records].
      rewrite (records_fold_ok _ _ Fb). reflexivity.
Qed.

(** The tables of [sample_formats]: [sample_table] for every product, no
    extra tables. *)
Definition sample_formats : superdarn_formats :=
  mkFormats sample_table sample_table sample_table sample_table [] sample_table [] [] [] [].

Lemma dmap_write_init_spec_witness :
  dmap_write_init sample_formats [sample_record] "" "fitacf2" = WErr DmapFileFormatType /\
  dmap_write_init sample_formats [] "" "map" = WErr (CodecError DmapDataError) /\
  dmap_write_init sample_formats [sample_record] "out.dmap" "stream"
    = WOk (mkWrite [sample_record] sample_block "out.dmap", None) /\
  write_dmap_stream (mkWrite [sample_record] sample_block "out.dmap") []
    = Ok (mkWrite [sample_record] (sample_block ++ sample_block) "out.dmap",
          sample_block ++ sample_block) /\
  dmap_write_init sample_formats [sample_record] "out.dmap" "dmap"
    = WOk (mkWrite [sample_record] sample_block "out.dmap", Some ("out.dmap"%string, sample_block)).
Proof.
  assert (E : encode None [sample_record] = Ok sample_block) by (vm_compute; reflexivity).
  destruct (dmap_write_init_spec sample_formats [sample_record] "" ) as [U _].
  destruct (dmap_write_init_spec sample_formats [] "") as [_ [D _]].
  destruct (dmap_write_init_spec sample_formats [sample_record] "out.dmap") as (_ & _ & S).
  destruct (S _ E) as (S1 & S2 & S3).
  split; [|split; [|split; [|split]]].
  - apply U. cbn. intros H. repeat destruct H as [H|H]; discriminate || contradiction.
  - apply D; [reflexivity|cbn; tauto].
  - exact S1.
  - exact S2.
  - apply S3. discriminate.
Defined.

(** ** What a successful decode consumed *)

Lemma read_record_span buf c r c2 :
  0 <= c -> read_record buf c = Ok (r, c2) ->
  c + 16 <= end_bytes buf /\ c < c2 <= end_bytes buf.
Proof.
  intros Hc H. rewrite (read_record_unfold buf c Hc) in H. cbv zeta in H.
  repeat (match type of H with
          | context [if ?b then Err _ else _] => destruct b eqn:?; [discriminate|]
          end).
  destruct (read_scalars _ _ _ _) as [[r1 c1]|e]; [|discriminate].
  destruct (read_arrays _ _ _ _ _) as [[r' c2']|e]; [|discriminate].
  destruct (Z.eqb_spec (c2' - c) (i32_at buf (c + 4))); [|discriminate].
  injection H as <- <-. zbool. lia.
Qed.

Lemma read_records_loop_end buf (fuel : nat) : forall acc c rs c',
  0 <= c <= end_bytes buf -> read_records_loop buf fuel acc c = Ok (rs, c') ->
  c' = end_bytes buf /\ exists l, rs = acc ++ l /\ (c < end_bytes buf -> l <> []).
Proof.
  induction fuel as [|f IH]; intros acc c rs c' Hc H; cbn [read_records_loop] in H;
    monad_unfold; [discriminate|].
  destruct (Z.ltb_spec c (end_bytes buf)) as [Hlt|Hge].
  - destruct (read_record buf c) as [[r c2]|e] eqn:Er; [|discriminate].
    destruct (read_record_span _ _ _ _ (proj1 Hc) Er) as [_ Hs].
    destruct (IH (acc ++ [r]) c2 rs c' ltac:(lia) H) as (Ec & l & -> & _). split; [exact Ec|].
    exists ([r] ++ l). rewrite app_assoc. split; [reflexivity|]. intros _. discriminate.
  - injection H as <- <-. split; [lia|]. exists []. rewrite app_nil_r.
    split; [reflexivity|]. intros; lia.
Qed.

(** X11: a successful [read_records] from a cursor [c0 >= 0] always leaves
    the cursor exactly at the end of the buffer (a start past the end fails
    its closing [bytes_check]); a successful decode of a stream returns at
    least one record and needs at least the 16 bytes of a record header; and
    an empty stream raises [EmptyFileError]. *)
Theorem read_records_consumes_all :
  (forall (buf : list Z) (c0 : Z) (rs : list record) (c : Z),
      0 <= c0 -> read_records buf c0 = Ok (rs, c) -> c = end_bytes buf) /\
  (forall (buf : list Z) (rs : list record),
      dmap_read_stream buf = Ok rs -> rs <> [] /\ (16 <= length buf)%nat) /\
  dmap_read_stream [] = Err EmptyFileError.
Proof.
  split; [|split; [|reflexivity]].
  - intros buf c0 rs c Hc0 H. unfold read_records in H. monad_unfold.
    destruct (read_records_loop buf (S (length buf)) [] c0) as [[rs0 c1]|e] eqn:El; [|discriminate].
    unfold bytes_check in H. monad_unfold.
    destruct (Z.ltb_spec (end_bytes buf) c1); [discriminate|]. injection H as _ <-.
    destruct (Z.le_gt_cases c0 (end_bytes buf)) as [Hle|Hgt].
    + exact (proj1 (read_records_loop_end buf _ [] c0 rs0 c1 ltac:(lia) El)).
    + cbn [read_records_loop] in El. monad_unfold.
      destruct (Z.ltb_spec c0 (end_bytes buf)); [lia|]. injection El as _ <-. lia.
  - intros buf rs H. unfold dmap_read_stream in H.
    destruct (Nat.eqb_spec (length buf) 0) as [|Hne]; [discriminate|].
    destruct (read_records buf 0) as [[rs0 c]|e] eqn:Er; [|discriminate].
    injection H as <-. unfold read_records in Er. monad_unfold.
    destruct (read_records_loop buf (S (length buf)) [] 0) as [[rs1 c1]|e] eqn:El;
      [|discriminate].
    assert (Hend : 0 < end_bytes buf) by (unfold end_bytes; lia).
    destruct (read_records_loop_end buf _ [] 0 rs1 c1 ltac:(lia) El) as (_ & l & El' & Hl).
    unfold bytes_check in Er. monad_unfold.
    destruct (_ <? _); [discriminate|]. injection Er as <- _.
    split; [rewrite El'; exact (Hl Hend)|].
    cbn [read_records_loop] in El. monad_unfold.
    destruct (Z.ltb_spec 0 (end_bytes buf)) as [Hlt|]; [|lia].
    destruct (read_record buf 0) as [[r c2]|e] eqn:Ec; [|discriminate].
    destruct (read_record_span buf 0 r c2 ltac:(lia) Ec) as [H16 _].
    unfold end_bytes in H16. lia.
Qed.

Lemma read_records_consumes_all_witness :
  (exists rs c, read_records two_record_stream 0 = Ok (rs, c) /\ c = end_bytes two_record_stream) /\
  (dmap_read_stream sample_block = Ok [sample_record] /\
   [sample_record] <> [] /\ (16 <= length sample_block)%nat).
Proof.
  destruct read_records_consumes_all as (A & B & _). split.
  - destruct (read_records two_record_stream 0) as [[rs c]|e] eqn:E;
      [|vm_compute in E; discriminate].
    exists rs, c. split; [reflexivity|]. exact (A _ 0 rs c ltac:(lia) E).
  - assert (E : dmap_read_stream sample_block = Ok [sample_record]) by (vm_compute; reflexivity).
    split; [exact E|exact (B _ _ E)].
Defined.

(** ** The array readers *)

(** The number of cells of a decoded array. *)
Definition ndarray_length (v : ndarray) : nat :=
  match v with NStr l => length l | NNum _ l => length l end.

Lemma read_values_length buf (n : nat) fmt w : forall c xs c',
  read_values buf n fmt w c = Ok (xs, c') -> length xs = n.
Proof.
  induction n as [|n IH]; intros c xs c' H; cbn [read_values] in H; monad_unfold.
  - injection H as <- _. reflexivity.
  - destruct (read_data buf fmt w c) as [[x c1]|e]; [|discriminate].
    destruct (read_values buf n fmt w c1) as [[ys c2]|e] eqn:E; [|discriminate].
    injection H as <- _. cbn. f_equal. exact (IH _ _ _ E).
Qed.

Lemma read_string_elems_length buf (shape : list Z) fmt w : forall c xs c',
  read_string_elems buf shape fmt w c = Ok (xs, c') ->
  length xs = fold_right (fun d acc => (Z.to_nat d + acc)%nat) 0%nat shape.
Proof.
  induction shape as [|d shape IH]; intros c xs c' H; cbn [read_string_elems] in H;
    monad_unfold.
  - injection H as <- _. reflexivity.
  - destruct (read_values buf (Z.to_nat d) fmt w c) as [[x c1]|e] eqn:E1; [|discriminate].
    destruct (read_string_elems buf shape fmt w c1) as [[ys c2]|e] eqn:E2; [|discriminate].
    injection H as <- _. rewrite length_app, (read_values_length _ _ _ _ _ _ _ E1).
    cbn [fold_right]. f_equal. exact (IH _ _ _ E2).
Qed.

Lemma np_array_length (data : list pyval) : ndarray_length (np_array data) = length data.
Proof.
  destruct data as [|[z|s] data]; cbn [np_array ndarray_length]; rewrite ?length_map; reflexivity.
Qed.

(** X12: the string-array reader [read_string_array] reads one element per
    unit of each dimension in turn, so a successful read returns as many
    cells as the sum of the dimension sizes (a negative size counting as
    none), not their product. *)
Theorem read_string_array_reads_sum (buf : list Z) (shape : list Z) (fmt : string)
  (w c : Z) (v : ndarray) (c' : Z) :
  read_string_array buf shape fmt w c = Ok (v, c') ->
  ndarray_length v = fold_right (fun d acc => (Z.to_nat d + acc)%nat) 0%nat shape.
Proof.
  unfold read_string_array. monad_unfold.
  destruct (read_string_elems buf shape fmt w c) as [[xs c1]|e] eqn:E; [|discriminate].
  intros H. injection H as <- _. rewrite np_array_length.
  exact (read_string_elems_length _ _ _ _ _ _ _ E).
Qed.

(** Five one-character strings, NUL-terminated. *)
Definition five_chars : list Z := [97; 0; 98; 0; 99; 0; 100; 0; 101; 0].

Lemma read_string_array_reads_sum_witness :
  read_string_array five_chars [2; 3] "s" 1 0
    = Ok (NStr [[97]; [98]; [99]; [100]; [101]], 10) /\
  ndarray_length (NStr [[97]; [98]; [99]; [100]; [101]]) = 5%nat.
Proof.
  assert (E : read_string_array five_chars [2; 3] "s" 1 0
                = Ok (NStr [[97]; [98]; [99]; [100]; [101]], 10)) by (vm_compute; reflexivity).
  split; [exact E|exact (read_string_array_reads_sum _ _ _ _ _ _ _ E)].
Defined.

Lemma chunks_length (w n : nat) : forall l, length (chunks w n l) = n.
Proof. induction n as [|n IH]; intros l; [reflexivity|cbn; f_equal; apply IH]. Qed.

(** X13: [read_numerical_array] with a cell count [n >= 0] either returns
    exactly [n] cells and moves the cursor by [n * w], staying within the
    buffer, or, when fewer than [n * w] bytes remain, raises the [ValueError]
    of [numpy.frombuffer].  A negative count makes [frombuffer] read the whole
    rest of the buffer, and the cursor then moves backwards, by [n * w]. *)
Theorem read_numerical_array_spec (buf : list Z) (fmt : string) (n w c : Z) :
  0 <= c <= end_bytes buf ->
  (0 <= n ->
   (forall v c', read_numerical_array buf fmt n w c = Ok (v, c') ->
      exists cells, v = NNum w cells /\ length cells = Z.to_nat n /\
                    c' = c + n * w /\ c + n * w <= end_bytes buf) /\
   (end_bytes buf - c < n * w -> read_numerical_array buf fmt n w c = Err PyValueError)) /\
  (n < 0 -> 0 < w -> (end_bytes buf - c) mod w = 0 ->
   exists cells, read_numerical_array buf fmt n w c = Ok (NNum w cells, c + n * w) /\
                 Z.of_nat (length cells) = (end_bytes buf - c) / w /\ c + n * w < c).
Proof.
  intros Hc. unfold read_numerical_array, frombuffer.
  destruct (Z.ltb_spec c 0); [lia|]. destruct (Z.ltb_spec (end_bytes buf) c); [lia|].
  cbn [orb]. split.
  - intros Hn. destruct (Z.ltb_spec n 0); [lia|]. split.
    + intros v c' Hr. destruct (Z.ltb_spec (end_bytes buf - c) (n * w)); [discriminate|].
      injection Hr as <- <-. eexists. split; [reflexivity|].
      rewrite length_map, chunks_length. split; [reflexivity|lia].
    + intros Hlt. destruct (Z.ltb_spec (end_bytes buf - c) (n * w)); [reflexivity|lia].
  - intros Hn Hw Hm. destruct (Z.ltb_spec n 0); [|lia].
    rewrite Hm. cbn [Z.eqb negb]. eexists. split; [reflexivity|].
    rewrite length_map, chunks_length. split; [|nia].
    rewrite Z2Nat.id; [reflexivity|]. apply Z.div_pos; lia.
Qed.

Lemma read_numerical_array_spec_witness :
  (0 <= 0 <= end_bytes five_chars /\
   read_numerical_array five_chars "h" 3 2 0 = Ok (NNum 2 [97; 98; 99], 6) /\
   read_numerical_array five_chars "h" 6 2 0 = Err PyValueError) /\
  (exists cells, read_numerical_array five_chars "h" (-1) 2 0 = Ok (NNum 2 cells, -2) /\
     Z.of_nat (length cells) = 5 /\ -2 < 0).
Proof.
  destruct (read_numerical_array_spec five_chars "h" 3 2 0 ltac:(vm_compute; split; discriminate))
    as [A _].
  destruct (read_numerical_array_spec five_chars "h" 6 2 0 ltac:(vm_compute; split; discriminate))
    as [B _].
  destruct (read_numerical_array_spec five_chars "h" (-1) 2 0 ltac:(vm_compute; split; discriminate))
    as [_ C].
  split; [split; [vm_compute; split; discriminate|split]|].
  - assert (E : read_numerical_array five_chars "h" 3 2 0 = Ok (NNum 2 [97; 98; 99], 6))
      by (vm_compute; reflexivity).
    destruct (A ltac:(lia)) as [A1 _]. destruct (A1 _ _ E) as (cells & _ & _ & _ & _). exact E.
  - apply (proj2 (B ltac:(lia))). vm_compute. reflexivity.
  - exact (C ltac:(lia) ltac:(lia) ltac:(vm_compute; reflexivity)).
Defined.

(** ** Character scalars outside ASCII *)

(** X14: the writer encodes a [CHAR] scalar with [chr(value).encode('utf-8')],
    so under an ASCII name a value from 128 to 2047 takes two bytes; the
    reader takes one byte for a [CHAR], so it decodes the first byte of the
    UTF-8 sequence as the value and leaves the second byte unread. *)
Theorem char_scalar_utf8 (name : list Z) (v : Z) :
  ascii_text name -> 128 <= v < 2048 ->
  dmap_scalar_to_bytes (mkScalar name (PInt v) CHAR "c")
    = Ok (name ++ [0; 1; 192 + v / 64; 128 + v mod 64]) /\
  (forall buf c rest, at_ buf c (name ++ [0; 1; 192 + v / 64; 128 + v mod 64]) rest ->
   read_scalar buf c = Ok (mkScalar name (PInt (192 + v / 64)) CHAR "c",
                           c + Z.of_nat (length name) + 3) /\
   at_ buf (c + Z.of_nat (length name) + 3) [128 + v mod 64] rest).
Proof.
  intros Hn Hv. split.
  - unfold dmap_scalar_to_bytes. cbn [s_name s_value s_data_type s_data_type_fmt].
    rewrite (type_byte_small CHAR ltac:(unfold CHAR; lia)), (ascii_pack_text_nul _ Hn).
    cbn [String.eqb Ascii.eqb Bool.eqb]. unfold utf8_chr.
    destruct (Z.ltb_spec v 0); [lia|]. destruct (Z.ltb_spec 1114111 v); [lia|].
    destruct (Z.ltb_spec v 128); [lia|]. destruct (Z.ltb_spec v 2048); [|lia].
    cbn [orb]. rewrite <- app_assoc. reflexivity.
  - intros buf c rest Hat.
    assert (Hat' : at_ buf c ((name ++ [0]) ++ [1] ++ [192 + v / 64; 128 + v mod 64]) rest)
      by (rewrite <- app_assoc; exact Hat).
    destruct (read_name_byte_at buf c name 1 _ rest Hn Hat') as (R1 & R2 & R3).
    assert (R3' : at_ buf (c + Z.of_nat (length name) + 1 + 1) [192 + v / 64]
                    ([128 + v mod 64] ++ rest))
      by (apply at_assoc; exact R3).
    pose proof (at_split buf _ [192 + v / 64] [128 + v mod 64] rest (proj1 (at_assoc _ _ _ _ _) R3'))
      as R4.
    unfold read_scalar. monad_unfold. rewrite R1, R2.
    assert (Dt : dmap_type 1 = Some ("c"%string, 1)) by reflexivity.
    unfold check_data_type. rewrite Dt. monad_unfold.
    cbn [py_str_ne_int]. rewrite (read_data_c buf _ _ _ R3'). split.
    + f_equal. f_equal. lia.
    + cbn [length] in R4. replace (c + Z.of_nat (length name) + 3)
        with (c + Z.of_nat (length name) + 1 + 1 + Z.of_nat 1) by lia. exact R4.
Qed.

Lemma char_scalar_utf8_witness :
  dmap_scalar_to_bytes (mkScalar (ascii_bytes "ch") (PInt 200) CHAR "c")
    = Ok [99; 104; 0; 1; 195; 136] /\
  read_scalar [99; 104; 0; 1; 195; 136] 0
    = Ok (mkScalar (ascii_bytes "ch") (PInt 195) CHAR "c", 5).
Proof.
  destruct (char_scalar_utf8 (ascii_bytes "ch") 200
              ltac:(apply ascii_textb_ok; vm_compute; reflexivity) ltac:(lia)) as [A B].
  split.
  - exact A.
  - destruct (B [99; 104; 0; 1; 195; 136] 0 [])
      as [R _].
    + split; [vm_compute; split; discriminate|reflexivity].
    + exact R.
Defined.

(** ** Names within a decoded record *)

Lemma od_set_keys_in k v (r : record) :
  In k (map fst r) -> map fst (od_set k v r) = map fst r.
Proof.
  induction r as [|[k' v'] r IH]; cbn [map fst In od_set]; [tauto|].
  destruct (decide (k = k')) as [->|Hne]; [reflexivity|].
  intros [E|H]; [congruence|]. cbn [map fst]. rewrite IH by exact H. reflexivity.
Qed.

Lemma od_set_lookup k v (r : record) : assoc_key k (od_set k v r) = Some v.
Proof.
  induction r as [|[k' v'] r IH]; cbn [od_set].
  - cbn. destruct (decide (k = k)); [reflexivity|congruence].
  - destruct (decide (k = k')) as [->|Hne]; cbn [assoc_key].
    + destruct (decide (k' = k')); [reflexivity|congruence].
    + destruct (decide (k = k')); [congruence|exact IH].
Qed.

Lemma od_set_lookup_other k k' v (r : record) :
  k' <> k -> assoc_key k' (od_set k v r) = assoc_key k' r.
Proof.
  intros Hk. induction r as [|[k0 v0] r IH]; cbn [od_set].
  - cbn. destruct (decide (k' = k)); [congruence|reflexivity].
  - destruct (decide (k = k0)) as [->|Hne]; cbn [assoc_key].
    + destruct (decide (k' = k0)); [congruence|reflexivity].
    + destruct (decide (k' = k0)); [reflexivity|exact IH].
Qed.

Lemma od_set_nodup k v (r : record) :
  NoDup (map fst r) -> NoDup (map fst (od_set k v r)).
Proof.
  intros H. destruct (decide (k ∈ map fst r)) as [Hi|Hn].
  - rewrite od_set_keys_in by (apply list_elem_of_In; exact Hi). exact H.
  - rewrite od_set_fresh by (rewrite <- list_elem_of_In; exact Hn).
    rewrite map_app. cbn [map fst]. apply NoDup_app. split; [exact H|]. split.
    + intros x Hx Hx'. apply list_elem_of_singleton in Hx'. subst. contradiction.
    + apply NoDup_singleton.
Qed.

Lemma read_scalars_nodup buf (n : nat) : forall r c r' c',
  NoDup (map fst r) -> read_scalars buf n r c = Ok (r', c') -> NoDup (map fst r').
Proof.
  induction n as [|n IH]; intros r c r' c' Hr H; cbn [read_scalars] in H; monad_unfold.
  - injection H as <- _. exact Hr.
  - destruct (read_scalar buf c) as [[s c1]|e]; [|discriminate].
    exact (IH _ _ _ _ (od_set_nodup _ _ _ Hr) H).
Qed.

Lemma read_arrays_nodup buf (n : nat) bs : forall r c r' c',
  NoDup (map fst r) -> read_arrays buf n bs r c = Ok (r', c') -> NoDup (map fst r').
Proof.
  induction n as [|n IH]; intros r c r' c' Hr H; cbn [read_arrays] in H; monad_unfold.
  - injection H as <- _. exact Hr.
  - destruct (read_array buf bs c) as [[a c1]|e]; [|discriminate].
    exact (IH _ _ _ _ (od_set_nodup _ _ _ Hr) H).
Qed.

Lemma read_record_nodup buf c r c' :
  0 <= c -> read_record buf c = Ok (r, c') -> NoDup (map fst r).
Proof.
  intros Hc H. rewrite (read_record_unfold buf c Hc) in H. cbv zeta in H.
  repeat (match type of H with
          | context [if ?b then Err _ else _] => destruct b eqn:?; [discriminate|]
          end).
  destruct (read_scalars _ _ _ _) as [[r1 c1]|e] eqn:E1; [|discriminate].
  destruct (read_arrays _ _ _ _ _) as [[r' c2']|e] eqn:E2; [|discriminate].
  destruct (Z.eqb_spec (c2' - c) (i32_at buf (c + 4))); [|discriminate].
  injection H as <- <-.
  exact (read_arrays_nodup _ _ _ _ _ _ _ (read_scalars_nodup _ _ [] _ _ _ NoDup_nil_2 E1) E2).
Qed.

Lemma read_records_loop_nodup buf (fuel : nat) : forall acc c rs c',
  0 <= c -> Forall (fun r => NoDup (map fst r)) acc ->
  read_records_loop buf fuel acc c = Ok (rs, c') ->
  Forall (fun r => NoDup (map fst r)) rs.
Proof.
  induction fuel as [|f IH]; intros acc c rs c' Hc Ha H; cbn [read_records_loop] in H;
    monad_unfold; [discriminate|].
  destruct (c <? end_bytes buf).
  - destruct (read_record buf c) as [[r c2]|e] eqn:Er; [|discriminate].
    destruct (read_record_span _ _ _ _ Hc Er) as [_ Hs].
    apply (IH (acc ++ [r]) c2 rs c' ltac:(lia)); [|exact H].
    apply Forall_app. split; [exact Ha|]. constructor; [|constructor].
    exact (read_record_nodup _ _ _ _ Hc Er).
  - injection H as <- _. exact Ha.
Qed.

(** X15: every record [read_records] returns holds each field name once:
    [record[name] = value] on the [OrderedDict] replaces the field of a name
    already present, in its place, and appends a new name at the end, so a
    name repeated in a block keeps the position of its first occurrence and
    the field read last, and the other names are untouched. *)
Theorem decoded_records_distinct_names :
  (forall (buf : list Z) (rs : list record),
      dmap_read_stream buf = Ok rs -> Forall (fun r => NoDup (map fst r)) rs) /\
  (forall k v (r : record), In k (map fst r) -> map fst (od_set k v r) = map fst r) /\
  (forall k v (r : record), ~ In k (map fst r) -> od_set k v r = r ++ [(k, v)]) /\
  (forall k k' v (r : record),
      assoc_key k (od_set k v r) = Some v /\
      (k' <> k -> assoc_key k' (od_set k v r) = assoc_key k' r)).
Proof.
  split; [|split; [|split]].
  - intros buf rs H. unfold dmap_read_stream in H.
    destruct (Nat.eqb (length buf) 0); [discriminate|].
    destruct (read_records buf 0) as [[rs0 c]|e] eqn:Er; [|discriminate].
    injection H as <-. unfold read_records in Er. monad_unfold.
    destruct (read_records_loop buf (S (length buf)) [] 0) as [[rs1 c1]|e] eqn:El;
      [|discriminate].
    unfold bytes_check in Er. monad_unfold.
    destruct (_ <? _); [discriminate|]. injection Er as <- _.
    exact (read_records_loop_nodup buf (S (length buf)) [] 0 rs1 c1 ltac:(lia) (Forall_nil_2 _) El).
  - exact od_set_keys_in.
  - exact od_set_fresh.
  - intros k k' v r. split; [apply od_set_lookup|apply od_set_lookup_other].
Qed.

(** A block that names [stid] twice, with the values 7 and then 9. *)
Definition stid9_scalar : DmapScalar := mkScalar (ascii_bytes "stid") (PInt 9) SHORT "h".

Definition repeated_name_block : list Z :=
  bytes_of (dmap_record_to_bytes
              [(ascii_bytes "stid", FScalar stid_scalar);
               (ascii_bytes "stid", FScalar stid9_scalar);
               (ascii_bytes "data", FArray data_array)]).

Lemma decoded_records_distinct_names_witness :
  dmap_read_stream repeated_name_block
    = Ok [[(ascii_bytes "stid", FScalar stid9_scalar);
           (ascii_bytes "data", FArray (rev_shape data_array))]] /\
  Forall (fun r => NoDup (map fst r))
    [[(ascii_bytes "stid", FScalar stid9_scalar);
      (ascii_bytes "data", FArray (rev_shape data_array))]].
Proof.
  assert (E : dmap_read_stream repeated_name_block
              = Ok [[(ascii_bytes "stid", FScalar stid9_scalar);
                     (ascii_bytes "data", FArray (rev_shape data_array))]])
    by (vm_compute; reflexivity).
  split; [exact E|].
  exact (proj1 decoded_records_distinct_names _ _ E).
Defined.

(** ** Names that are not ASCII *)






